(** * CLIProxyAPI: schema sanitizer, request adapters and stream relays

    A shallow embedding of the translation core of the gateway:

    - [Gemini]: [SanitizeSchemaForGemini] and its helpers (package [util]);
    - [Responses]: [inferEffortFromModel] and [forwardResponsesStream]
      (the OpenAI Responses handler);
    - [OpenAI]: the legacy-Completions adapters, [handleStreamResult] and the
      loop of [handleCompletionsStreamingResponse] (the OpenAI handler).

    Go strings are byte sequences and are modelled by [string]; a decoded
    JSON document is a tree [json]; a Go [map[string]interface{}] is an
    association list read in the order in which [range] happens to visit it.
    A [for { select { ... } }] loop is run over the sequence of cases that
    the runtime fires, one dispatch per wake-up.

    The definitions come first, then the vocabulary in which the properties
    are stated, then the properties with their proofs. *)

From Stdlib Require Import String Ascii List ZArith Lia Bool.
From Stdlib Require DecimalString.
Import ListNotations.
Local Open Scope string_scope.
Local Open Scope list_scope.

(** ** Go's [strings] package, as far as the handlers use it *)
Module GoStrings.

Definition byte_is (code : ascii) (c : ascii) : bool := Ascii.eqb c code.

Definition byte_between (lo hi : nat) (c : ascii) : bool :=
  let n := nat_of_ascii c in Nat.leb lo n && Nat.leb n hi.

(** [asciiSpace] of package [strings]: tab, line feed, vertical tab, form
    feed, carriage return and space. *)
Definition asciiSpace (c : ascii) : bool :=
  byte_between 9 13 c || byte_is " "%char c.

(** One white-space rune ([unicode.IsSpace]) at the head of a byte sequence:
    the bytes that follow it. Beyond ASCII these are U+0085 and U+00A0,
    U+1680, U+2000 to U+200A, U+2028, U+2029, U+202F, U+205F and U+3000 in
    their UTF-8 encodings. *)
Definition leadingSpace (s : list ascii) : option (list ascii) :=
  match s with
  | [] => None
  | c :: r =>
      if asciiSpace c then Some r
      else if byte_is "194"%char c then
        match r with
        | d :: r' =>
            if byte_is "133"%char d || byte_is "160"%char d then Some r' else None
        | _ => None
        end
      else if byte_is "225"%char c then
        match r with
        | d :: e :: r' =>
            if byte_is "154"%char d && byte_is "128"%char e then Some r' else None
        | _ => None
        end
      else if byte_is "226"%char c then
        match r with
        | d :: e :: r' =>
            if byte_is "128"%char d
               && (byte_between 128 138 e || byte_between 168 169 e
                   || byte_is "175"%char e)
            then Some r'
            else if byte_is "129"%char d && byte_is "159"%char e then Some r'
            else None
        | _ => None
        end
      else if byte_is "227"%char c then
        match r with
        | d :: e :: r' =>
            if byte_is "128"%char d && byte_is "128"%char e then Some r' else None
        | _ => None
        end
      else None
  end.

(** The same rune read backwards from the end of a sequence given reversed
    ([utf8.DecodeLastRuneInString]): the reversed bytes that precede it. *)
Definition trailingSpace (rs : list ascii) : option (list ascii) :=
  match rs with
  | [] => None
  | c :: r =>
      if asciiSpace c then Some r
      else
        match r with
        | d :: r' =>
            if byte_is "194"%char d
               && (byte_is "133"%char c || byte_is "160"%char c)
            then Some r'
            else
              match r' with
              | e :: r'' =>
                  if byte_is "225"%char e && byte_is "154"%char d
                     && byte_is "128"%char c then Some r''
                  else if byte_is "226"%char e && byte_is "128"%char d
                          && (byte_between 128 138 c || byte_between 168 169 c
                              || byte_is "175"%char c) then Some r''
                  else if byte_is "226"%char e && byte_is "129"%char d
                          && byte_is "159"%char c then Some r''
                  else if byte_is "227"%char e && byte_is "128"%char d
                          && byte_is "128"%char c then Some r''
                  else None
              | _ => None
              end
        | _ => None
        end
  end.

Fixpoint dropWhileSome (next : list ascii -> option (list ascii))
  (fuel : nat) (s : list ascii) : list ascii :=
  match fuel with
  | O => s
  | S fuel' =>
      match next s with
      | Some r => dropWhileSome next fuel' r
      | None => s
      end
  end.

Definition trimLeft (s : list ascii) : list ascii :=
  dropWhileSome leadingSpace (length s) s.

Definition trimRight (s : list ascii) : list ascii :=
  rev (dropWhileSome trailingSpace (length s) (rev s)).

(** [strings.TrimSpace]. *)
Definition TrimSpace (s : string) : string :=
  string_of_list_ascii (trimRight (trimLeft (list_ascii_of_string s))).

Definition shift_case (delta : nat) (up : bool) (c : ascii) : ascii :=
  let n := nat_of_ascii c in
  ascii_of_nat (if up then n - delta else n + delta).

(** [strings.ToLower]. Only the runes whose lower case is an ASCII letter
    are rewritten: A to Z, U+212A (Kelvin sign, to k) and U+0130 (dotted
    capital I, to i). Every other rune has a lower case outside ASCII, so
    the comparisons with ASCII keywords made on the result are exact. *)
Fixpoint ToLower (s : string) : string :=
  match s with
  | EmptyString => EmptyString
  | String c r =>
      if byte_between 65 90 c then String (shift_case 32 false c) (ToLower r)
      else
        match r with
        | String d r' =>
            if byte_is "196"%char c && byte_is "176"%char d
            then String "i"%char (ToLower r')
            else
              match r' with
              | String e r'' =>
                  if byte_is "226"%char c && byte_is "132"%char d
                     && byte_is "170"%char e
                  then String "k"%char (ToLower r'')
                  else String c (ToLower r)
              | EmptyString => String c (ToLower r)
              end
        | EmptyString => String c EmptyString
        end
  end.

(** [strings.ToUpper], with the same convention: a to z, U+017F (long s, to
    S) and U+0131 (dotless i, to I). *)
Fixpoint ToUpper (s : string) : string :=
  match s with
  | EmptyString => EmptyString
  | String c r =>
      if byte_between 97 122 c then String (shift_case 32 true c) (ToUpper r)
      else
        match r with
        | String d r' =>
            if byte_is "197"%char c && byte_is "191"%char d
            then String "S"%char (ToUpper r')
            else if byte_is "196"%char c && byte_is "177"%char d
            then String "I"%char (ToUpper r')
            else String c (ToUpper r)
        | EmptyString => String c EmptyString
        end
  end.

(** A [switch s { case c1, c2, ...: }] over string constants. *)
Definition one_of (s : string) (cases : list string) : bool :=
  existsb (String.eqb s) cases.

(** [bytes.HasPrefix]. *)
Definition HasPrefix (s p : string) : bool := String.prefix p s.

(** The line feed the relays write. *)
Definition LF : string := String "010"%char EmptyString.

End GoStrings.

(** ** Decoded JSON documents *)
Module Json.

(** A value as [encoding/json] decodes it into [interface{}], and as gjson
    walks it: [nil], [bool], a number, [string], [[]interface{}] and
    [map[string]interface{}]. A number is carried by its literal: no handler
    computes with it. The fields of an object are listed in the order in
    which the program meets them. *)
Unset Elimination Schemes.
Inductive json : Type :=
| JNull
| JBool (b : bool)
| JNumber (lit : string)
| JString (s : string)
| JArray (items : list json)
| JObject (fields : list (string * json)).
Set Elimination Schemes.

(** Lookup of a key: the first field that carries it. *)
Fixpoint map_get (key : string) (m : list (string * json)) : option json :=
  match m with
  | [] => None
  | (k, v) :: rest => if String.eqb k key then Some v else map_get key rest
  end.

(** The assignment [m[key] = val] of a Go map: an existing key keeps its
    place, a new one is added. *)
Fixpoint map_set (key : string) (val : json) (m : list (string * json))
  : list (string * json) :=
  match m with
  | [] => [(key, val)]
  | (k, v) :: rest =>
      if String.eqb k key then (key, val) :: rest
      else (k, v) :: map_set key val rest
  end.

Definition keys (m : list (string * json)) : list string := map fst m.

Definition is_null (v : json) : bool :=
  match v with JNull => true | _ => false end.


End Json.

(** ** Package [util]: the schema sanitizer *)
Module Gemini.
Import GoStrings Json.

Definition error : Type := string.

Definition geminiAllowedTypes : list (string * string) :=
  [("OBJECT", "OBJECT"); ("ARRAY", "ARRAY"); ("STRING", "STRING");
   ("NUMBER", "NUMBER"); ("INTEGER", "INTEGER"); ("BOOLEAN", "BOOLEAN")].

Fixpoint lookup_type (key : string) (table : list (string * string))
  : option string :=
  match table with
  | [] => None
  | (k, v) :: rest => if String.eqb k key then Some v else lookup_type key rest
  end.

Definition normalizeGeminiType (t : string) : string :=
  let upper := ToUpper (TrimSpace t) in
  match lookup_type upper geminiAllowedTypes with
  | Some mapped => mapped
  | None =>
      if one_of upper ["OBJECT"; "RECORD"; "MAP"] then "OBJECT"
      else if one_of upper ["BOOL"] then "BOOLEAN"
      else if one_of upper ["DOUBLE"; "FLOAT"] then "NUMBER"
      else if one_of upper ["INT"] then "INTEGER"
      else if one_of upper ["LIST"] then "ARRAY"
      else if one_of upper ["NULL"; "ANY"; ""] then ""
      else ""
  end.

(** The type switch [case string, float64, bool, nil]. *)
Definition is_scalar (item : json) : bool :=
  match item with
  | JString _ | JNumber _ | JBool _ | JNull => true
  | JArray _ | JObject _ => false
  end.

(** The result is only measured by [len] and stored, so a [nil] slice and
    an empty one are the same list. *)
Definition sanitizeGeminiEnum (val : json) : list json :=
  match val with
  | JArray items => filter is_scalar items
  | _ => []
  end.

Definition required_entry (item : json) : list string :=
  match item with
  | JString s =>
      let s := TrimSpace s in
      if String.eqb s "" then [] else [s]
  | _ => []
  end.

Definition sanitizeGeminiRequired (val : json) : list string :=
  match val with
  | JArray items => flat_map required_entry items
  | _ => []
  end.

(** The loop over the candidates of an array-valued [type]: the first string
    that normalizes to a type ends it. *)
Fixpoint first_normalized (typed : list json) : option string :=
  match typed with
  | [] => None
  | JString s :: rest =>
      let normalized := normalizeGeminiType s in
      if String.eqb normalized "" then first_normalized rest else Some normalized
  | _ :: rest => first_normalized rest
  end.

Definition removed_keywords : list string :=
  ["$defs"; "definitions"; "$ref"; "anyof"; "allof"; "oneof"; "not"; "if";
   "then"; "else"; "dependentrequired"; "dependentschemas";
   "patternproperties"].

(** [if s := f(x); s != nil { m[key] = s }]. *)
Definition set_unless_nil (key : string) (sanitized : json)
  (m : list (string * json)) : list (string * json) :=
  if is_null sanitized then m else map_set key sanitized m.

(** One turn of [for propKey, propVal := range props]. *)
Definition sanitize_property (rec : json -> json)
  (propClean : list (string * json)) (prop : string * json)
  : list (string * json) :=
  set_unless_nil (fst prop) (rec (snd prop)) propClean.

(** One turn of [for key, val := range v]: the [switch lowerKey] and the
    fall-through after it. [rec] is the recursive call. *)
Definition sanitize_entry (rec : json -> json)
  (cleaned : list (string * json)) (entry : string * json)
  : list (string * json) :=
  let key := fst entry in
  let val := snd entry in
  let lowerKey := ToLower key in
  if one_of lowerKey removed_keywords then cleaned
  else if one_of lowerKey ["nullable"] then cleaned
  else if one_of lowerKey ["const"] then
    if is_null val then cleaned else map_set "enum" (JArray [val]) cleaned
  else if one_of lowerKey ["type"] then
    match val with
    | JString typed =>
        let normalized := normalizeGeminiType typed in
        if String.eqb normalized "" then cleaned
        else map_set key (JString normalized) cleaned
    | JArray typed =>
        match first_normalized typed with
        | Some normalized => map_set key (JString normalized) cleaned
        | None => cleaned
        end
    | _ => cleaned
    end
  else if one_of lowerKey ["enum"] then
    match sanitizeGeminiEnum val with
    | [] => cleaned
    | enumVals => map_set key (JArray enumVals) cleaned
    end
  else if one_of lowerKey ["required"] then
    match sanitizeGeminiRequired val with
    | [] => cleaned
    | required => map_set key (JArray (map JString required)) cleaned
    end
  else if one_of lowerKey ["properties"] then
    match val with
    | JObject props =>
        map_set key (JObject (fold_left (sanitize_property rec) props [])) cleaned
    | _ => cleaned
    end
  else if one_of lowerKey ["items"] then set_unless_nil key (rec val) cleaned
  else if one_of lowerKey ["additionalproperties"] then
    match val with
    | JBool false => map_set key (JBool false) cleaned
    | _ => cleaned
    end
  else set_unless_nil key (rec val) cleaned.

(** One turn of the loop over an array node. *)
Definition sanitize_item (rec : json -> json) (arr : list json) (item : json)
  : list json :=
  let sanitized := rec item in
  if is_null sanitized then arr else arr ++ [sanitized].

Fixpoint sanitizeGeminiSchema (node : json) : json :=
  match node with
  | JObject v => JObject (fold_left (sanitize_entry sanitizeGeminiSchema) v [])
  | JArray v => JArray (fold_left (sanitize_item sanitizeGeminiSchema) v [])
  | _ => node
  end.

(** [encoding/json] is outside the repository: the sanitizer is stated over
    any decoder and encoder. *)
Section Sanitize.

Variable Unmarshal : string -> json + error.
Variable Marshal : json -> string + error.

(** The result pair [(string, error)], a [nil] error being [None]. *)
Definition SanitizeSchemaForGemini (raw : string) : string * option error :=
  let raw := TrimSpace raw in
  if String.eqb raw "" then ("{}", None)
  else
    match Unmarshal raw with
    | inr err => (raw, Some err)
    | inl schema =>
        let sanitized := sanitizeGeminiSchema schema in
        match Marshal sanitized with
        | inr err => (raw, Some err)
        | inl out => (out, None)
        end
    end.

End Sanitize.

End Gemini.

(** ** The executor's channels and the client connection, seen from a relay *)
Module Relay.

Definition error : Type := string.

(** [interfaces.ErrorMessage]; its [Error] field may be [nil]. *)
Record ErrorMessage : Type := { StatusCode : Z; Error : option error }.

(** The case of the [select] statement that fires at one wake-up, with what
    it receives. A receive reports [ok = false] once its channel is closed. *)
Inductive Event : Type :=
| CtxDone (err : error)                  (* <-c.Request.Context().Done() *)
| DataRecv (chunk : string)              (* chunk, ok := <-data, ok *)
| DataClosed                             (* chunk, ok := <-data, !ok *)
| ErrRecv (errMsg : option ErrorMessage) (* errMsg, ok := <-errs, ok *)
| ErrClosed                              (* errMsg, ok := <-errs, !ok *)
| Tick.                                  (* <-time.After(500ms) *)

(** What a relay does to the response writer and to the executor. [Cancel]
    records one call of the cancel function with its arguments. *)
Inductive Effect : Type :=
| Write (p : string)
| Flush
| WriteErrorResponse (msg : ErrorMessage)
| Cancel (params : list (option error)).

Inductive Control : Type := Continue | Return.

(** [for { select { ... } }]: the body handles one event and either loops
    or returns. The result is what was done, and whether the function has
    returned when the events run out. *)
Fixpoint for_select (body : Event -> list Effect * Control)
  (events : list Event) : list Effect * bool :=
  match events with
  | [] => ([], false)
  | ev :: rest =>
      match body ev with
      | (done, Return) => (done, true)
      | (done, Continue) =>
          let (later, returned) := for_select body rest in
          (done ++ later, returned)
      end
  end.

(** [var execErr error; if errMsg != nil { execErr = errMsg.Error }]. *)
Definition execErr (errMsg : option ErrorMessage) : option error :=
  match errMsg with
  | Some msg => Error msg
  | None => None
  end.

(** [if errMsg != nil { h.WriteErrorResponse(c, errMsg); flusher.Flush() }]. *)
Definition report (errMsg : option ErrorMessage) : list Effect :=
  match errMsg with
  | Some msg => [WriteErrorResponse msg; Flush]
  | None => []
  end.

Definition is_cancel (e : Effect) : bool :=
  match e with Cancel _ => true | _ => false end.

Definition is_error_body (e : Effect) : bool :=
  match e with WriteErrorResponse _ => true | _ => false end.

Definition is_tick (ev : Event) : bool :=
  match ev with Tick => true | _ => false end.

(** Events under which the data channel stays open and nothing else speaks:
    a chunk or a tick. *)
Definition is_chunk_or_tick (ev : Event) : bool :=
  match ev with DataRecv _ | Tick => true | _ => false end.

End Relay.

(** ** The OpenAI Responses handler *)
Module Responses.
Import GoStrings Relay.

(** The downward scan [for i := len(model) - 1; i >= 0; i--] with its
    [break]: [n] is [i + 1], the result is [idx]. *)
Fixpoint last_dash (model : string) (n : nat) : Z :=
  match n with
  | O => (-1)%Z
  | S i =>
      match String.get i model with
      | Some c => if Ascii.eqb c "-"%char then Z.of_nat i else last_dash model i
      | None => last_dash model i
      end
  end.

Definition inferEffortFromModel (model : string) : string * string * bool :=
  if String.eqb model "" then ("", "", false)
  else
    let idx := last_dash model (String.length model) in
    if (idx <=? 0)%Z || (idx >=? Z.of_nat (String.length model) - 1)%Z
    then ("", "", false)
    else
      let base := String.substring 0 (Z.to_nat idx) model in
      let suffix :=
        String.substring (Z.to_nat idx + 1)
          (String.length model - (Z.to_nat idx + 1)) model in
      if one_of suffix ["minimal"; "low"; "medium"; "high"] then
        if String.eqb base "gpt-5" then (base, suffix, true)
        else ("", "", false)
      else ("", "", false).

(** The body of the [select] of [forwardResponsesStream]. *)
Definition forwardResponsesStream_select (ev : Event) : list Effect * Control :=
  match ev with
  | CtxDone err => ([Cancel [Some err]], Return)
  | DataClosed => ([Write LF; Flush; Cancel [None]], Return)
  | DataRecv chunk =>
      ((if HasPrefix chunk "event:" then [Write LF] else [])
         ++ [Write chunk; Write LF; Flush],
       Continue)
  | ErrClosed => ([], Continue)
  | ErrRecv errMsg => (report errMsg ++ [Cancel [execErr errMsg]], Return)
  | Tick => ([], Continue)
  end.

Definition forwardResponsesStream (events : list Event) : list Effect * bool :=
  for_select forwardResponsesStream_select events.

End Responses.

(** ** The OpenAI handler: legacy-Completions adapters and relays *)
Module OpenAI.
Import GoStrings Json Relay.

(** *** gjson and sjson over a document

    A [gjson.Result] is the value found at a path, or nothing. The adapters
    only ask for single keys of objects. *)
Definition Result : Type := option json.

Definition gjson_Exists (r : Result) : bool :=
  match r with Some _ => true | None => false end.

Definition gjson_Get (r : Result) (key : string) : Result :=
  match r with
  | Some (JObject fields) => map_get key fields
  | _ => None
  end.

Definition gjson_IsArray (r : Result) : bool :=
  match r with Some (JArray _) => true | _ => false end.

(** The elements [ForEach] visits on an array. *)
Definition gjson_Array (r : Result) : list json :=
  match r with Some (JArray items) => items | _ => [] end.

(** [Result.ForEach]: the iterator returns the new state of the variables
    it captures and whether to go on. *)
Fixpoint gjson_ForEach {S : Type} (items : list json)
  (iterator : S -> json -> S * bool) (s : S) : S :=
  match items with
  | [] => s
  | x :: rest =>
      let (s', go) := iterator s x in
      if go then gjson_ForEach rest iterator s' else s'
  end.

(** [Result.Value] followed by [json.Marshal]: the value itself;
    [Result.Raw] handed to [sjson.SetRaw]: the value itself. *)
Definition gjson_Value (r : Result) : json :=
  match r with Some v => v | None => JNull end.

(** What gjson and sjson compute from the text of a document and from its
    numbers lies outside the repository. *)
Class Library : Type := {
  (** [gjson.ParseBytes]: the document a buffer holds. *)
  Parse : string -> json;
  (** The bytes of a document built with sjson. *)
  Render : json -> string;
  (** [Result.String] of a number (its literal, reformatted unless it is a
      plain integer), of an object and of an array (their text). *)
  Text : json -> string;
  (** [Result.Int] of a number, given by its literal. *)
  NumberInt : string -> Z;
  (** The literal sjson writes for [Result.Float] of a number. *)
  NumberFloat : string -> string;
  (** Whether [Result.Num] of a number is zero. *)
  NumberIsZero : string -> bool;
  (** [Result.Int] of a string: what gjson parses from it. *)
  ParseInt : string -> Z;
  (** The literal sjson writes for [Result.Float] of a string. *)
  ParseFloat : string -> string
}.

Definition FormatInt (n : Z) : string :=
  DecimalString.NilZero.string_of_int (Z.to_int n).

(** Decimal index of a path component. *)
Fixpoint index_of_digits (part : string) (acc : nat) : option nat :=
  match part with
  | EmptyString => Some acc
  | String c rest =>
      if byte_between 48 57 c
      then index_of_digits rest (10 * acc + (nat_of_ascii c - 48))
      else None
  end.

Definition index_of (part : string) : option nat :=
  match part with
  | EmptyString => None
  | _ => index_of_digits part 0
  end.

Fixpoint split_dots (path : string) (part : string) : list string :=
  match path with
  | EmptyString => [part]
  | String c rest =>
      if Ascii.eqb c "."%char then part :: split_dots rest EmptyString
      else split_dots rest (part ++ String c EmptyString)
  end.

(** Assignment of element [i] of an array, padded with nulls when short. *)
Fixpoint set_nth (i : nat) (update : json -> json) (items : list json)
  : list json :=
  match i, items with
  | O, [] => [update JNull]
  | O, x :: rest => update x :: rest
  | S i', [] => JNull :: set_nth i' update []
  | S i', x :: rest => x :: set_nth i' update rest
  end.

Fixpoint set_at (parts : list string) (val : json) (doc : json) : json :=
  match parts with
  | [] => val
  | part :: rest =>
      match doc with
      | JObject fields =>
          JObject (map_set part
                     (set_at rest val
                        (match map_get part fields with
                         | Some d => d
                         | None => JNull
                         end))
                     fields)
      | JArray items =>
          match index_of part with
          | Some i => JArray (set_nth i (set_at rest val) items)
          | None => doc
          end
      | _ => JObject [(part, set_at rest val JNull)]
      end
  end.

(** [sjson.Set] and [sjson.SetRaw] on a dotted path of plain keys and
    indices. The adapters assign top-level keys of an object and
    [messages.0.content] of their own template, where sjson reports no
    error. *)
Definition sjson_Set (doc : json) (path : string) (val : json) : json :=
  set_at (split_dots path EmptyString) val doc.

Section Adapters.

Context {L : Library}.

(** [Result.String]. *)
Definition gjson_String (r : Result) : string :=
  match r with
  | None => ""
  | Some JNull => ""
  | Some (JBool true) => "true"
  | Some (JBool false) => "false"
  | Some (JString s) => s
  | Some v => Text v
  end.

(** [Result.Int]: 0 unless the value is [true], a string or a number. *)
Definition gjson_Int (r : Result) : Z :=
  match r with
  | Some (JBool true) => 1%Z
  | Some (JString s) => ParseInt s
  | Some (JNumber lit) => NumberInt lit
  | _ => 0%Z
  end.

(** [Result.Float], as the literal sjson writes for it. *)
Definition gjson_Float (r : Result) : string :=
  match r with
  | Some (JBool true) => "1"
  | Some (JString s) => ParseFloat s
  | Some (JNumber lit) => NumberFloat lit
  | _ => "0"
  end.

(** [Result.Bool]: [strconv.ParseBool] of the lower-cased string accepts
    [1], [t] and [true]. *)
Definition gjson_Bool (r : Result) : bool :=
  match r with
  | Some (JBool true) => true
  | Some (JString s) => one_of (ToLower s) ["1"; "t"; "true"]
  | Some (JNumber lit) => negb (NumberIsZero lit)
  | _ => false
  end.

(** [if x := root.Get(key); x.Exists() { out, _ = sjson.Set(out, key, f(x)) }]. *)
Definition copy_field (root : Result) (key : string) (f : Result -> json)
  (out : json) : json :=
  let x := gjson_Get root key in
  if gjson_Exists x then sjson_Set out key (f x) else out.

Definition chat_template : json :=
  JObject [("model", JString "");
           ("messages",
            JArray [JObject [("role", JString "user");
                             ("content", JString "")]])].

Definition convertCompletionsRequestToChatCompletions (rawJSON : json) : json :=
  let root : Result := Some rawJSON in
  let prompt := gjson_String (gjson_Get root "prompt") in
  let prompt := if String.eqb prompt "" then "Complete this:" else prompt in
  let out := chat_template in
  let out :=
    copy_field root "model" (fun x => JString (gjson_String x)) out in
  let out := sjson_Set out "messages.0.content" (JString prompt) in
  let out :=
    copy_field root "max_tokens" (fun x => JNumber (FormatInt (gjson_Int x))) out in
  let out :=
    copy_field root "temperature" (fun x => JNumber (gjson_Float x)) out in
  let out :=
    copy_field root "top_p" (fun x => JNumber (gjson_Float x)) out in
  let out :=
    copy_field root "frequency_penalty" (fun x => JNumber (gjson_Float x)) out in
  let out :=
    copy_field root "presence_penalty" (fun x => JNumber (gjson_Float x)) out in
  let out :=
    copy_field root "stop" gjson_Value out in
  let out :=
    copy_field root "stream" (fun x => JBool (gjson_Bool x)) out in
  let out :=
    copy_field root "logprobs" (fun x => JBool (gjson_Bool x)) out in
  let out :=
    copy_field root "top_logprobs" (fun x => JNumber (FormatInt (gjson_Int x))) out in
  let out :=
    copy_field root "echo" (fun x => JBool (gjson_Bool x)) out in
  out.

(** The first [ForEach] of the stream-chunk converter: [hasContent] is the
    captured variable. *)
Definition has_content_iterator (hasContent : bool) (choice : json)
  : bool * bool :=
  let delta := gjson_Get (Some choice) "delta" in
  let content := gjson_Get delta "content" in
  if gjson_Exists delta && gjson_Exists content
     && negb (String.eqb (gjson_String content) "")
  then (true, false)
  else
    let finishReason := gjson_Get (Some choice) "finish_reason" in
    if gjson_Exists finishReason
       && negb (String.eqb (gjson_String finishReason) "")
       && negb (String.eqb (gjson_String finishReason) "null")
    then (true, false)
    else (hasContent, true).

(** The choice built by one turn of the second [ForEach]. *)
Definition completions_stream_choice (choice : json) : json :=
  let completionsChoice :=
    [("index",
      JNumber (FormatInt (gjson_Int (gjson_Get (Some choice) "index"))))] in
  let delta := gjson_Get (Some choice) "delta" in
  let content := gjson_Get delta "content" in
  let completionsChoice :=
    if gjson_Exists delta then
      if gjson_Exists content && negb (String.eqb (gjson_String content) "")
      then map_set "text" (JString (gjson_String content)) completionsChoice
      else map_set "text" (JString "") completionsChoice
    else map_set "text" (JString "") completionsChoice in
  let finishReason := gjson_Get (Some choice) "finish_reason" in
  let completionsChoice :=
    if gjson_Exists finishReason
       && negb (String.eqb (gjson_String finishReason) "null")
    then map_set "finish_reason" (JString (gjson_String finishReason))
           completionsChoice
    else completionsChoice in
  let logprobs := gjson_Get (Some choice) "logprobs" in
  let completionsChoice :=
    if gjson_Exists logprobs
    then map_set "logprobs" (gjson_Value logprobs) completionsChoice
    else completionsChoice in
  JObject completionsChoice.

Definition choices_iterator (choices : list json) (choice : json)
  : list json * bool :=
  (choices ++ [completions_stream_choice choice], true).

Definition completions_template : json :=
  JObject [("id", JString ""); ("object", JString "text_completion");
           ("created", JNumber "0"); ("model", JString "");
           ("choices", JArray [])].

(** The result is the converted document, or [None] for the [nil] that
    tells the caller to skip the chunk. *)
Definition convertChatCompletionsStreamChunkToCompletions (chunkData : json)
  : option json :=
  let root : Result := Some chunkData in
  let chatChoices := gjson_Get root "choices" in
  let hasContent :=
    if gjson_Exists chatChoices && gjson_IsArray chatChoices
    then gjson_ForEach (gjson_Array chatChoices) has_content_iterator false
    else false in
  if negb hasContent then None
  else
    let out := completions_template in
    let out :=
      copy_field root "id" (fun x => JString (gjson_String x)) out in
    let out :=
      copy_field root "created" (fun x => JNumber (FormatInt (gjson_Int x))) out in
    let out :=
      copy_field root "model" (fun x => JString (gjson_String x)) out in
    let choices :=
      if gjson_Exists chatChoices && gjson_IsArray chatChoices
      then gjson_ForEach (gjson_Array chatChoices) choices_iterator []
      else [] in
    let out :=
      match choices with
      | [] => out
      | _ => sjson_Set out "choices" (JArray choices)
      end in
    Some out.

(** The body of the [select] of [handleCompletionsStreamingResponse]. *)
Definition handleCompletionsStreamingResponse_select (ev : Event)
  : list Effect * Control :=
  match ev with
  | CtxDone err => ([Cancel [Some err]], Return)
  | DataClosed => ([Write ("data: [DONE]" ++ LF ++ LF); Flush; Cancel []], Return)
  | DataRecv chunk =>
      match convertChatCompletionsStreamChunkToCompletions (Parse chunk) with
      | Some converted =>
          ([Write ("data: " ++ Render converted ++ LF ++ LF); Flush], Continue)
      | None => ([], Continue)
      end
  | ErrClosed => ([], Continue)
  | ErrRecv errMsg => (report errMsg ++ [Cancel [execErr errMsg]], Return)
  | Tick => ([], Continue)
  end.

Definition handleCompletionsStreamingResponse (events : list Event)
  : list Effect * bool :=
  for_select handleCompletionsStreamingResponse_select events.

End Adapters.

(** The body of the [select] of [handleStreamResult]. *)
Definition handleStreamResult_select (ev : Event) : list Effect * Control :=
  match ev with
  | CtxDone err => ([Cancel [Some err]], Return)
  | DataClosed => ([Write ("data: [DONE]" ++ LF ++ LF); Flush; Cancel [None]], Return)
  | DataRecv chunk => ([Write ("data: " ++ chunk ++ LF ++ LF); Flush], Continue)
  | ErrClosed => ([], Continue)
  | ErrRecv errMsg => (report errMsg ++ [Cancel [execErr errMsg]], Return)
  | Tick => ([], Continue)
  end.

Definition handleStreamResult (events : list Event) : list Effect * bool :=
  for_select handleStreamResult_select events.

End OpenAI.

(** ** Package [config]: access providers *)
Module Config.

(** [AccessProvider]. The field [Type] is [ProviderType] here. *)
Record AccessProvider : Type := {
  Name : string;
  ProviderType : string;
  SDK : string;
  APIKeys : list string;
  ProviderConfig : list (string * Json.json)
}.

Record AccessConfig : Type := { Providers : list AccessProvider }.

Record ResponsesDefaults : Type := {
  Verbosity : string;
  ReasoningSummary : string
}.

Record ResponsesConfig : Type := {
  Defaults : ResponsesDefaults;
  InferEffortFromModelSuffix : bool
}.

(** [SDKConfig]. Its own [APIKeys] field is [ClientAPIKeys] here. *)
Record SDKConfig : Type := {
  ProxyURL : string;
  RequestLog : bool;
  ClientAPIKeys : list string;
  Access : AccessConfig;
  Responses : ResponsesConfig
}.

Definition AccessProviderTypeConfigAPIKey : string := "config-api-key".

Definition DefaultAccessProviderName : string := "config-inline".

(** [c.Access.Providers[i].Name = name]. *)
Definition with_name (p : AccessProvider) (name : string) : AccessProvider :=
  {| Name := name; ProviderType := ProviderType p; SDK := SDK p;
     APIKeys := APIKeys p; ProviderConfig := ProviderConfig p |}.

(** The loop [for i := range c.Access.Providers] from index [i] on: the
    providers as the loop leaves them, and the index of the element whose
    address is returned. *)
Fixpoint scan_providers (providers : list AccessProvider) (i : nat)
  : list AccessProvider * option nat :=
  match providers with
  | [] => ([], None)
  | p :: rest =>
      if String.eqb (ProviderType p) AccessProviderTypeConfigAPIKey then
        ((if String.eqb (Name p) "" then with_name p DefaultAccessProviderName
          else p) :: rest,
         Some i)
      else
        let (rest', found) := scan_providers rest (S i) in
        (p :: rest', found)
  end.

Definition with_providers (c : SDKConfig) (providers : list AccessProvider)
  : SDKConfig :=
  {| ProxyURL := ProxyURL c; RequestLog := RequestLog c;
     ClientAPIKeys := ClientAPIKeys c;
     Access := {| Providers := providers |};
     Responses := Responses c |}.

(** [ConfigAPIKeyProvider] on a receiver that may be [nil]: the
    configuration after the call, and the pointer returned, as the index of
    the provider it points to ([None] for [nil]). *)
Definition ConfigAPIKeyProvider (c : option SDKConfig)
  : option SDKConfig * option nat :=
  match c with
  | None => (None, None)
  | Some c =>
      let (providers, found) := scan_providers (Providers (Access c)) 0 in
      (Some (with_providers c providers), found)
  end.


End Config.

(** ** Package [logging]: the verbose entry for failed requests *)
Module Logging.
Import GoStrings Json Relay OpenAI.

(** What the handlers and executors leave under the keys of a
    [gin.Context]: a byte slice, a slice of error messages, or a value of
    another type. *)
Inductive any : Type :=
| Bytes (b : string)
| ErrorMessages (errs : list (option ErrorMessage))
| Other.

(** [c.Get(key)]. *)
Fixpoint Get (c : list (string * any)) (key : string) : option any :=
  match c with
  | [] => None
  | (k, v) :: rest => if String.eqb k key then Some v else Get rest key
  end.

(** [v.([]byte)] of the value under [key], [nil] when the assertion fails. *)
Definition bytes_at (c : list (string * any)) (key : string) : string :=
  match Get c key with
  | Some (Bytes b) => b
  | _ => ""
  end.

(** The loop that joins the errors, from the buffer [buf] on. *)
Fixpoint join_errors (errs : list (option ErrorMessage)) (buf : string)
  : string :=
  match errs with
  | [] => buf
  | Some {| Error := Some err |} :: rest =>
      let buf := if Nat.ltb 0 (String.length buf) then (buf ++ LF)%string else buf in
      join_errors rest (buf ++ err)%string
  | _ :: rest => join_errors rest buf
  end.

(** [gjson.Get] on the path [k1.k2] of two plain keys: the scan of the
    members of the object answers from the first one named [k1] under which
    an object holds [k2]. *)
Fixpoint get_nested (k1 k2 : string) (fields : list (string * json))
  : Result :=
  match fields with
  | [] => None
  | (k, v) :: rest =>
      if String.eqb k k1 then
        match gjson_Get (Some v) k2 with
        | Some found => Some found
        | None => get_nested k1 k2 rest
        end
      else get_nested k1 k2 rest
  end.

Definition gjson_Get2 (doc : json) (k1 k2 : string) : Result :=
  match doc with
  | JObject fields => get_nested k1 k2 fields
  | _ => None
  end.

(** The three bytes of the ellipsis, then the words. *)
Definition truncated : string :=
  String "226" (String "128" (String "166" "(truncated)")).

(** [safeExcerpt]; [n] is an [int]. *)
Definition safeExcerpt (b : string) (n : Z) : string :=
  if Nat.eqb (String.length b) 0 then ""
  else
    let s := TrimSpace b in
    if (n <=? 0)%Z || (Z.of_nat (String.length s) <=? n)%Z then s
    else (substring 0 (Z.to_nat n) s ++ truncated)%string.

Record Fields : Type := {
  status : Z;
  method : string;
  path : string;
  latency : string;
  model : string;
  api_response : string
}.

Section Verbose.

Context {L : Library}.

(** [time.Duration.String]. *)
Variable DurationString : Z -> string.

(** The model named by the upstream request. *)
Definition request_model (apiReq : string) : string :=
  if Nat.ltb 0 (String.length apiReq) then
    let model := gjson_String (gjson_Get (Some (Parse apiReq)) "model") in
    if String.eqb model "" then
      gjson_String (gjson_Get2 (Parse apiReq) "body" "model")
    else model
  else "".

(** [emitVerbose5xxLog]: the fields of the entry it logs at level error
    with the message [request failed (verbose)]. *)
Definition emitVerbose5xxLog (c : list (string * any)) (status : Z)
  (method path : string) (latency : Z) : Fields :=
  let apiReq := bytes_at c "API_REQUEST" in
  let apiResp := bytes_at c "API_RESPONSE" in
  let apiResp :=
    if Nat.eqb (String.length apiResp) 0 then
      match Get c "API_RESPONSE_ERROR" with
      | Some (ErrorMessages errs) => join_errors errs ""
      | _ => apiResp
      end
    else apiResp in
  let model := request_model apiReq in
  let respExcerpt := safeExcerpt apiResp (-1) in
  {| status := status; method := method; path := path;
     latency := DurationString latency; model := model;
     api_response := respExcerpt |}.

End Verbose.

End Logging.

(** ** [internal/logging/gin_logger.go]: the bounded excerpts *)
Module GinLogger.
Import GoStrings Json OpenAI.

(** The seven bytes that stand before the words in this file. *)
Definition truncated : string :=
  String "195" (String "162" (String "226" (String "130" (String "172"
    (String "194" (String "166" "(truncated)")))))).

(** [safeExcerpt] as this file has it; [None] is the panic of the slice
    expression [s[:n]] on a negative [n]. *)
Definition safeExcerpt (b : string) (n : Z) : option string :=
  if Nat.eqb (String.length b) 0 then Some ""
  else
    let s := TrimSpace b in
    if (Z.of_nat (String.length s) <=? n)%Z then Some s
    else if (n <? 0)%Z then None
    else Some (substring 0 (Z.to_nat n) s ++ truncated)%string.

Record Fields : Type := {
  status : Z;
  method : string;
  path : string;
  latency : string;
  model : string;
  api_request_excerpt : string;
  api_response_excerpt : string
}.

Section Verbose.

Context {L : Library}.

Variable DurationString : Z -> string.

Definition max : Z := 2048.

(** [emitVerbose5xxLog] as this file has it. *)
Definition emitVerbose5xxLog (c : list (string * Logging.any)) (status : Z)
  (method path : string) (latency : Z) : option Fields :=
  let apiReq := Logging.bytes_at c "API_REQUEST" in
  let apiResp := Logging.bytes_at c "API_RESPONSE" in
  let model := Logging.request_model apiReq in
  match safeExcerpt apiReq max with
  | None => None
  | Some reqExcerpt =>
      match safeExcerpt apiResp max with
      | None => None
      | Some respExcerpt =>
          Some {| status := status; method := method; path := path;
                  latency := DurationString latency; model := model;
                  api_request_excerpt := reqExcerpt;
                  api_response_excerpt := respExcerpt |}
      end
  end.

End Verbose.

End GinLogger.

(** ** What a handler does with a request *)
Module Handlers.
Import Json Relay.

(** The calls a handler makes on the [gin.Context], on the base handler and
    on the response writer, in order. [JSONError] is [c.JSON] of a
    [handlers.ErrorResponse] with the message and the type of its
    [ErrorDetail]; [Do] is a call that the relays make as well. *)
Inductive Action : Type :=
| Header (key value : string)
| SetKey (key value : string)
| JSON (code : Z) (obj : json)
| JSONError (code : Z) (message kind : string)
| GetContextWithCancel
| ExecuteWithAuthManager (handlerType modelName rawJSON alt : string)
| ExecuteStreamWithAuthManager (handlerType modelName rawJSON alt : string)
| Do (e : Effect).

Definition StatusOK : Z := 200.
Definition StatusBadRequest : Z := 400.
Definition StatusInternalServerError : Z := 500.

Definition streaming_headers : list Action :=
  [Header "Content-Type" "text/event-stream";
   Header "Cache-Control" "no-cache";
   Header "Connection" "keep-alive";
   Header "Access-Control-Allow-Origin" "*"].

(** The answer to a writer that is no [http.Flusher]. *)
Definition not_supported : Action :=
  JSONError StatusInternalServerError "Streaming not supported" "server_error".

(** The answer when [c.GetRawData] fails with [err]. *)
Definition invalid_request (err : error) : Action :=
  JSONError StatusBadRequest ("Invalid request: " ++ err)
    "invalid_request_error".

(** [streamResult.Type == gjson.True]. *)
Definition is_True (r : option json) : bool :=
  match r with Some (JBool true) => true | _ => false end.

(** The relay of a streaming handler, run on what its [select] receives:
    what the handler has done, and whether it has returned. *)
Definition relayed (done : list Action) (relay : list Effect * bool)
  : list Action * bool :=
  (done ++ map Do (fst relay), snd relay).

End Handlers.

(** ** The OpenAI handler, from the endpoints down *)
Module OpenAIHandlers.
Import GoStrings Json Relay OpenAI Handlers.

(** [model[key]] on a map of the registry: [nil] for a missing key. *)
Definition index (model : list (string * json)) (key : string) : json :=
  match map_get key model with
  | Some v => v
  | None => JNull
  end.

(** The map that the loop of [OpenAIModels] builds from one model. *)
Definition filteredModel (model : list (string * json))
  : list (string * json) :=
  let filteredModel := [("id", index model "id");
                        ("object", index model "object")] in
  let filteredModel :=
    match map_get "created" model with
    | Some created => map_set "created" created filteredModel
    | None => filteredModel
    end in
  let filteredModel :=
    match map_get "owned_by" model with
    | Some ownedBy => map_set "owned_by" ownedBy filteredModel
    | None => filteredModel
    end in
  filteredModel.

(** [OpenAIModels], on the models that [h.Models()] returns. *)
Definition OpenAIModels (allModels : list (list (string * json))) : Action :=
  let filteredModels := map filteredModel allModels in
  JSON StatusOK
    (JObject [("object", JString "list");
              ("data", JArray (map JObject filteredModels))]).

Section Handler.

Context {L : Library}.

(** [h.HandlerType()] is a constant of [internal/constant], and [h.GetAlt(c)]
    is read from the request by the base handler. *)
Variable HandlerType : string.
Variable GetAlt : string.

(** The choice built by one turn of the [ForEach] of the response
    converter. *)
Definition completions_choice (choice : json) : json :=
  let completionsChoice :=
    [("index",
      JNumber (FormatInt (gjson_Int (gjson_Get (Some choice) "index"))))] in
  let message := gjson_Get (Some choice) "message" in
  let completionsChoice :=
    if gjson_Exists message then
      let content := gjson_Get message "content" in
      if gjson_Exists content
      then map_set "text" (JString (gjson_String content)) completionsChoice
      else completionsChoice
    else
      let delta := gjson_Get (Some choice) "delta" in
      if gjson_Exists delta then
        let content := gjson_Get delta "content" in
        if gjson_Exists content
        then map_set "text" (JString (gjson_String content)) completionsChoice
        else completionsChoice
      else completionsChoice in
  let finishReason := gjson_Get (Some choice) "finish_reason" in
  let completionsChoice :=
    if gjson_Exists finishReason
    then map_set "finish_reason" (JString (gjson_String finishReason))
           completionsChoice
    else completionsChoice in
  let logprobs := gjson_Get (Some choice) "logprobs" in
  let completionsChoice :=
    if gjson_Exists logprobs
    then map_set "logprobs" (gjson_Value logprobs) completionsChoice
    else completionsChoice in
  JObject completionsChoice.

Definition response_iterator (choices : list json) (choice : json)
  : list json * bool :=
  (choices ++ [completions_choice choice], true).

Definition convertChatCompletionsResponseToCompletions (rawJSON : json)
  : json :=
  let root : Result := Some rawJSON in
  let out := completions_template in
  let out :=
    copy_field root "id" (fun x => JString (gjson_String x)) out in
  let out :=
    copy_field root "created" (fun x => JNumber (FormatInt (gjson_Int x))) out in
  let out :=
    copy_field root "model" (fun x => JString (gjson_String x)) out in
  let out :=
    copy_field root "usage" gjson_Value out in
  let chatChoices := gjson_Get root "choices" in
  let choices :=
    if gjson_Exists chatChoices && gjson_IsArray chatChoices
    then gjson_ForEach (gjson_Array chatChoices) response_iterator []
    else [] in
  match choices with
  | [] => out
  | _ => sjson_Set out "choices" (JArray choices)
  end.

(** [handleNonStreamingResponse]: [resp] and [errMsg] are what the executor
    returns. *)
Definition handleNonStreamingResponse (rawJSON : string) (resp : string)
  (errMsg : option ErrorMessage) : list Action * bool :=
  let modelName := gjson_String (gjson_Get (Some (Parse rawJSON)) "model") in
  ([Header "Content-Type" "application/json";
    SetKey "API_REQUEST" rawJSON;
    GetContextWithCancel;
    ExecuteWithAuthManager HandlerType modelName rawJSON GetAlt]
     ++ match errMsg with
        | Some msg => [Do (WriteErrorResponse msg); Do (Cancel [Error msg])]
        | None => [Do (Write resp); Do (Cancel [])]
        end,
   true).

(** [handleStreamingResponse]: [flusher] tells whether the writer is an
    [http.Flusher], [events] is what the [select] of the relay receives. *)
Definition handleStreamingResponse (flusher : bool) (rawJSON : string)
  (events : list Event) : list Action * bool :=
  if negb flusher then (streaming_headers ++ [not_supported], true)
  else
    let modelName := gjson_String (gjson_Get (Some (Parse rawJSON)) "model") in
    relayed
      (streaming_headers
         ++ [SetKey "API_REQUEST" rawJSON;
             GetContextWithCancel;
             ExecuteStreamWithAuthManager HandlerType modelName rawJSON GetAlt])
      (handleStreamResult events).

(** [handleCompletionsNonStreamingResponse]. The model is read from the
    request that the converter has built. *)
Definition handleCompletionsNonStreamingResponse (rawJSON : string)
  (resp : string) (errMsg : option ErrorMessage) : list Action * bool :=
  let chatCompletionsJSON :=
    convertCompletionsRequestToChatCompletions (Parse rawJSON) in
  let modelName := gjson_String (gjson_Get (Some chatCompletionsJSON) "model") in
  ([Header "Content-Type" "application/json";
    GetContextWithCancel;
    ExecuteWithAuthManager HandlerType modelName (Render chatCompletionsJSON) ""]
     ++ match errMsg with
        | Some msg => [Do (WriteErrorResponse msg); Do (Cancel [Error msg])]
        | None =>
            let completionsResp :=
              convertChatCompletionsResponseToCompletions (Parse resp) in
            [Do (Write (Render completionsResp)); Do (Cancel [])]
        end,
   true).

(** [handleCompletionsStreamingResponse], from its first line. *)
Definition handleCompletionsStreaming (flusher : bool) (rawJSON : string)
  (events : list Event) : list Action * bool :=
  if negb flusher then (streaming_headers ++ [not_supported], true)
  else
    let chatCompletionsJSON :=
      convertCompletionsRequestToChatCompletions (Parse rawJSON) in
    let modelName :=
      gjson_String (gjson_Get (Some chatCompletionsJSON) "model") in
    relayed
      (streaming_headers
         ++ [GetContextWithCancel;
             ExecuteStreamWithAuthManager HandlerType modelName
               (Render chatCompletionsJSON) ""])
      (handleCompletionsStreamingResponse events).

(** [ChatCompletions]: [body] is what [c.GetRawData] returns. *)
Definition ChatCompletions (body : string + error) (flusher : bool)
  (resp : string) (errMsg : option ErrorMessage) (events : list Event)
  : list Action * bool :=
  match body with
  | inr err => ([invalid_request err], true)
  | inl rawJSON =>
      if is_True (gjson_Get (Some (Parse rawJSON)) "stream")
      then handleStreamingResponse flusher rawJSON events
      else handleNonStreamingResponse rawJSON resp errMsg
  end.

(** [Completions]. *)
Definition Completions (body : string + error) (flusher : bool)
  (resp : string) (errMsg : option ErrorMessage) (events : list Event)
  : list Action * bool :=
  match body with
  | inr err => ([invalid_request err], true)
  | inl rawJSON =>
      if is_True (gjson_Get (Some (Parse rawJSON)) "stream")
      then handleCompletionsStreaming flusher rawJSON events
      else handleCompletionsNonStreamingResponse rawJSON resp errMsg
  end.

End Handler.

End OpenAIHandlers.

(** ** The OpenAI Responses handler, from the endpoint down *)
Module ResponsesHandlers.
Import GoStrings Json Relay OpenAI Handlers Config Responses.

(** A request body: the bytes that the client sent, or the document that
    sjson has built from them. gjson reads back from a built document what
    sjson has put there. *)
Inductive Body : Type :=
| Raw (bytes : string)
| Built (doc : json).

Section Handler.

Context {L : Library}.

Variable HandlerType : string.

(** [h.Cfg]; it may be [nil]. *)
Variable Cfg : option SDKConfig.

Definition doc_of (body : Body) : json :=
  match body with
  | Raw bytes => Parse bytes
  | Built doc => doc
  end.

Definition bytes_of (body : Body) : string :=
  match body with
  | Raw bytes => bytes
  | Built doc => Render doc
  end.

(** [body, _ = sjson.SetBytes(body, path, value)] with a string. *)
Definition SetBytes (body : Body) (path value : string) : Body :=
  Built (sjson_Set (doc_of body) path (JString value)).

(** [!gjson.GetBytes(body, k1.k2).Exists() && value != ""], then the test
    of the value against the accepted ones, then the assignment. *)
Definition inject_default (body : Body) (k1 k2 : string) (value : string)
  (accepted : list string) : Body :=
  if negb (gjson_Exists (Logging.gjson_Get2 (doc_of body) k1 k2))
     && negb (String.eqb value "")
  then
    if one_of value accepted then SetBytes body (k1 ++ "." ++ k2) value
    else body
  else body.

Definition preprocessResponsesRequest (body : Body) : Body * string :=
  let modelName := gjson_String (gjson_Get (Some (doc_of body)) "model") in
  if String.eqb modelName "" then (body, modelName)
  else
    let body :=
      match Cfg with
      | Some cfg =>
          let body :=
            inject_default body "text" "verbosity"
              (Verbosity (Defaults (Config.Responses cfg)))
              ["low"; "medium"; "high"] in
          inject_default body "reasoning" "summary"
            (ReasoningSummary (Defaults (Config.Responses cfg)))
            ["auto"; "detailed"]
      | None => body
      end in
    if match Cfg with
       | None => true
       | Some cfg => InferEffortFromModelSuffix (Config.Responses cfg)
       end
    then
      if negb (gjson_Exists (Logging.gjson_Get2 (doc_of body) "reasoning" "effort"))
      then
        match inferEffortFromModel modelName with
        | (base, effort, true) =>
            let body := SetBytes body "reasoning.effort" effort in
            let body := SetBytes body "model" base in
            (body, base)
        | _ => (body, modelName)
        end
      else (body, modelName)
    else (body, modelName).

(** [handleNonStreamingResponse]: the deferred call cancels with no
    argument on both ways out. *)
Definition handleNonStreamingResponse (rawJSON : Body) (resp : string)
  (errMsg : option ErrorMessage) : list Action * bool :=
  let modelName := gjson_String (gjson_Get (Some (doc_of rawJSON)) "model") in
  ([Header "Content-Type" "application/json";
    GetContextWithCancel;
    ExecuteWithAuthManager HandlerType modelName (bytes_of rawJSON) ""]
     ++ match errMsg with
        | Some msg => [Do (WriteErrorResponse msg)]
        | None => [Do (Write resp)]
        end
     ++ [Do (Cancel [])],
   true).

Definition handleStreamingResponse (flusher : bool) (rawJSON : Body)
  (events : list Event) : list Action * bool :=
  if negb flusher then (streaming_headers ++ [not_supported], true)
  else
    let modelName := gjson_String (gjson_Get (Some (doc_of rawJSON)) "model") in
    relayed
      (streaming_headers
         ++ [GetContextWithCancel;
             ExecuteStreamWithAuthManager HandlerType modelName
               (bytes_of rawJSON) ""])
      (forwardResponsesStream events).

(** [Responses]: the endpoint. *)
Definition Responses (body : string + error) (flusher : bool)
  (resp : string) (errMsg : option ErrorMessage) (events : list Event)
  : list Action * bool :=
  match body with
  | inr err => ([invalid_request err], true)
  | inl rawJSON =>
      let rawJSON := fst (preprocessResponsesRequest (Raw rawJSON)) in
      if is_True (gjson_Get (Some (doc_of rawJSON)) "stream")
      then handleStreamingResponse flusher rawJSON events
      else handleNonStreamingResponse rawJSON resp errMsg
  end.

End Handler.

End ResponsesHandlers.

(** * Vocabulary of the properties *)

Import GoStrings Json Relay Gemini.

(** Case analysis on the event of a [select]. *)
Ltac each_event ev :=
  destruct ev as [err|chunk| |[msg|]| |]; simpl.

(** What the [select] receives, the ticks apart. *)
Definition received (events : list Event) : list Event :=
  filter (fun ev => negb (is_tick ev)) events.

(** The frame of one chunk on the Chat-Completions stream, and on the
    Responses stream. *)
Definition sse_frame (chunk : string) : list Effect :=
  [Write ("data: " ++ chunk ++ LF ++ LF); Flush].

Definition plain_frame (chunk : string) : list Effect :=
  (if String.prefix "event:" chunk then [Write LF] else [])
    ++ [Write chunk; Write LF; Flush].

(** After the events [pre], the event [ev] makes the relay do [last] and
    return, whatever follows. *)
Definition ends_with (relay : list Event -> list Effect * bool)
  (pre : list Event) (ev : Event) (post : list Event) (last : list Effect)
  : Prop :=
  relay (pre ++ ev :: post) = (fst (relay pre) ++ last, true).

(** What an error message delivered after [pre] leads to: the error body
    once, one cancel with the error of the message, and nothing after. *)
Definition error_terminates (relay : list Event -> list Effect * bool)
  (pre post : list Event) (msg : ErrorMessage) : Prop :=
  let done := fst (relay (pre ++ ErrRecv (Some msg) :: post)) in
  ends_with relay pre (ErrRecv (Some msg)) post
    [WriteErrorResponse msg; Flush; Cancel [Error msg]]
  /\ filter is_error_body done = [WriteErrorResponse msg]
  /\ filter is_cancel done = [Cancel [Error msg]].

(** What the error case of the [select] does, for a relay: a receive from
    the closed error channel changes nothing; a received message ends the
    loop, a nil one with no write and a cancel with a nil error. *)
Definition error_case (relay : list Event -> list Effect * bool) : Prop :=
  (forall pre post, relay (pre ++ ErrClosed :: post) = relay (pre ++ post))
  /\ (forall pre post, snd (relay pre) = false ->
        ends_with relay pre (ErrRecv None) post [Cancel [None]])
  /\ (forall pre post msg, snd (relay pre) = false ->
        ends_with relay pre (ErrRecv (Some msg)) post
          [WriteErrorResponse msg; Flush; Cancel [Error msg]]).

(** The effort levels of the spec. *)
Definition efforts : list string := ["minimal"; "low"; "medium"; "high"].

(** Case analysis on the cases of a [switch] over strings. *)
Ltac split_switch :=
  repeat match goal with
         | |- context [if one_of ?s ?cases then _ else _] =>
             let E := fresh "Hcase" in destruct (one_of s cases) eqn:E
         end.

(** The keywords the [switch] of [sanitizeGeminiSchema] has a case for. *)
Definition handled_keywords : list string :=
  removed_keywords
    ++ ["nullable"; "const"; "type"; "enum"; "required"; "properties";
        "items"; "additionalproperties"].

(** The encodings of the white-space runes. *)
Definition space_runes : list (list ascii) :=
  map (fun c => [c])
      ["009"; "010"; "011"; "012"; "013"; " "]%char
  ++ [["194"; "133"]; ["194"; "160"]; ["225"; "154"; "128"]]%char
  ++ map (fun c => ["226"; "128"; c]%char)
      ["128"; "129"; "130"; "131"; "132"; "133"; "134"; "135"; "136"; "137";
       "138"; "168"; "169"; "175"]%char
  ++ [["226"; "129"; "159"]; ["227"; "128"; "128"]]%char.

(** A byte sequence made of white-space runes only. *)
Inductive whitespace_only : list ascii -> Prop :=
| ws_nil : whitespace_only []
| ws_rune (rune rest : list ascii) :
    In rune space_runes -> whitespace_only rest ->
    whitespace_only (rune ++ rest).

(** Case analysis on every test of the goal. *)
Ltac split_bytes :=
  repeat match goal with
         | |- context [if ?b then _ else _] => destruct b
         end.







Section AdapterVocabulary.

Context {L : OpenAI.Library}.

Import OpenAI.

(** A choice carries content, in the spec's words: a non-empty
    [delta.content], or a [finish_reason] that is neither null, empty nor
    the string [null]. *)
Definition carries_content (choice : json) : Prop :=
  (exists content,
      gjson_Get (gjson_Get (Some choice) "delta") "content" = Some content
      /\ gjson_String (Some content) <> "")
  \/ (exists reason,
        gjson_Get (Some choice) "finish_reason" = Some reason
        /\ gjson_String (Some reason) <> ""
        /\ gjson_String (Some reason) <> "null").

(** The choices of a chunk: the elements of its [choices] array. *)
Definition chat_choices (chunkData : json) : list json :=
  gjson_Array (gjson_Get (Some chunkData) "choices").

(** The text the spec gives a forwarded choice. *)
Definition choice_text (choice : json) : string :=
  gjson_String (gjson_Get (gjson_Get (Some choice) "delta") "content").

(** The generation parameters the request adapter copies. *)
Definition copied_parameters : list string :=
  ["max_tokens"; "temperature"; "top_p"; "frequency_penalty";
   "presence_penalty"; "stop"; "stream"; "logprobs"; "top_logprobs"; "echo"].

End AdapterVocabulary.



(** The texts of the errors that a list of messages carries: a nil message
    and a message with a nil error carry none. *)
Definition error_texts (errs : list (option ErrorMessage)) : list string :=
  flat_map (fun e => match e with
                     | Some {| Error := Some err |} => [err]
                     | _ => []
                     end) errs.

(** The texts from the first non-empty one on. *)
Fixpoint drop_empty (texts : list string) : list string :=
  match texts with
  | "" :: rest => drop_empty rest
  | _ => texts
  end.

(** Each text on a line of its own, after what stands before. *)
Fixpoint lines_after (texts : list string) : string :=
  match texts with
  | [] => ""
  | t :: rest => LF ++ t ++ lines_after rest
  end.

Section HandlerVocabulary.

Context {L : OpenAI.Library}.

Import OpenAI.


End HandlerVocabulary.

(** A library for the examples: the document [doc] is what it reads from
    every buffer. *)
Definition reading (doc : json) : OpenAI.Library :=
  {| OpenAI.Parse := fun _ => doc;
     OpenAI.Render := fun _ => "";
     OpenAI.Text := fun _ => "";
     OpenAI.NumberInt := fun _ => 0%Z;
     OpenAI.NumberFloat := fun _ => "0";
     OpenAI.NumberIsZero := fun _ => true;
     OpenAI.ParseInt := fun _ => 0%Z;
     OpenAI.ParseFloat := fun _ => "0" |}.

(** A request for [gpt-5-high] as a stream. *)
Definition high_effort_request : json :=
  JObject [("model", JString "gpt-5-high"); ("stream", JBool true)].

Section PreprocessVocabulary.

Context {L : OpenAI.Library}.

Import OpenAI.

(** A section of the request under which sjson can put a key: one that is
    missing or holds an object, null, a boolean or a number. *)
Definition plain_value (section : Result) : bool :=
  match section with
  | Some (JArray _) | Some (JString _) => false
  | _ => true
  end.

Definition plain_sections (doc : json) : Prop :=
  plain_value (gjson_Get (Some doc) "text") = true
  /\ plain_value (gjson_Get (Some doc) "reasoning") = true.

(** What a request ends with at a path for which the configuration has a
    default: the value of the client, or else the configured one if it is
    among the accepted ones. *)
Definition default_for (client : Result) (configured : string)
  (accepted : list string) : Result :=
  match client with
  | Some x => Some x
  | None =>
      if one_of configured accepted then Some (JString configured) else None
  end.

(** The handler maps the suffix of the model to an effort: the feature is
    on, the client has set no effort, and the model has a known suffix. *)
Definition infers (Cfg : option Config.SDKConfig) (doc : json) : bool :=
  match Cfg with
  | None => true
  | Some cfg => Config.InferEffortFromModelSuffix (Config.Responses cfg)
  end
  && negb (gjson_Exists (Logging.gjson_Get2 doc "reasoning" "effort"))
  && snd (Responses.inferEffortFromModel
            (gjson_String (gjson_Get (Some doc) "model"))).

End PreprocessVocabulary.

(** What a run of a handler is made of. *)
Definition opens_context (a : Handlers.Action) : bool :=
  match a with Handlers.GetContextWithCancel => true | _ => false end.

Definition calls_executor (a : Handlers.Action) : bool :=
  match a with
  | Handlers.ExecuteWithAuthManager _ _ _ _
  | Handlers.ExecuteStreamWithAuthManager _ _ _ _ => true
  | _ => false
  end.

Definition cancels (a : Handlers.Action) : bool :=
  match a with Handlers.Do (Cancel _) => true | _ => false end.

Definition count {A : Type} (f : A -> bool) (l : list A) : nat :=
  length (filter f l).

(** A call of the cancel function is the last thing that is done. *)
Fixpoint nothing_after_cancel (actions : list Handlers.Action) : bool :=
  match actions with
  | [] => true
  | a :: rest =>
      if cancels a then match rest with [] => true | _ => false end
      else nothing_after_cancel rest
  end.

(** A run keeps the contexts in order: the executor is called once for each
    context that is made, and that is at most once; the context is cancelled
    once by the time the handler returns, and not before; and nothing is
    done after the cancel. *)
Definition disciplined (run : list Handlers.Action * bool) : Prop :=
  count calls_executor (fst run) = count opens_context (fst run)
  /\ count opens_context (fst run) <= 1
  /\ count cancels (fst run) =
     (if snd run then count opens_context (fst run) else 0)
  /\ nothing_after_cancel (fst run) = true.

(** The number of calls of the executor that a readable request is worth:
    none when it asks for a stream that the writer cannot flush. *)
Definition served (stream flusher : bool) : nat :=
  if stream && negb flusher then 0 else 1.

(** The events that end a relay: the client is gone, the data channel is
    closed, or the error channel has delivered a message. *)
Definition is_terminal (ev : Event) : bool :=
  match ev with
  | CtxDone _ | DataClosed | ErrRecv _ => true
  | _ => false
  end.

(** Whether something written is still waiting for a flush after
    [effects], given whether something was before. *)
Definition pending_after (pending : bool) (effects : list Effect) : bool :=
  fold_left (fun pending e =>
               match e with
               | Write _ | WriteErrorResponse _ => true
               | Flush => false
               | Cancel _ => pending
               end) effects pending.

(** A relay that returns at the first terminal event and not before, that
    only cancels, with the error of the context, when the client is gone,
    and that never looks at what follows the event it returns on. *)
Definition stops_at_terminal (relay : list Event -> list Effect * bool)
  : Prop :=
  (forall events, snd (relay events) = existsb is_terminal events)
  /\ (forall pre err post,
        existsb is_terminal pre = false ->
        ends_with relay pre (CtxDone err) post [Cancel [Some err]])
  /\ (forall pre ev post,
        existsb is_terminal pre = false -> is_terminal ev = true ->
        relay (pre ++ ev :: post) = relay (pre ++ [ev])).


(** [c.Set(key, value)] on the keys of a [gin.Context]. *)
Fixpoint context_set (key : string) (value : Logging.any)
  (c : list (string * Logging.any)) : list (string * Logging.any) :=
  match c with
  | [] => [(key, value)]
  | (k, v) :: rest =>
      if String.eqb k key then (key, value) :: rest
      else (k, v) :: context_set key value rest
  end.

(** The keys of the context after a run of a handler. *)
Definition context_after (actions : list Handlers.Action)
  (c : list (string * Logging.any)) : list (string * Logging.any) :=
  fold_left (fun c a =>
               match a with
               | Handlers.SetKey key value =>
                   context_set key (Logging.Bytes value) c
               | _ => c
               end) actions c.

(** * Properties *)

Import GoStrings Json Relay.

(** ** Relay loops *)
Section ForSelect.

Variable body : Event -> list Effect * Control.

Lemma for_select_continue (ev : Event) (done : list Effect) (rest : list Event) :
  body ev = (done, Continue) ->
  for_select body (ev :: rest) =
  (done ++ fst (for_select body rest), snd (for_select body rest)).
Proof.
  intros Hb. simpl. rewrite Hb.
  destruct (for_select body rest); reflexivity.
Qed.

Lemma for_select_return (ev : Event) (done : list Effect) (rest : list Event) :
  body ev = (done, Return) -> for_select body (ev :: rest) = (done, true).
Proof. intros Hb. simpl. now rewrite Hb. Qed.

(** Events met after the function has returned are never looked at. *)
Lemma for_select_returned (pre post : list Event) :
  snd (for_select body pre) = true ->
  for_select body (pre ++ post) = for_select body pre.
Proof.
  induction pre as [|ev pre IH]; simpl; [discriminate|].
  destruct (body ev) as [done [|]]; [|reflexivity].
  destruct (for_select body pre) as [later r] eqn:E; simpl in *.
  intros ->. now rewrite (IH eq_refl).
Qed.

(** While the function has not returned, the loop goes on with what
    comes next. *)
Lemma for_select_running (pre post : list Event) :
  snd (for_select body pre) = false ->
  for_select body (pre ++ post) =
  (fst (for_select body pre) ++ fst (for_select body post),
   snd (for_select body post)).
Proof.
  induction pre as [|ev pre IH]; simpl.
  - intros _. now destruct (for_select body post).
  - destruct (body ev) as [done [|]]; [|discriminate].
    destruct (for_select body pre) as [later r] eqn:E; simpl in *.
    intros ->. rewrite (IH eq_refl). simpl. now rewrite app_assoc.
Qed.

Hypothesis continue_keeps_quiet :
  forall ev done, body ev = (done, Continue) -> filter is_cancel done = [].
Hypothesis return_cancels_once :
  forall ev done, body ev = (done, Return) -> length (filter is_cancel done) = 1.

Lemma for_select_cancel_count (events : list Event) :
  length (filter is_cancel (fst (for_select body events))) =
  if snd (for_select body events) then 1 else 0.
Proof.
  induction events as [|ev rest IH]; [reflexivity|].
  simpl. destruct (body ev) as [done [|]] eqn:Hb.
  - destruct (for_select body rest) as [later r]; simpl in *.
    rewrite filter_app, length_app, (continue_keeps_quiet _ _ Hb). exact IH.
  - simpl. exact (return_cancels_once _ _ Hb).
Qed.

End ForSelect.

Lemma handleStreamResult_cancel_count (events : list Event) :
  length (filter is_cancel (fst (OpenAI.handleStreamResult events))) =
  if snd (OpenAI.handleStreamResult events) then 1 else 0.
Proof.
  apply for_select_cancel_count; intros ev done;
    each_event ev; intros H; inversion H; reflexivity.
Qed.

Lemma forwardResponsesStream_cancel_count (events : list Event) :
  length (filter is_cancel (fst (Responses.forwardResponsesStream events))) =
  if snd (Responses.forwardResponsesStream events) then 1 else 0.
Proof.
  apply for_select_cancel_count; intros ev done;
    each_event ev; intros H; inversion H; try reflexivity;
    destruct (HasPrefix chunk "event:"); reflexivity.
Qed.

Lemma handleCompletionsStreamingResponse_cancel_count
  (L : OpenAI.Library) (events : list Event) :
  length (filter is_cancel (fst (OpenAI.handleCompletionsStreamingResponse events))) =
  if snd (OpenAI.handleCompletionsStreamingResponse events) then 1 else 0.
Proof.
  apply for_select_cancel_count; intros ev done;
    each_event ev;
    try destruct (OpenAI.convertChatCompletionsStreamChunkToCompletions _);
    intros H; inversion H; reflexivity.
Qed.

Lemma quiet_stream_shape (events : list Event) (chunks : list string) :
  received events = map DataRecv chunks ++ [DataClosed] ->
  match events with
  | [] => False
  | Tick :: rest =>
      received rest = map DataRecv chunks ++ [DataClosed]
  | DataRecv c :: rest =>
      exists chunks', chunks = c :: chunks' /\
        received rest = map DataRecv chunks' ++ [DataClosed]
  | DataClosed :: _ => chunks = []
  | _ => False
  end.
Proof.
  unfold received. destruct events as [|ev rest]; simpl.
  - destruct chunks; discriminate.
  - destruct ev; simpl; intros H; try (destruct chunks; discriminate); auto.
    + destruct chunks as [|c chunks']; simpl in H; [discriminate|].
      inversion H; subst. now exists chunks'.
    + destruct chunks as [|c chunks']; simpl in H; [reflexivity|discriminate].
Qed.

Lemma handleStreamResult_quiet (events : list Event) (chunks : list string) :
  received events = map DataRecv chunks ++ [DataClosed] ->
  OpenAI.handleStreamResult events =
  (flat_map sse_frame chunks
     ++ [Write ("data: [DONE]" ++ LF ++ LF); Flush; Cancel [None]], true).
Proof.
  revert chunks. induction events as [|ev rest IH]; intros chunks H;
    apply quiet_stream_shape in H; [contradiction|].
  unfold OpenAI.handleStreamResult in *.
  destruct ev; try contradiction.
  - destruct H as (chunks' & -> & H).
    rewrite (for_select_continue _ _ (sse_frame chunk)) by reflexivity.
    rewrite (IH _ H). reflexivity.
  - subst. reflexivity.
  - rewrite (for_select_continue _ _ []) by reflexivity.
    rewrite (IH _ H). reflexivity.
Qed.

Lemma forwardResponsesStream_quiet (events : list Event) (chunks : list string) :
  received events = map DataRecv chunks ++ [DataClosed] ->
  Responses.forwardResponsesStream events =
  (flat_map plain_frame chunks ++ [Write LF; Flush; Cancel [None]], true).
Proof.
  revert chunks. induction events as [|ev rest IH]; intros chunks H;
    apply quiet_stream_shape in H; [contradiction|].
  unfold Responses.forwardResponsesStream in *.
  destruct ev; try contradiction.
  - destruct H as (chunks' & -> & H).
    rewrite (for_select_continue _ _ (plain_frame chunk)) by reflexivity.
    rewrite (IH _ H). simpl. now rewrite <- app_assoc.
  - subst. reflexivity.
  - rewrite (for_select_continue _ _ []) by reflexivity.
    rewrite (IH _ H). reflexivity.
Qed.

(** C1. When the data channel yields the chunks [chunks] and then closes,
    the error channel never yields and the client context is never
    cancelled (the events are these receives, with ticks anywhere between
    them), [handleStreamResult] writes each chunk framed as
    [data: <chunk>\n\n] in the order received, then [data: [DONE]\n\n], and
    calls cancel once, with a nil error; [forwardResponsesStream] writes each
    chunk followed by a line feed (and preceded by one when it starts with
    [event:]), then one line feed, and calls cancel once with a nil error.
    Whatever the events, each relay, the Completions loop included, has
    called cancel exactly once when it has returned, and not before. *)
Theorem relay_clean_completion (events : list Event) (chunks : list string) :
  received events = map DataRecv chunks ++ [DataClosed] ->
  OpenAI.handleStreamResult events =
    (flat_map sse_frame chunks
       ++ [Write ("data: [DONE]" ++ LF ++ LF); Flush; Cancel [None]], true)
  /\ Responses.forwardResponsesStream events =
    (flat_map plain_frame chunks ++ [Write LF; Flush; Cancel [None]], true)
  /\ (forall any : list Event,
        length (filter is_cancel (fst (OpenAI.handleStreamResult any))) =
          (if snd (OpenAI.handleStreamResult any) then 1 else 0)
        /\ length (filter is_cancel (fst (Responses.forwardResponsesStream any))) =
          (if snd (Responses.forwardResponsesStream any) then 1 else 0)
        /\ forall L : OpenAI.Library,
            length (filter is_cancel
                      (fst (OpenAI.handleCompletionsStreamingResponse any))) =
            (if snd (OpenAI.handleCompletionsStreamingResponse any) then 1 else 0)).
Proof.
  intros H. repeat split.
  - now apply handleStreamResult_quiet.
  - now apply forwardResponsesStream_quiet.
  - apply handleStreamResult_cancel_count.
  - apply forwardResponsesStream_cancel_count.
  - intros L. apply handleCompletionsStreamingResponse_cancel_count.
Qed.

(** Two chunks, a tick between them, then the close. *)
Lemma relay_clean_completion_two_chunks :
  OpenAI.handleStreamResult [DataRecv "a"; Tick; DataRecv "b"; DataClosed] =
    ([Write ("data: a" ++ LF ++ LF); Flush; Write ("data: b" ++ LF ++ LF); Flush;
      Write ("data: [DONE]" ++ LF ++ LF); Flush; Cancel [None]], true)
  /\ Responses.forwardResponsesStream [DataRecv "a"; Tick; DataRecv "b"; DataClosed] =
    ([Write "a"; Write LF; Flush; Write "b"; Write LF; Flush;
      Write LF; Flush; Cancel [None]], true).
Proof.
  pose proof (relay_clean_completion
                [DataRecv "a"; Tick; DataRecv "b"; DataClosed] ["a"; "b"]
                eq_refl) as (H1 & H2 & _).
  split; [exact H1 | exact H2].
Defined.

(** Events that keep a relay in its loop and neither cancel nor report. *)
Section KeepsRunning.

Variable body : Event -> list Effect * Control.
Variable keeps : Event -> bool.

Hypothesis keeps_continue :
  forall ev, keeps ev = true -> snd (body ev) = Continue.

Lemma for_select_keeps_running (pre : list Event) :
  forallb keeps pre = true -> snd (for_select body pre) = false.
Proof.
  induction pre as [|ev pre IH]; simpl; [reflexivity|].
  intros H. apply andb_prop in H as [Hev Hpre].
  specialize (keeps_continue _ Hev). specialize (IH Hpre).
  destruct (body ev) as [done ctl]; simpl in *; subst.
  now destruct (for_select body pre).
Qed.

Variable kind : Effect -> bool.

Hypothesis keeps_none :
  forall ev, keeps ev = true -> filter kind (fst (body ev)) = [].

Lemma for_select_keeps_none (pre : list Event) :
  forallb keeps pre = true -> filter kind (fst (for_select body pre)) = [].
Proof.
  induction pre as [|ev pre IH]; simpl; [reflexivity|].
  intros H. apply andb_prop in H as [Hev Hpre].
  specialize (keeps_continue _ Hev). specialize (keeps_none _ Hev).
  specialize (IH Hpre).
  destruct (body ev) as [done ctl]; simpl in *; subst.
  destruct (for_select body pre); simpl in *.
  now rewrite filter_app, keeps_none, IH.
Qed.

End KeepsRunning.

Lemma for_select_ends_with (body : Event -> list Effect * Control)
  (pre post : list Event) (ev : Event) (last : list Effect) :
  snd (for_select body pre) = false ->
  body ev = (last, Return) ->
  ends_with (for_select body) pre ev post last.
Proof.
  intros Hrun Hev. unfold ends_with.
  rewrite (for_select_running _ _ _ Hrun).
  now rewrite (for_select_return _ _ _ _ Hev).
Qed.

Lemma for_select_skips (body : Event -> list Effect * Control)
  (pre post : list Event) (ev : Event) :
  body ev = ([], Continue) ->
  for_select body (pre ++ ev :: post) = for_select body (pre ++ post).
Proof.
  intros Hev. destruct (snd (for_select body pre)) eqn:Hrun.
  - now rewrite !(for_select_returned _ _ _ Hrun).
  - rewrite !(for_select_running _ _ _ Hrun).
    rewrite (for_select_continue _ _ _ _ Hev). reflexivity.
Qed.

Lemma for_select_error_terminates (body : Event -> list Effect * Control)
  (pre post : list Event) (msg : ErrorMessage) :
  (forall ev, is_chunk_or_tick ev = true ->
     snd (body ev) = Continue
     /\ filter is_error_body (fst (body ev)) = []
     /\ filter is_cancel (fst (body ev)) = []) ->
  body (ErrRecv (Some msg)) =
    ([WriteErrorResponse msg; Flush; Cancel [Error msg]], Return) ->
  forallb is_chunk_or_tick pre = true ->
  error_terminates (for_select body) pre post msg.
Proof.
  intros Hkeep Herr Hpre.
  assert (Hrun : snd (for_select body pre) = false).
  { apply (for_select_keeps_running body is_chunk_or_tick); [|exact Hpre].
    intros ev Hev. apply (Hkeep ev Hev). }
  pose proof (for_select_ends_with body pre post _ _ Hrun Herr) as Hend.
  unfold error_terminates. cbv zeta. split; [exact Hend|].
  unfold ends_with in Hend. rewrite Hend. simpl fst.
  rewrite !filter_app.
  rewrite (for_select_keeps_none body is_chunk_or_tick
             (fun ev H => proj1 (Hkeep ev H)) is_error_body
             (fun ev H => proj1 (proj2 (Hkeep ev H))) pre Hpre).
  rewrite (for_select_keeps_none body is_chunk_or_tick
             (fun ev H => proj1 (Hkeep ev H)) is_cancel
             (fun ev H => proj2 (proj2 (Hkeep ev H))) pre Hpre).
  split; reflexivity.
Qed.

(** C2. While the data channel stays open (the relay has met only chunks
    and ticks), a non-nil error message makes each relay write the error
    body exactly once, call cancel exactly once, with the error of the
    message, and return: chunks that arrive afterwards are not written. *)
Theorem relay_error_precedence (pre post : list Event) (msg : ErrorMessage) :
  forallb is_chunk_or_tick pre = true ->
  error_terminates OpenAI.handleStreamResult pre post msg
  /\ error_terminates Responses.forwardResponsesStream pre post msg
  /\ forall L : OpenAI.Library,
      error_terminates OpenAI.handleCompletionsStreamingResponse pre post msg.
Proof.
  intros Hpre. split; [|split; [|intros L]];
    (apply for_select_error_terminates; trivial;
     intros ev Hev; destruct ev; try discriminate; simpl; auto).
  - destruct (HasPrefix chunk "event:"); auto.
  - destruct (OpenAI.convertChatCompletionsStreamChunkToCompletions _); auto.
Qed.

(** One chunk and a tick, an error, then more chunks and the close. *)
Lemma relay_error_precedence_example :
  OpenAI.handleStreamResult
    ([DataRecv "a"; Tick]
       ++ ErrRecv (Some {| StatusCode := 500; Error := Some "boom" |})
       :: [DataRecv "b"; DataClosed]) =
  ([Write ("data: a" ++ LF ++ LF); Flush;
    WriteErrorResponse {| StatusCode := 500; Error := Some "boom" |}; Flush;
    Cancel [Some "boom"]], true).
Proof.
  exact (proj1 (proj1 (relay_error_precedence
                         [DataRecv "a"; Tick] [DataRecv "b"; DataClosed]
                         {| StatusCode := 500; Error := Some "boom" |}
                         eq_refl))).
Defined.

Lemma for_select_error_case (body : Event -> list Effect * Control) :
  body ErrClosed = ([], Continue) ->
  (forall errMsg,
     body (ErrRecv errMsg) = (report errMsg ++ [Cancel [execErr errMsg]], Return)) ->
  error_case (for_select body).
Proof.
  intros Hclosed Hrecv. repeat split.
  - intros pre post. now apply for_select_skips.
  - intros pre post Hrun. apply for_select_ends_with; [exact Hrun|].
    exact (Hrecv None).
  - intros pre post msg Hrun. apply for_select_ends_with; [exact Hrun|].
    exact (Hrecv (Some msg)).
Qed.

(** C3, as the code has it. A receive that finds the error channel closed
    is ignored and the loop goes on. A message received from it ends the
    loop, nil or not: a non-nil one after the error body is written, with
    cancel called on its error; a nil one with nothing written and cancel
    called on a nil error. *)
Theorem relay_error_channel_cases :
  error_case OpenAI.handleStreamResult
  /\ error_case Responses.forwardResponsesStream
  /\ forall L : OpenAI.Library,
      error_case OpenAI.handleCompletionsStreamingResponse.
Proof.
  split; [|split; [|intros L]]; apply for_select_error_case;
    try reflexivity; intros [msg|]; reflexivity.
Qed.

(** C3 as stated fails: a nil message received from the open error channel
    is not ignored. The relay cancels and returns, and the chunk and the
    termination marker that follow are never written. *)
Lemma relay_nil_error_message_returns :
  OpenAI.handleStreamResult [ErrRecv None; DataRecv "a"; DataClosed]
    = ([Cancel [None]], true)
  /\ OpenAI.handleStreamResult [ErrRecv None; DataRecv "a"; DataClosed]
     <> OpenAI.handleStreamResult [DataRecv "a"; DataClosed]
  /\ Responses.forwardResponsesStream [ErrRecv None; DataRecv "a"; DataClosed]
     <> Responses.forwardResponsesStream [DataRecv "a"; DataClosed].
Proof. repeat split; discriminate. Qed.

(** ** Effort-suffix inference *)

Lemma get_beyond (s : string) (i : nat) :
  String.length s <= i -> String.get i s = None.
Proof.
  revert i. induction s as [|c s IH]; intros i H; [reflexivity|].
  destruct i as [|i]; simpl in *; [lia|]. apply IH. lia.
Qed.

(** A string splits around any of its bytes. *)
Lemma split_around (s : string) (n : nat) (c : ascii) :
  String.get n s = Some c ->
  s = (String.substring 0 n s
         ++ String c (String.substring (n + 1) (String.length s - (n + 1)) s))%string.
Proof.
  revert n. induction s as [|d s IH]; intros n H; [discriminate|].
  destruct n as [|n]; simpl in *.
  - inversion H; subst. f_equal.
    clear. rewrite Nat.sub_0_r.
    induction s as [|e s IH]; [reflexivity|]. simpl. now rewrite <- IH.
  - f_equal. now apply IH.
Qed.

Lemma last_dash_none (model : string) (n : nat) :
  Responses.last_dash model n = (-1)%Z ->
  forall i, i < n -> String.get i model <> Some "-"%char.
Proof.
  induction n as [|n IH]; intros H i Hi; [lia|].
  simpl in H. destruct (String.get n model) as [c|] eqn:Hget.
  - destruct (Ascii.eqb_spec c "-"%char) as [->|Hc]; [lia|].
    destruct (Nat.eq_dec i n) as [->|Hne].
    + rewrite Hget. congruence.
    + apply IH; [exact H|lia].
  - destruct (Nat.eq_dec i n) as [->|Hne].
    + rewrite Hget. discriminate.
    + apply IH; [exact H|lia].
Qed.

Lemma last_dash_some (model : string) (n : nat) :
  Responses.last_dash model n <> (-1)%Z ->
  exists k, Responses.last_dash model n = Z.of_nat k /\ k < n
    /\ String.get k model = Some "-"%char
    /\ forall i, k < i -> i < n -> String.get i model <> Some "-"%char.
Proof.
  induction n as [|n IH]; intros H; simpl in *; [congruence|].
  destruct (String.get n model) as [c|] eqn:Hget.
  - destruct (Ascii.eqb_spec c "-"%char) as [->|Hc].
    + exists n. repeat split; auto. intros i ? ?. lia.
    + destruct (IH H) as (k & Hk & Hlt & Hdash & Hafter).
      exists k. repeat split; auto. intros i ? ?.
      destruct (Nat.eq_dec i n) as [->|Hne]; [rewrite Hget; congruence|].
      apply Hafter; lia.
  - destruct (IH H) as (k & Hk & Hlt & Hdash & Hafter).
    exists k. repeat split; auto. intros i ? ?.
    destruct (Nat.eq_dec i n) as [->|Hne]; [rewrite Hget; discriminate|].
    apply Hafter; lia.
Qed.

(** The scan finds the last dash of the model name. *)
Lemma last_dash_spec (model : string) :
  let idx := Responses.last_dash model (String.length model) in
  (idx = (-1)%Z /\ forall i, String.get i model <> Some "-"%char)
  \/ ((0 <= idx < Z.of_nat (String.length model))%Z
      /\ String.get (Z.to_nat idx) model = Some "-"%char
      /\ forall i, Z.to_nat idx < i -> String.get i model <> Some "-"%char).
Proof.
  cbv zeta.
  destruct (Z.eq_dec (Responses.last_dash model (String.length model)) (-1))
    as [Hnone|Hsome].
  - left. split; [exact Hnone|]. intros i.
    destruct (Nat.lt_ge_cases i (String.length model)) as [Hi|Hi].
    + now apply (last_dash_none _ _ Hnone).
    + rewrite (get_beyond _ _ Hi). discriminate.
  - right. destruct (last_dash_some _ _ Hsome) as (k & -> & Hlt & Hdash & Hafter).
    rewrite Nat2Z.id. repeat split; try lia; [exact Hdash|].
    intros i Hi.
    destruct (Nat.lt_ge_cases i (String.length model)) as [Hi'|Hi'].
    + now apply Hafter.
    + rewrite (get_beyond _ _ Hi'). discriminate.
Qed.

Lemma one_of_In (s : string) (cases : list string) :
  one_of s cases = true <-> In s cases.
Proof.
  unfold one_of. rewrite existsb_exists. split.
  - intros (x & Hx & Heq). apply String.eqb_eq in Heq. now subst.
  - intros H. exists s. split; [exact H|apply String.eqb_refl].
Qed.

Lemma inferEffortFromModel_success (model base effort : string) :
  Responses.inferEffortFromModel model = (base, effort, true) <->
  base = "gpt-5" /\ In effort efforts /\ model = (base ++ "-" ++ effort)%string.
Proof.
  split.
  - unfold Responses.inferEffortFromModel.
    destruct (String.eqb model ""); [discriminate|].
    destruct (last_dash_spec model) as [[Hidx _]|(Hrange & Hdash & _)];
      cbv zeta in *.
    + rewrite Hidx. simpl. discriminate.
    + set (idx := Responses.last_dash model (String.length model)) in *.
      destruct ((idx <=? 0)%Z || _); [discriminate|].
      destruct (one_of _ _) eqn:Hone; [|discriminate].
      destruct (String.eqb_spec (String.substring 0 (Z.to_nat idx) model) "gpt-5")
        as [Hbase|]; [|discriminate].
      intros H. inversion H; subst base effort. clear H.
      split; [exact Hbase|]. split; [now apply one_of_In|].
      exact (split_around _ _ _ Hdash).
  - intros (-> & Hin & ->).
    simpl in Hin. destruct Hin as [<-|[<-|[<-|[<-|[]]]]]; reflexivity.
Qed.

Lemma inferEffortFromModel_failure (model : string) :
  snd (Responses.inferEffortFromModel model) = false ->
  Responses.inferEffortFromModel model = ("", "", false).
Proof.
  unfold Responses.inferEffortFromModel.
  repeat match goal with
         | |- context [if ?b then _ else _] => destruct b
         end; simpl; intros; try reflexivity; discriminate.
Qed.

(** Success, read on the split around the last dash. *)
Lemma inferEffortFromModel_split (model base effort : string) :
  let idx := Responses.last_dash model (String.length model) in
  Responses.inferEffortFromModel model = (base, effort, true) <->
  (0 < idx < Z.of_nat (String.length model) - 1)%Z
  /\ base = String.substring 0 (Z.to_nat idx) model
  /\ effort = String.substring (Z.to_nat idx + 1)
                 (String.length model - (Z.to_nat idx + 1)) model
  /\ base = "gpt-5" /\ In effort efforts.
Proof.
  cbv zeta. unfold Responses.inferEffortFromModel.
  destruct (String.eqb_spec model "") as [->|Hne].
  { simpl. split; [discriminate|]. intros [? _]. lia. }
  set (idx := Responses.last_dash model (String.length model)).
  destruct ((idx <=? 0)%Z || (idx >=? Z.of_nat (String.length model) - 1)%Z)
    eqn:Hrange.
  { split; [discriminate|]. intros [Hin _].
    apply orb_true_iff in Hrange as [H|H];
      [apply Z.leb_le in H|apply Z.geb_le in H]; lia. }
  apply orb_false_iff in Hrange as [Hlo Hhi].
  apply Z.leb_gt in Hlo. rewrite Z.geb_leb in Hhi. apply Z.leb_gt in Hhi.
  destruct (one_of _ _) eqn:Hone.
  - destruct (String.eqb_spec (String.substring 0 (Z.to_nat idx) model) "gpt-5")
      as [Hbase|Hbase].
    + split.
      * intros H. inversion H; subst base effort.
        repeat split; try lia; try assumption. now apply one_of_In.
      * intros (_ & -> & -> & _ & _). reflexivity.
    + split; [discriminate|]. intros (_ & -> & _ & Hb & _). contradiction.
  - split; [discriminate|]. intros (_ & _ & -> & _ & Hin).
    apply one_of_In in Hin. unfold efforts in Hin. congruence.
Qed.

(** C5. [last_dash] is the index of the last dash of the model name, -1
    when there is none. Inference fails when the dash is absent, first or
    last. It succeeds, returning the base and the suffix, exactly when the
    base before the last dash is [gpt-5] and the suffix after it is one of
    minimal, low, medium, high, that is when the model name is [gpt-5-]
    followed by one of these; every failure returns empty strings. So
    [gpt-5-high] gives [(gpt-5, high, true)], and [gpt-5-extreme], [gpt-5],
    [-high] and [gpt-4-high] fail. *)
Theorem inferEffortFromModel_exact (model : string) :
  let idx := Responses.last_dash model (String.length model) in
  let len := Z.of_nat (String.length model) in
  ((idx = (-1)%Z /\ forall i, String.get i model <> Some "-"%char)
   \/ ((0 <= idx < len)%Z
       /\ String.get (Z.to_nat idx) model = Some "-"%char
       /\ forall i, Z.to_nat idx < i -> String.get i model <> Some "-"%char))
  /\ (idx = (-1)%Z \/ idx = 0%Z \/ idx = (len - 1)%Z ->
      Responses.inferEffortFromModel model = ("", "", false))
  /\ (forall base effort,
        Responses.inferEffortFromModel model = (base, effort, true) <->
        (0 < idx < len - 1)%Z
        /\ base = String.substring 0 (Z.to_nat idx) model
        /\ effort = String.substring (Z.to_nat idx + 1)
                       (String.length model - (Z.to_nat idx + 1)) model
        /\ base = "gpt-5" /\ In effort efforts)
  /\ (forall base effort,
        Responses.inferEffortFromModel model = (base, effort, true) <->
        base = "gpt-5" /\ In effort efforts
        /\ model = (base ++ "-" ++ effort)%string)
  /\ (snd (Responses.inferEffortFromModel model) = false ->
      Responses.inferEffortFromModel model = ("", "", false))
  /\ Responses.inferEffortFromModel "gpt-5-high" = ("gpt-5", "high", true)
  /\ Responses.inferEffortFromModel "gpt-5-extreme" = ("", "", false)
  /\ Responses.inferEffortFromModel "gpt-5" = ("", "", false)
  /\ Responses.inferEffortFromModel "-high" = ("", "", false)
  /\ Responses.inferEffortFromModel "gpt-4-high" = ("", "", false).
Proof.
  cbv zeta. split; [exact (last_dash_spec model)|].
  split.
  { intros H. unfold Responses.inferEffortFromModel.
    destruct (String.eqb model ""); [reflexivity|].
    replace ((_ <=? 0)%Z || (_ >=? _)%Z) with true; [reflexivity|].
    symmetry. apply orb_true_iff.
    destruct H as [H|[H|H]]; rewrite H.
    - now left.
    - now left.
    - right. apply Z.geb_le. lia. }
  split; [intros base effort; apply inferEffortFromModel_split|].
  split; [intros base effort; apply inferEffortFromModel_success|].
  split; [apply inferEffortFromModel_failure|].
  repeat split.
Qed.

(** ** Go maps *)

Lemma map_get_set (key k : string) (v : json) (m : list (string * json)) :
  map_get key (map_set k v m) =
  if String.eqb k key then Some v else map_get key m.
Proof.
  induction m as [|[k0 v0] m IH]; simpl.
  - destruct (String.eqb_spec k key); reflexivity.
  - destruct (String.eqb_spec k0 k) as [->|Hk0]; simpl.
    + destruct (String.eqb_spec k key); reflexivity.
    + rewrite IH.
      destruct (String.eqb_spec k0 key) as [->|]; [|reflexivity].
      destruct (String.eqb_spec k key); [congruence|reflexivity].
Qed.

Lemma map_get_if_set (key k : string) (b : bool) (v : json)
  (m : list (string * json)) :
  String.eqb k key = false ->
  map_get key (if b then map_set k v m else m) = map_get key m.
Proof. intros Hk. destruct b; [|reflexivity]. now rewrite map_get_set, Hk. Qed.

(** ** The Completions adapters *)
Section AdapterProperties.

Context {L : OpenAI.Library}.

Import OpenAI.

Lemma gjson_Get_None (key : string) : gjson_Get None key = None.
Proof. reflexivity. Qed.

Lemma neq_eqb (a b : string) : negb (String.eqb a b) = true <-> a <> b.
Proof.
  destruct (String.eqb_spec a b); simpl; split; congruence.
Qed.

Lemma content_test (choice : json) :
  let delta := gjson_Get (Some choice) "delta" in
  let content := gjson_Get delta "content" in
  gjson_Exists delta && gjson_Exists content
    && negb (String.eqb (gjson_String content) "") = true <->
  exists c, gjson_Get (gjson_Get (Some choice) "delta") "content" = Some c
            /\ gjson_String (Some c) <> "".
Proof.
  cbv zeta.
  destruct (gjson_Get (Some choice) "delta") as [delta|].
  - destruct (gjson_Get (Some delta) "content") as [c|].
    + cbn [gjson_Exists andb]. rewrite neq_eqb. split.
      * intros H. now exists c.
      * intros (c' & Hc & Hn). now inversion Hc; subst.
    + cbn [gjson_Exists andb]. split; [discriminate|].
      intros (c' & Hc & _). discriminate.
  - rewrite gjson_Get_None. cbn [gjson_Exists andb]. split; [discriminate|].
    intros (c' & Hc & _). discriminate.
Qed.

Lemma finish_reason_test (choice : json) :
  let finishReason := gjson_Get (Some choice) "finish_reason" in
  gjson_Exists finishReason
    && negb (String.eqb (gjson_String finishReason) "")
    && negb (String.eqb (gjson_String finishReason) "null") = true <->
  exists reason, gjson_Get (Some choice) "finish_reason" = Some reason
                 /\ gjson_String (Some reason) <> ""
                 /\ gjson_String (Some reason) <> "null".
Proof.
  cbv zeta.
  destruct (gjson_Get (Some choice) "finish_reason") as [reason|].
  - cbn [gjson_Exists andb]. rewrite andb_true_iff, !neq_eqb. split.
    + intros [H1 H2]. now exists reason.
    + intros (r & Hr & H1 & H2). now inversion Hr; subst.
  - cbn [gjson_Exists andb]. split; [discriminate|].
    intros (r & Hr & _). discriminate.
Qed.

Lemma has_content_iterator_spec (hasContent : bool) (choice : json) :
  (carries_content choice /\ has_content_iterator hasContent choice = (true, false))
  \/ (~ carries_content choice
      /\ has_content_iterator hasContent choice = (hasContent, true)).
Proof.
  unfold has_content_iterator, carries_content. cbv zeta.
  pose proof (content_test choice) as Hc.
  pose proof (finish_reason_test choice) as Hf. cbv zeta in Hc, Hf.
  destruct (gjson_Exists (gjson_Get (Some choice) "delta") && _ && _).
  - left. split; [|reflexivity]. left. now apply Hc.
  - destruct (gjson_Exists (gjson_Get (Some choice) "finish_reason") && _ && _).
    + left. split; [|reflexivity]. right. now apply Hf.
    + right. split; [|reflexivity].
      intros [H|H]; [apply Hc in H|apply Hf in H]; discriminate.
Qed.

(** The first loop leaves [hasContent] set exactly when some choice
    carries content. *)
Lemma has_content_loop (items : list json) :
  gjson_ForEach items has_content_iterator false = true <->
  exists choice, In choice items /\ carries_content choice.
Proof.
  induction items as [|choice rest IH]; simpl.
  - split; [discriminate|]. intros (c & [] & _).
  - destruct (has_content_iterator_spec false choice) as [[Hc ->]|[Hc ->]].
    + split; [|reflexivity]. intros _. exists choice. auto.
    + rewrite IH. split.
      * intros (c & Hin & Hcc). exists c. auto.
      * intros (c & [<-|Hin] & Hcc); [contradiction|]. exists c. auto.
Qed.

Lemma choices_loop (items acc : list json) :
  gjson_ForEach items choices_iterator acc =
  (acc ++ map completions_stream_choice items)%list.
Proof.
  revert acc. induction items as [|choice rest IH]; intros acc; simpl.
  - now rewrite app_nil_r.
  - rewrite IH. now rewrite <- app_assoc.
Qed.

Lemma for_each_choices {S : Type} (chatChoices : Result)
  (iterator : S -> json -> S * bool) (init : S) :
  (if gjson_Exists chatChoices && gjson_IsArray chatChoices
   then gjson_ForEach (gjson_Array chatChoices) iterator init
   else init) = gjson_ForEach (gjson_Array chatChoices) iterator init.
Proof. now destruct chatChoices as [[]|]. Qed.

(** A key without dots is a path of one component. *)
Lemma sjson_Set_key (fields : list (string * json)) (key : string) (v : json) :
  split_dots key EmptyString = [key] ->
  sjson_Set (JObject fields) key v = JObject (map_set key v fields).
Proof. unfold sjson_Set. now intros ->. Qed.

Lemma copy_field_key (root : Result) (key : string) (f : Result -> json)
  (fields : list (string * json)) :
  split_dots key EmptyString = [key] ->
  copy_field root key f (JObject fields) =
  JObject ((if gjson_Exists (gjson_Get root key)
            then map_set key (f (gjson_Get root key))
            else fun m => m) fields).
Proof.
  intros Hkey. unfold copy_field. cbv zeta.
  destruct (gjson_Exists _); [|reflexivity]. now apply sjson_Set_key.
Qed.

Lemma gjson_Get_object (fields : list (string * json)) (key : string) :
  gjson_Get (Some (JObject fields)) key = map_get key fields.
Proof. reflexivity. Qed.

Lemma text_of_stream_choice (choice : json) :
  gjson_Get (Some (completions_stream_choice choice)) "text" =
  Some (JString (choice_text choice)).
Proof.
  unfold completions_stream_choice, choice_text. cbv zeta.
  rewrite gjson_Get_object.
  rewrite !map_get_if_set by reflexivity.
  set (delta := gjson_Get (Some choice) "delta").
  set (content := gjson_Get delta "content").
  assert (Hdefault : gjson_Exists content = false -> gjson_String content = "").
  { now destruct content. }
  destruct (gjson_Exists delta) eqn:Hdelta.
  - destruct (gjson_Exists content) eqn:Hcontent; cbn [andb].
    + destruct (String.eqb_spec (gjson_String content) "") as [He|Hne];
        cbn [negb]; rewrite map_get_set; cbn [String.eqb Ascii.eqb Bool.eqb];
        [now rewrite He|reflexivity].
    + rewrite map_get_set, Hdefault by reflexivity. reflexivity.
  - rewrite map_get_set. cbn [String.eqb Ascii.eqb Bool.eqb].
    rewrite Hdefault; [reflexivity|].
    subst content. destruct delta; [discriminate|reflexivity].
Qed.

(** C6. The converter returns the skip sentinel exactly when no choice of
    the chunk carries a non-empty [delta.content] or a [finish_reason] that
    is neither null nor empty. A forwarded chunk has one output choice per
    input choice, in order, each with a [text] key holding [delta.content],
    the empty string when it is absent. A chunk with an empty delta and no
    [finish_reason] is skipped; one with an empty delta and [finish_reason]
    [stop] gives a choice with text [""] and [finish_reason] [stop]. *)
Theorem stream_chunk_filter (chunkData : json) :
  (convertChatCompletionsStreamChunkToCompletions chunkData = None <->
   forall choice, In choice (chat_choices chunkData) -> ~ carries_content choice)
  /\ (forall out,
        convertChatCompletionsStreamChunkToCompletions chunkData = Some out ->
        gjson_Get (Some out) "choices" =
          Some (JArray (map completions_stream_choice (chat_choices chunkData)))
        /\ forall c, In c (gjson_Array (gjson_Get (Some out) "choices")) ->
             exists text, gjson_Get (Some c) "text" = Some (JString text))
  /\ (forall choice,
        gjson_Get (Some (completions_stream_choice choice)) "text" =
          Some (JString (choice_text choice))
        /\ (gjson_Get (gjson_Get (Some choice) "delta") "content" = None ->
            gjson_Get (Some (completions_stream_choice choice)) "text" =
              Some (JString "")))
  /\ convertChatCompletionsStreamChunkToCompletions
       (JObject [("choices", JArray [JObject [("delta", JObject [])]])]) = None
  /\ (exists out,
        convertChatCompletionsStreamChunkToCompletions
          (JObject [("choices",
                     JArray [JObject [("delta", JObject []);
                                      ("finish_reason", JString "stop")]])])
          = Some out
        /\ gjson_Get (Some out) "choices" =
           Some (JArray [JObject [("index", JNumber "0");
                                  ("text", JString "");
                                  ("finish_reason", JString "stop")]])).
Proof.
  assert (Hskip :
    convertChatCompletionsStreamChunkToCompletions chunkData = None <->
    gjson_ForEach (chat_choices chunkData) has_content_iterator false = false).
  { unfold convertChatCompletionsStreamChunkToCompletions. cbv zeta.
    rewrite for_each_choices. fold (chat_choices chunkData).
    destruct (gjson_ForEach (chat_choices chunkData) has_content_iterator false);
      simpl; split; congruence. }
  split; [|split; [|split; [|split]]].
  - rewrite Hskip, <- not_true_iff_false, has_content_loop. split.
    + intros Hno choice Hin Hc. apply Hno. now exists choice.
    + intros Hno (choice & Hin & Hc). exact (Hno choice Hin Hc).
  - intros out Hout.
    assert (Hsome :
      gjson_ForEach (chat_choices chunkData) has_content_iterator false = true).
    { apply not_false_iff_true. intros Hf. apply Hskip in Hf. congruence. }
    apply has_content_loop in Hsome as (choice & Hin & _).
    assert (Hget : gjson_Get (Some out) "choices" =
                  Some (JArray (map completions_stream_choice
                                  (chat_choices chunkData)))).
    { revert Hout.
      unfold convertChatCompletionsStreamChunkToCompletions. cbv zeta.
      rewrite !for_each_choices. fold (chat_choices chunkData).
      rewrite choices_loop. cbn [app].
      destruct (negb _); [discriminate|].
      destruct (chat_choices chunkData) as [|c0 rest]; [contradiction|].
      cbn [map]. unfold completions_template.
      rewrite !copy_field_key by reflexivity.
      intros Hout. inversion Hout; subst out. clear Hout.
      rewrite sjson_Set_key by reflexivity.
      cbn [gjson_Get]. rewrite map_get_set. reflexivity. }
    split; [exact Hget|].
    rewrite Hget. cbn [gjson_Array]. intros c Hc.
    apply in_map_iff in Hc as (choice' & <- & _).
    exists (choice_text choice'). apply text_of_stream_choice.
  - intros choice. split; [apply text_of_stream_choice|].
    intros Habsent. rewrite text_of_stream_choice.
    unfold choice_text. now rewrite Habsent.
  - reflexivity.
  - eexists. split; reflexivity.
Qed.

Lemma map_get_copied (key k : string) (b : bool) (v : json)
  (fields : list (string * json)) :
  map_get key ((if b then map_set k v else fun m => m) fields) <> None <->
  (k = key /\ b = true) \/ map_get key fields <> None.
Proof.
  destruct b.
  - rewrite map_get_set. destruct (String.eqb_spec k key); split; intros H.
    + left. auto.
    + discriminate.
    + now right.
    + destruct H as [[? _]|H]; [contradiction|exact H].
  - split; [now right|]. intros [[_ ?]|H]; [discriminate|exact H].
Qed.

Lemma exists_not_none (r : Result) : gjson_Exists r = true <-> r <> None.
Proof. destruct r; simpl; split; congruence. Qed.

(** C8, as the code has it. The converted request is an object whose keys
    are [model], [messages] and those of the copied parameters that the
    request carries: any other top-level field of the request is left
    out. *)
Theorem completions_request_keys (rawJSON : json) :
  exists fields,
    convertCompletionsRequestToChatCompletions rawJSON = JObject fields
    /\ (forall key,
          map_get key fields <> None <->
          key = "model" \/ key = "messages"
          \/ (In key copied_parameters
              /\ gjson_Get (Some rawJSON) key <> None))
    /\ (forall key,
          ~ In key ("model" :: "messages" :: copied_parameters) ->
          map_get key fields = None).
Proof.
  assert (Hshape : exists fields,
    convertCompletionsRequestToChatCompletions rawJSON = JObject fields
    /\ forall key,
         map_get key fields <> None <->
         key = "model" \/ key = "messages"
         \/ (In key copied_parameters
             /\ gjson_Get (Some rawJSON) key <> None)).
  { unfold convertCompletionsRequestToChatCompletions. cbv zeta.
    unfold chat_template.
    rewrite (copy_field_key _ "model") by reflexivity.
    set (prompt := if String.eqb _ "" then _ else _).
    assert (Hmsg : forall m,
      sjson_Set
        (JObject ((if gjson_Exists (gjson_Get (Some rawJSON) "model")
                   then map_set "model" m
                   else fun m => m)
                    [("model", JString "");
                     ("messages",
                      JArray [JObject [("role", JString "user");
                                       ("content", JString "")]])]))
        "messages.0.content" (JString prompt) =
      JObject [("model", if gjson_Exists (gjson_Get (Some rawJSON) "model")
                         then m else JString "");
               ("messages",
                JArray [JObject [("role", JString "user");
                                 ("content", JString prompt)]])]).
    { intros m. now destruct (gjson_Exists _). }
    rewrite Hmsg. clear Hmsg.
    rewrite !copy_field_key by reflexivity.
    eexists. split; [reflexivity|].
    intros key. rewrite !map_get_copied, !exists_not_none.
    unfold copied_parameters. cbn [In map_get].
    destruct (String.eqb_spec "model" key) as [<-|Hmodel].
    { split; [auto|]. intros _. repeat right. discriminate. }
    destruct (String.eqb_spec "messages" key) as [<-|Hmessages].
    { split; [auto|]. intros _. repeat right. discriminate. }
    split.
    - intros H. right. right.
      repeat (destruct H as [[<- H]|H]; [split; [tauto|exact H]|]).
      congruence.
    - intros [H|[H|[Hin Hex]]]; [congruence|congruence|].
      repeat (destruct Hin as [<-|Hin]; [tauto|]). contradiction. }
  destruct Hshape as (fields & Heq & Hkeys).
  exists fields. split; [exact Heq|]. split; [exact Hkeys|].
  intros key Hout. destruct (map_get key fields) eqn:Hget; [|reflexivity].
  exfalso. apply Hout.
  assert (Hsome : map_get key fields <> None) by congruence.
  apply Hkeys in Hsome as [->|[->|[Hin _]]]; simpl; auto.
Qed.

End AdapterProperties.

(** C8 as stated fails, whatever gjson and sjson compute: a [user] field of
    a legacy request is not in the converted request. *)
Lemma completions_request_drops_unknown_field :
  ~ exists L : OpenAI.Library,
      OpenAI.gjson_Get
        (Some (OpenAI.convertCompletionsRequestToChatCompletions
                 (JObject [("prompt", JString "hi"); ("user", JString "u1")])))
        "user"
      = Some (JString "u1").
Proof. intros [L H]. discriminate. Qed.

(** ** The schema sanitizer *)

Import Gemini.

Lemma fold_left_sanitize_entry_app (rec : json -> json)
  (pre post : list (string * json)) (cleaned : list (string * json)) :
  fold_left (sanitize_entry rec) (pre ++ post) cleaned =
  fold_left (sanitize_entry rec) post (fold_left (sanitize_entry rec) pre cleaned).
Proof. apply fold_left_app. Qed.

(** In a map, a key has one value. *)
Lemma NoDup_keys_value (v : list (string * json)) (key : string) (val val' : json) :
  NoDup (keys v) -> In (key, val) v -> In (key, val') v -> val = val'.
Proof.
  induction v as [|[k0 v0] v IH]; simpl; [contradiction|].
  intros Hnd H1 H2. inversion Hnd as [|? ? Hnotin Hnd']; subst.
  destruct H1 as [H1|H1], H2 as [H2|H2].
  - congruence.
  - inversion H1; subst. exfalso. apply Hnotin.
    apply in_map_iff. now exists (key, val').
  - inversion H2; subst. exfalso. apply Hnotin.
    apply in_map_iff. now exists (key, val).
  - now apply IH.
Qed.

(** A null value leaves the cleaned map as it is, whatever its key. *)
Lemma sanitize_entry_null (rec : json -> json)
  (cleaned : list (string * json)) (key : string) :
  rec JNull = JNull -> sanitize_entry rec cleaned (key, JNull) = cleaned.
Proof.
  intros Hrec. unfold sanitize_entry, set_unless_nil. cbv zeta. cbn [fst snd].
  rewrite Hrec. split_switch; reflexivity.
Qed.

(** An entry writes at most its own key or, for a [const], the key [enum]. *)
Lemma sanitize_entry_writes (rec : json -> json)
  (cleaned : list (string * json)) (entry : string * json) :
  sanitize_entry rec cleaned entry = cleaned
  \/ (exists val, sanitize_entry rec cleaned entry = map_set (fst entry) val cleaned
                  /\ one_of (ToLower (fst entry)) removed_keywords = false
                  /\ one_of (ToLower (fst entry)) ["nullable"] = false
                  /\ one_of (ToLower (fst entry)) ["const"] = false)
  \/ (sanitize_entry rec cleaned entry = map_set "enum" (JArray [snd entry]) cleaned
      /\ one_of (ToLower (fst entry)) ["const"] = true
      /\ snd entry <> JNull).
Proof.
  destruct entry as [key val]. unfold sanitize_entry, set_unless_nil.
  cbv zeta. cbn [fst snd]. split_switch; auto.
  - destruct val; cbn [is_null]; auto;
      right; right; repeat split; congruence.
  - destruct val as [| | |typed|typed|]; auto;
      [destruct (String.eqb _ "")|destruct (first_normalized typed)];
      auto; right; left; eexists; repeat split; reflexivity.
  - destruct (sanitizeGeminiEnum val); auto.
    right; left; eexists; repeat split; reflexivity.
  - destruct (sanitizeGeminiRequired val); auto.
    right; left; eexists; repeat split; reflexivity.
  - destruct val; auto.
    right; left; eexists; repeat split; reflexivity.
  - destruct (is_null (rec val)); auto.
    right; left; eexists; repeat split; reflexivity.
  - destruct val as [|[|]| | | |]; auto.
    right; left; eexists; repeat split; reflexivity.
  - destruct (is_null (rec val)); auto.
    right; left; eexists; repeat split; reflexivity.
Qed.

Lemma sanitize_entry_other_key (rec : json -> json)
  (cleaned : list (string * json)) (entry : string * json) (key : string) :
  key <> fst entry -> key <> "enum" ->
  map_get key (sanitize_entry rec cleaned entry) = map_get key cleaned.
Proof.
  intros Hkey Henum.
  destruct (sanitize_entry_writes rec cleaned entry)
    as [->|[(val & -> & _)|(-> & _)]]; [reflexivity| |];
    rewrite map_get_set.
  - destruct (String.eqb_spec (fst entry) key); [congruence|reflexivity].
  - destruct (String.eqb_spec "enum" key); [congruence|reflexivity].
Qed.

Lemma sanitize_fold_drops_null (rec : json -> json)
  (v cleaned : list (string * json)) (key : string) :
  rec JNull = JNull -> key <> "enum" ->
  (forall val, In (key, val) v -> val = JNull) ->
  map_get key (fold_left (sanitize_entry rec) v cleaned) = map_get key cleaned.
Proof.
  intros Hrec Henum. revert cleaned.
  induction v as [|[k0 v0] v IH]; intros cleaned Hnull; [reflexivity|].
  cbn [fold_left]. rewrite IH by (intros val Hin; apply Hnull; now right).
  destruct (String.eqb_spec key k0) as [->|Hne].
  - rewrite (Hnull v0) by now left. now rewrite sanitize_entry_null.
  - now apply sanitize_entry_other_key.
Qed.

Lemma sanitizeGeminiEnum_keeps_null (items : list json) :
  filter is_null (sanitizeGeminiEnum (JArray items)) = filter is_null items.
Proof.
  cbn [sanitizeGeminiEnum].
  induction items as [|item items IH]; [reflexivity|].
  cbn [filter]. destruct item; cbn [is_scalar is_null filter]; now rewrite ?IH.
Qed.

(** C10. In an object node, a key outside the keywords the switch handles
    whose value is null is absent from the sanitized node; so
    [{"foo": null}] becomes [{}]. The null entries of an [enum] list are
    all kept. *)
Theorem sanitize_drops_null_values
  (v : list (string * json)) (key : string) :
  NoDup (keys v) ->
  In (key, JNull) v ->
  one_of (ToLower key) handled_keywords = false ->
  (exists cleaned,
      sanitizeGeminiSchema (JObject v) = JObject cleaned
      /\ map_get key cleaned = None)
  /\ sanitizeGeminiSchema (JObject [("foo", JNull)]) = JObject []
  /\ (forall items,
        filter is_null (sanitizeGeminiEnum (JArray items)) = filter is_null items)
  /\ sanitizeGeminiSchema (JObject [("enum", JArray [JNull; JString "a"])])
     = JObject [("enum", JArray [JNull; JString "a"])].
Proof.
  intros Hnd Hin Hkey.
  split; [|split; [reflexivity|split; [|reflexivity]]];
    [|apply sanitizeGeminiEnum_keeps_null].
  eexists. split; [reflexivity|].
  rewrite sanitize_fold_drops_null; [reflexivity|reflexivity| |].
  - intros ->. discriminate.
  - intros val Hval. exact (NoDup_keys_value _ _ _ _ Hnd Hval Hin).
Qed.

(** A node with a null-valued key beside an ordinary one. *)
Lemma sanitize_drops_null_values_example :
  exists cleaned,
    sanitizeGeminiSchema
      (JObject [("title", JString "t"); ("foo", JNull)]) = JObject cleaned
    /\ map_get "foo" cleaned = None.
Proof.
  refine (proj1 (sanitize_drops_null_values
                   [("title", JString "t"); ("foo", JNull)] "foo" _ _ _)).
  - repeat constructor; simpl; intuition discriminate.
  - simpl. auto.
  - reflexivity.
Defined.

Lemma const_case (s : string) : one_of s ["const"] = true <-> s = "const".
Proof.
  rewrite one_of_In. simpl. split; [intros [H|[]]; now symmetry|auto].
Qed.

(** No key that reads [const] in lower case is ever written. *)
Lemma sanitize_fold_no_const (rec : json -> json)
  (v cleaned : list (string * json)) (k : string) :
  ToLower k = "const" ->
  map_get k (fold_left (sanitize_entry rec) v cleaned) = map_get k cleaned.
Proof.
  intros Hk. revert cleaned.
  induction v as [|entry v IH]; intros cleaned; [reflexivity|].
  cbn [fold_left]. rewrite IH.
  destruct (sanitize_entry_writes rec cleaned entry)
    as [->|[(val & -> & _ & _ & Hconst)|(-> & _)]]; [reflexivity| |];
    rewrite map_get_set.
  - destruct (String.eqb_spec (fst entry) k) as [He|]; [|reflexivity].
    rewrite He in Hconst. apply const_case in Hk. congruence.
  - destruct (String.eqb_spec "enum" k) as [<-|]; [discriminate|reflexivity].
Qed.

(** Entries that are neither a [const] nor the key [enum] leave the [enum]
    slot alone. *)
Lemma sanitize_fold_keeps_enum (rec : json -> json)
  (v cleaned : list (string * json)) :
  (forall k' v', In (k', v') v -> ToLower k' <> "const" /\ k' <> "enum") ->
  map_get "enum" (fold_left (sanitize_entry rec) v cleaned) = map_get "enum" cleaned.
Proof.
  revert cleaned.
  induction v as [|[k0 v0] v IH]; intros cleaned Hothers; [reflexivity|].
  cbn [fold_left].
  rewrite IH by (intros k' v' Hin; apply (Hothers k' v'); now right).
  destruct (Hothers k0 v0 (or_introl eq_refl)) as [Hconst Henum].
  destruct (sanitize_entry_writes rec cleaned (k0, v0))
    as [->|[(val & -> & _)|(_ & Hc & _)]]; [reflexivity| |].
  - rewrite map_get_set. cbn [fst].
    destruct (String.eqb_spec k0 "enum"); [contradiction|reflexivity].
  - apply const_case in Hc. contradiction.
Qed.

Lemma sanitize_entry_const (rec : json -> json)
  (cleaned : list (string * json)) (key : string) (val : json) :
  ToLower key = "const" ->
  sanitize_entry rec cleaned (key, val) =
  if is_null val then cleaned else map_set "enum" (JArray [val]) cleaned.
Proof.
  intros Hkey. unfold sanitize_entry. cbv zeta. cbn [fst snd].
  now rewrite Hkey.
Qed.

Lemma NoDup_keys_split (pre post : list (string * json)) (key : string)
  (val : json) :
  NoDup (keys (pre ++ (key, val) :: post)) ->
  forall k' v', In (k', v') (pre ++ post) -> k' <> key.
Proof.
  unfold keys. rewrite map_app. cbn [map fst]. intros Hnd k' v' Hin ->.
  apply NoDup_remove_2 in Hnd. apply Hnd.
  rewrite <- map_app. apply in_map_iff. now exists (key, v').
Qed.

(** C7, as the code has it. In an object node where one key reads [const]
    in lower case and no other entry competes for the [enum] slot (no other
    [const], no key [enum]), the sanitized node has no [const] key; it has
    [enum] with the single-element list of the value when the value is not
    null, and no [enum] when the value is null. *)
Theorem const_rewritten_to_enum
  (v : list (string * json)) (key : string) (val : json) :
  NoDup (keys v) ->
  In (key, val) v ->
  ToLower key = "const" ->
  (forall k' v', In (k', v') v -> k' <> key ->
                 ToLower k' <> "const" /\ k' <> "enum") ->
  exists cleaned,
    sanitizeGeminiSchema (JObject v) = JObject cleaned
    /\ (forall k, ToLower k = "const" -> map_get k cleaned = None)
    /\ (val <> JNull -> map_get "enum" cleaned = Some (JArray [val]))
    /\ (val = JNull -> map_get "enum" cleaned = None).
Proof.
  intros Hnd Hin Hkey Hothers.
  eexists. split; [reflexivity|]. split.
  { intros k Hk. now rewrite sanitize_fold_no_const. }
  apply in_split in Hin as (pre & post & ->).
  pose proof (NoDup_keys_split _ _ _ _ Hnd) as Hne.
  assert (Hpre : forall k' v', In (k', v') pre ->
                               ToLower k' <> "const" /\ k' <> "enum").
  { intros k' v' Hin. apply (Hothers k' v').
    - apply in_or_app. now left.
    - apply (Hne k' v'). apply in_or_app. now left. }
  assert (Hpost : forall k' v', In (k', v') post ->
                                ToLower k' <> "const" /\ k' <> "enum").
  { intros k' v' Hin. apply (Hothers k' v').
    - apply in_or_app. right. now right.
    - apply (Hne k' v'). apply in_or_app. now right. }
  rewrite fold_left_sanitize_entry_app. cbn [fold_left].
  rewrite (sanitize_fold_keeps_enum _ post) by exact Hpost.
  rewrite sanitize_entry_const by exact Hkey.
  split.
  - intros Hval. destruct val; try congruence; cbn [is_null];
      rewrite map_get_set; reflexivity.
  - intros ->. cbn [is_null].
    now rewrite (sanitize_fold_keeps_enum _ pre) by exact Hpre.
Qed.

(** A string constant beside a type. *)
Lemma const_rewritten_to_enum_example :
  exists cleaned,
    sanitizeGeminiSchema
      (JObject [("type", JString "string"); ("Const", JString "a")])
    = JObject cleaned
    /\ map_get "Const" cleaned = None
    /\ map_get "enum" cleaned = Some (JArray [JString "a"]).
Proof.
  destruct (const_rewritten_to_enum
              [("type", JString "string"); ("Const", JString "a")]
              "Const" (JString "a")) as (cleaned & Heq & Hno & Hset & _).
  - repeat constructor; simpl; intuition discriminate.
  - simpl. auto.
  - reflexivity.
  - intros k' v' [H|[H|[]]] Hne; inversion H; subst;
      [split; discriminate|congruence].
  - exists cleaned. split; [exact Heq|]. split.
    + now apply Hno.
    + apply Hset. discriminate.
Defined.

(** C7 as stated fails: a [const] whose value is null is removed without
    an [enum] in its place. *)
Lemma const_null_gives_no_enum :
  exists cleaned,
    sanitizeGeminiSchema (JObject [("const", JNull)]) = JObject cleaned
    /\ map_get "enum" cleaned <> Some (JArray [JNull]).
Proof. exists []. split; [reflexivity|discriminate]. Qed.

(** With a [const] and an [enum] in one node, the order in which [range]
    visits them decides which of the two fills the [enum] slot. *)
Lemma const_and_enum_compete :
  sanitizeGeminiSchema
    (JObject [("const", JNumber "1"); ("enum", JArray [JNumber "2"])])
  = JObject [("enum", JArray [JNumber "2"])]
  /\ sanitizeGeminiSchema
       (JObject [("enum", JArray [JNumber "2"]); ("const", JNumber "1")])
     = JObject [("enum", JArray [JNumber "1"])].
Proof. split; reflexivity. Qed.

(** C4 at its failing input [{"const": {"a": 1}}]: the first pass turns the
    constant into an [enum] holding the object, which the [enum] filter of
    the second pass rejects, so the second pass gives [{}]. *)
Theorem sanitize_twice_differs :
  let schema := JObject [("const", JObject [("a", JNumber "1")])] in
  sanitizeGeminiSchema schema
    = JObject [("enum", JArray [JObject [("a", JNumber "1")]])]
  /\ sanitizeGeminiSchema (sanitizeGeminiSchema schema) = JObject []
  /\ sanitizeGeminiSchema (sanitizeGeminiSchema schema)
     <> sanitizeGeminiSchema schema.
Proof. cbv zeta. repeat split. discriminate. Qed.

(** *** [SanitizeSchemaForGemini] *)

Lemma leadingSpace_rune (rune rest : list ascii) :
  In rune space_runes ->
  leadingSpace (rune ++ rest) = Some rest /\ 1 <= length rune.
Proof.
  intros Hin. cbv [space_runes map app] in Hin.
  repeat (destruct Hin as [<-|Hin]; [split; [reflexivity|simpl; lia]|]).
  contradiction.
Qed.

Lemma trimLeft_whitespace (s : list ascii) (fuel : nat) :
  whitespace_only s -> length s <= fuel ->
  dropWhileSome leadingSpace fuel s = [].
Proof.
  intros Hws. revert fuel.
  induction Hws as [|rune rest Hin Hrest IH]; intros fuel Hfuel.
  - destruct fuel; reflexivity.
  - destruct (leadingSpace_rune rune rest Hin) as [Hlead Hlen].
    rewrite length_app in Hfuel.
    destruct fuel as [|fuel]; [lia|].
    cbn [dropWhileSome]. rewrite Hlead. apply IH. lia.
Qed.

Lemma TrimSpace_whitespace (raw : string) :
  whitespace_only (list_ascii_of_string raw) -> TrimSpace raw = "".
Proof.
  intros Hws. unfold TrimSpace, trimLeft.
  now rewrite (trimLeft_whitespace _ _ Hws (Nat.le_refl _)).
Qed.

Section SanitizeProperties.

Variable Unmarshal : string -> json + error.
Variable Marshal : json -> string + error.

(** An empty or white-space-only schema is the empty object, with no
    error. *)
Lemma SanitizeSchemaForGemini_blank (raw : string) :
  whitespace_only (list_ascii_of_string raw) ->
  SanitizeSchemaForGemini Unmarshal Marshal raw = ("{}", None).
Proof.
  intros Hws. unfold SanitizeSchemaForGemini.
  now rewrite (TrimSpace_whitespace _ Hws).
Qed.

(** C9, with its failing inputs. An empty or white-space-only schema gives
    [{}] and no error. When decoding fails, what comes back with the error
    is the schema with its leading and trailing white space trimmed, which
    is not the original string whenever there was any to trim. *)
Theorem SanitizeSchemaForGemini_fallbacks (raw : string) :
  (whitespace_only (list_ascii_of_string raw) ->
   SanitizeSchemaForGemini Unmarshal Marshal raw = ("{}", None))
  /\ (forall err,
        TrimSpace raw <> "" ->
        Unmarshal (TrimSpace raw) = inr err ->
        SanitizeSchemaForGemini Unmarshal Marshal raw = (TrimSpace raw, Some err)
        /\ (TrimSpace raw <> raw ->
            fst (SanitizeSchemaForGemini Unmarshal Marshal raw) <> raw)).
Proof.
  split; [apply SanitizeSchemaForGemini_blank|].
  intros err Hne Herr.
  assert (Heq : SanitizeSchemaForGemini Unmarshal Marshal raw
                = (TrimSpace raw, Some err)).
  { unfold SanitizeSchemaForGemini.
    destruct (String.eqb_spec (TrimSpace raw) ""); [contradiction|].
    now rewrite Herr. }
  split; [exact Heq|]. now rewrite Heq.
Qed.

End SanitizeProperties.

(** A schema cut short, with a space before it: the space is lost. *)
Lemma SanitizeSchemaForGemini_fallbacks_example :
  SanitizeSchemaForGemini
    (fun _ => inr "unexpected end of JSON input") (fun _ => inl "{}") " {"
  = ("{", Some "unexpected end of JSON input")
  /\ fst (SanitizeSchemaForGemini
            (fun _ => inr "unexpected end of JSON input") (fun _ => inl "{}")
            " {") <> " {".
Proof.
  destruct (proj2 (SanitizeSchemaForGemini_fallbacks
                     (fun _ => inr "unexpected end of JSON input")
                     (fun _ => inl "{}") " {")
              "unexpected end of JSON input")
    as [Heq Hdiff].
  - discriminate.
  - reflexivity.
  - split; [exact Heq|]. apply Hdiff. discriminate.
Defined.

(** ** [strings.TrimSpace] is idempotent *)

Section DropWhileSome.

Variable next : list ascii -> option (list ascii).

Hypothesis next_shorter :
  forall s r, next s = Some r -> length r < length s.

Lemma dropWhileSome_done (fuel : nat) (s : list ascii) :
  length s <= fuel -> next (dropWhileSome next fuel s) = None.
Proof.
  revert s. induction fuel as [|fuel IH]; intros s Hlen; simpl.
  - destruct (next s) as [r|] eqn:E; [|reflexivity].
    apply next_shorter in E. lia.
  - destruct (next s) as [r|] eqn:E; [|exact E].
    apply IH. apply next_shorter in E. lia.
Qed.

Lemma dropWhileSome_fixed (fuel : nat) (s : list ascii) :
  next s = None -> dropWhileSome next fuel s = s.
Proof. intros H. destruct fuel; simpl; [reflexivity|now rewrite H]. Qed.

(** What is dropped is a prefix. *)
Lemma dropWhileSome_suffix (fuel : nat) (s : list ascii) :
  (forall s r, next s = Some r -> exists p, s = p ++ r) ->
  exists p, s = p ++ dropWhileSome next fuel s.
Proof.
  intros Hnext. revert s. induction fuel as [|fuel IH]; intros s; simpl.
  - now exists [].
  - destruct (next s) as [r|] eqn:E; [|now exists []].
    destruct (Hnext _ _ E) as [p ->]. destruct (IH r) as [q Hq].
    exists (p ++ q). rewrite <- app_assoc. now rewrite <- Hq.
Qed.

End DropWhileSome.

Lemma leadingSpace_shorter (s r : list ascii) :
  leadingSpace s = Some r -> length r < length s.
Proof.
  unfold leadingSpace.
  destruct s as [|c [|d [|e s]]]; split_bytes; intros H; inversion H;
    simpl; lia.
Qed.

Lemma trailingSpace_shorter (s r : list ascii) :
  trailingSpace s = Some r -> length r < length s.
Proof.
  unfold trailingSpace.
  destruct s as [|c [|d [|e s]]]; split_bytes; intros H; inversion H;
    simpl; lia.
Qed.

Lemma trailingSpace_prefix (s r : list ascii) :
  trailingSpace s = Some r -> exists p, s = p ++ r.
Proof.
  unfold trailingSpace.
  destruct s as [|c [|d [|e s]]]; split_bytes; intros H; inversion H.
  all: first [ now exists [c] | now exists [c; d] | now exists [c; d; e] ].
Qed.

(** A white-space rune at the head of a sequence is still there when the
    sequence is extended. *)
Lemma leadingSpace_extend (s r x : list ascii) :
  leadingSpace s = Some r -> leadingSpace (s ++ x) = Some (r ++ x).
Proof.
  unfold leadingSpace.
  destruct s as [|c [|d [|e s]]]; cbn [app]; split_bytes;
    intros H; inversion H; reflexivity.
Qed.

Lemma trimLeft_done (s : list ascii) : leadingSpace (trimLeft s) = None.
Proof.
  apply dropWhileSome_done; [exact leadingSpace_shorter|apply Nat.le_refl].
Qed.

Lemma trimRight_done (s : list ascii) :
  trailingSpace (rev (trimRight s)) = None.
Proof.
  unfold trimRight. rewrite rev_involutive.
  apply dropWhileSome_done; [exact trailingSpace_shorter|].
  now rewrite length_rev.
Qed.

Lemma trimRight_prefix (s : list ascii) : exists q, s = trimRight s ++ q.
Proof.
  unfold trimRight.
  destruct (dropWhileSome_suffix trailingSpace (length s) (rev s)
              trailingSpace_prefix) as [p Hp].
  exists (rev p).
  rewrite <- rev_app_distr, <- Hp. now rewrite rev_involutive.
Qed.

Lemma trimmed_fixed (s : list ascii) :
  leadingSpace s = None -> trailingSpace (rev s) = None ->
  trimRight (trimLeft s) = s.
Proof.
  intros Hl Hr. unfold trimLeft. rewrite dropWhileSome_fixed by exact Hl.
  unfold trimRight. rewrite dropWhileSome_fixed by exact Hr.
  apply rev_involutive.
Qed.

Lemma TrimSpace_idempotent (s : string) :
  TrimSpace (TrimSpace s) = TrimSpace s.
Proof.
  unfold TrimSpace. rewrite list_ascii_of_string_of_list_ascii.
  f_equal. apply trimmed_fixed; [|apply trimRight_done].
  set (a := trimLeft (list_ascii_of_string s)).
  destruct (leadingSpace (trimRight a)) as [r|] eqn:E; [|reflexivity].
  destruct (trimRight_prefix a) as [q Hq].
  apply (leadingSpace_extend _ _ q) in E. rewrite <- Hq in E.
  unfold a in E. now rewrite trimLeft_done in E.
Qed.

(** ** When sanitizing twice changes nothing *)



(** *** Maps built by assignment *)






(** *** Values that a second pass leaves alone *)








(** *** The second pass *)









(** ** Further properties of the spec *)

(** The table of [normalizeGeminiType]: on the upper-cased, trimmed type
    name, each of the thirteen known names gives its type of the target
    dialect, and any other name, [null], [any] and the empty string
    included, gives the empty string. *)
Theorem normalizeGeminiType_table (t : string) :
  let upper := ToUpper (TrimSpace t) in
  (In upper ["OBJECT"; "RECORD"; "MAP"] -> normalizeGeminiType t = "OBJECT")
  /\ (In upper ["ARRAY"; "LIST"] -> normalizeGeminiType t = "ARRAY")
  /\ (In upper ["STRING"] -> normalizeGeminiType t = "STRING")
  /\ (In upper ["NUMBER"; "DOUBLE"; "FLOAT"] -> normalizeGeminiType t = "NUMBER")
  /\ (In upper ["INTEGER"; "INT"] -> normalizeGeminiType t = "INTEGER")
  /\ (In upper ["BOOLEAN"; "BOOL"] -> normalizeGeminiType t = "BOOLEAN")
  /\ (~ In upper ["OBJECT"; "RECORD"; "MAP"; "ARRAY"; "LIST"; "STRING";
                  "NUMBER"; "DOUBLE"; "FLOAT"; "INTEGER"; "INT"; "BOOLEAN";
                  "BOOL"] -> normalizeGeminiType t = "")
  /\ forall key, ToLower key = "type" -> normalizeGeminiType t = "" ->
       sanitizeGeminiSchema (JObject [(key, JString t)]) = JObject [].
Proof.
  cbv zeta. repeat split.
  1-7: unfold normalizeGeminiType; cbv zeta;
    generalize (ToUpper (TrimSpace t)); intros upper.
  1-6: intros H; simpl in H;
    repeat (destruct H as [<-|H]; [reflexivity|]); contradiction.
  - intros Hnot. unfold geminiAllowedTypes, lookup_type, one_of, existsb.
    repeat match goal with
           | |- context [String.eqb ?a ?b] =>
               destruct (String.eqb_spec a b);
               [try (subst; exfalso; apply Hnot; simpl; tauto)|]
           end; reflexivity.
  - intros key Hkey Hempty. cbn [sanitizeGeminiSchema fold_left].
    unfold sanitize_entry. cbv zeta. cbn [fst snd]. rewrite Hkey, Hempty.
    reflexivity.
Qed.

(** The filters of [enum] and [required] on the examples of the spec, and
    in general: [enum] keeps its scalar entries, nulls included, in order;
    [required] keeps its strings, trimmed, the empty ones apart. *)
Theorem enum_and_required_filters :
  sanitizeGeminiEnum
    (JArray [JString "a"; JNumber "1"; JBool true; JNull;
             JObject [("x", JNumber "1")]; JArray [JNumber "1"; JNumber "2"]])
  = [JString "a"; JNumber "1"; JBool true; JNull]
  /\ sanitizeGeminiRequired
       (JArray [JString "a"; JString ""; JString "  "; JString "b"])
     = ["a"; "b"]
  /\ (forall items, sanitizeGeminiEnum (JArray items) = filter is_scalar items)
  /\ (forall items s,
        In s (sanitizeGeminiRequired (JArray items)) <->
        s <> "" /\ exists s0, In (JString s0) items /\ s = TrimSpace s0)
  /\ sanitizeGeminiSchema
       (JObject [("enum", JArray [JObject []]); ("required", JArray [JString " "])])
     = JObject [].
Proof.
  split; [reflexivity|]. split; [reflexivity|]. split; [reflexivity|].
  split; [|reflexivity].
  intros items s. cbn [sanitizeGeminiRequired]. rewrite in_flat_map. split.
  - intros (item & Hin & Hs). destruct item; try contradiction.
    cbn [required_entry] in Hs.
    destruct (String.eqb_spec (TrimSpace s0) "") as [|Hne]; [contradiction|].
    destruct Hs as [<-|[]]. split; [exact Hne|]. now exists s0.
  - intros (Hne & s0 & Hin & ->). exists (JString s0). split; [exact Hin|].
    cbn [required_entry].
    destruct (String.eqb_spec (TrimSpace s0) ""); [contradiction|]. now left.
Qed.

Section RequestRoundTrip.

Context {L : OpenAI.Library}.

Import OpenAI.

Lemma map_get_skip (key k : string) (b : bool) (v : json)
  (fields : list (string * json)) :
  String.eqb k key = false ->
  map_get key ((if b then map_set k v else fun m => m) fields) =
  map_get key fields.
Proof. intros Hk. destruct b; [|reflexivity]. now rewrite map_get_set, Hk. Qed.

(** The converted request has exactly one message, of role [user], whose
    content is the prompt as gjson renders it, or the fallback when that is
    empty; so a request with prompt [hello] gives the one message
    [{role: user, content: hello}]. *)
Theorem completions_request_message (rawJSON : json) :
  let prompt := gjson_String (gjson_Get (Some rawJSON) "prompt") in
  gjson_Get (Some (convertCompletionsRequestToChatCompletions rawJSON))
    "messages"
  = Some (JArray [JObject [("role", JString "user");
                           ("content",
                            JString (if String.eqb prompt ""
                                     then "Complete this:" else prompt))]])
  /\ gjson_Get
       (Some (convertCompletionsRequestToChatCompletions
                (JObject [("prompt", JString "hello")]))) "messages"
     = Some (JArray [JObject [("role", JString "user");
                              ("content", JString "hello")]]).
Proof.
  cbv zeta. split; [|reflexivity].
  unfold convertCompletionsRequestToChatCompletions. cbv zeta.
  unfold chat_template.
  rewrite (copy_field_key _ "model") by reflexivity.
  set (prompt := if String.eqb _ "" then _ else _).
  replace (sjson_Set _ "messages.0.content" (JString prompt)) with
    (JObject [("model", if gjson_Exists (gjson_Get (Some rawJSON) "model")
                        then JString (gjson_String (gjson_Get (Some rawJSON) "model"))
                        else JString "");
              ("messages",
               JArray [JObject [("role", JString "user");
                                ("content", JString prompt)]])])
    by now destruct (gjson_Exists _).
  rewrite !copy_field_key by reflexivity.
  rewrite gjson_Get_object.
  rewrite !map_get_skip by reflexivity.
  reflexivity.
Qed.

End RequestRoundTrip.

(** * More of the code *)

(** ** Access providers *)

Lemma scan_providers_spec (providers : list Config.AccessProvider) (i : nat) :
  match Config.scan_providers providers i with
  | (providers', None) =>
      providers' = providers
      /\ Forall (fun p => Config.ProviderType p
                          <> Config.AccessProviderTypeConfigAPIKey) providers
  | (providers', Some j) =>
      exists pre p post,
        providers = pre ++ p :: post
        /\ j = i + length pre
        /\ Forall (fun q => Config.ProviderType q
                            <> Config.AccessProviderTypeConfigAPIKey) pre
        /\ Config.ProviderType p = Config.AccessProviderTypeConfigAPIKey
        /\ providers' =
           pre ++ (if String.eqb (Config.Name p) ""
                   then Config.with_name p Config.DefaultAccessProviderName
                   else p) :: post
  end.
Proof.
  revert i. induction providers as [|p rest IH]; intros i; cbn [Config.scan_providers].
  - split; [reflexivity|constructor].
  - destruct (String.eqb_spec (Config.ProviderType p)
                Config.AccessProviderTypeConfigAPIKey) as [Htype|Htype].
    + exists [], p, rest. cbn [app length]. rewrite Nat.add_0_r.
      repeat split; auto.
    + specialize (IH (S i)).
      destruct (Config.scan_providers rest (S i)) as [rest' [j|]].
      * destruct IH as (pre & q & post & -> & -> & Hpre & Hq & ->).
        exists (p :: pre), q, post. cbn [app length].
        repeat split; auto; lia.
      * destruct IH as [-> Hall]. split; [reflexivity|]. now constructor.
Qed.

Lemma with_providers_same (c : Config.SDKConfig) :
  Config.with_providers c (Config.Providers (Config.Access c)) = c.
Proof. now destruct c as [? ? ? [?] ?]. Qed.

Lemma with_name_same (p : Config.AccessProvider) :
  Config.with_name p (Config.Name p) = p.
Proof. now destruct p. Qed.

Lemma nth_error_middle {A : Type} (pre post : list A) (x : A) :
  nth_error (pre ++ x :: post) (length pre) = Some x.
Proof. induction pre; simpl; auto. Qed.

Lemma nth_error_replace_middle {A : Type} (pre post : list A) (x y : A)
  (k : nat) :
  k <> length pre ->
  nth_error (pre ++ y :: post) k = nth_error (pre ++ x :: post) k.
Proof.
  revert k. induction pre as [|a pre IH]; intros [|k] Hk; simpl in *;
    try reflexivity; try lia.
  apply IH. lia.
Qed.

Lemma scan_providers_again (providers : list Config.AccessProvider) (i : nat) :
  Config.scan_providers (fst (Config.scan_providers providers i)) i =
  Config.scan_providers providers i.
Proof.
  revert i. induction providers as [|p rest IH]; intros i; [reflexivity|].
  cbn [Config.scan_providers].
  destruct (String.eqb (Config.ProviderType p)
              Config.AccessProviderTypeConfigAPIKey) eqn:Htype.
  - cbn [fst Config.scan_providers].
    destruct (String.eqb (Config.Name p) "") eqn:Hname.
    + cbn [Config.with_name Config.ProviderType Config.Name].
      rewrite Htype. reflexivity.
    + rewrite Htype, Hname. reflexivity.
  - specialize (IH (S i)).
    destruct (Config.scan_providers rest (S i)) as [rest' found] eqn:Escan.
    cbn [fst] in *. cbn [Config.scan_providers]. rewrite Htype, IH.
    reflexivity.
Qed.

(** [ConfigAPIKeyProvider] returns [nil] exactly when the receiver is [nil]
    or no provider is of type [config-api-key]. Otherwise it points to the
    first such provider; that provider now has a name (its own, or
    [config-inline] when it had none) and is otherwise as it was; every other
    provider and every other field of the configuration is untouched. A
    second call returns the same pointer and changes nothing. *)
Theorem ConfigAPIKeyProvider_first (c : Config.SDKConfig) :
  let providers := Config.Providers (Config.Access c) in
  Config.ConfigAPIKeyProvider None = (None, None)
  /\ (exists c', fst (Config.ConfigAPIKeyProvider (Some c)) = Some c'
        /\ Config.with_providers c' providers = c
        /\ length (Config.Providers (Config.Access c')) = length providers)
  /\ (snd (Config.ConfigAPIKeyProvider (Some c)) = None <->
      Forall (fun p => Config.ProviderType p
                       <> Config.AccessProviderTypeConfigAPIKey) providers)
  /\ (snd (Config.ConfigAPIKeyProvider (Some c)) = None ->
      fst (Config.ConfigAPIKeyProvider (Some c)) = Some c)
  /\ (forall j c',
        Config.ConfigAPIKeyProvider (Some c) = (Some c', Some j) ->
        exists p,
          nth_error providers j = Some p
          /\ Config.ProviderType p = Config.AccessProviderTypeConfigAPIKey
          /\ (forall k q, k < j -> nth_error providers k = Some q ->
                Config.ProviderType q <> Config.AccessProviderTypeConfigAPIKey)
          /\ nth_error (Config.Providers (Config.Access c')) j =
             Some (Config.with_name p
                     (if String.eqb (Config.Name p) ""
                      then Config.DefaultAccessProviderName
                      else Config.Name p))
          /\ (forall k, k <> j ->
                nth_error (Config.Providers (Config.Access c')) k =
                nth_error providers k))
  /\ Config.ConfigAPIKeyProvider (fst (Config.ConfigAPIKeyProvider (Some c)))
     = Config.ConfigAPIKeyProvider (Some c).
Proof.
  cbv zeta. unfold Config.ConfigAPIKeyProvider.
  pose proof (scan_providers_spec (Config.Providers (Config.Access c)) 0) as Hscan.
  destruct (Config.scan_providers (Config.Providers (Config.Access c)) 0)
    as [providers' [j|]] eqn:Escan; cbn [fst snd].
  - destruct Hscan as (pre & p & post & Hsplit & Hj & Hpre & Hp & Hnew).
    cbn [Nat.add] in Hj. subst j providers'.
    split; [reflexivity|]. split.
    { eexists. split; [reflexivity|]. split.
      - destruct c as [? ? ? [?] ?]. reflexivity.
      - cbn. rewrite Hsplit, !length_app. reflexivity. }
    split.
    { split; [discriminate|]. rewrite Hsplit. intros Hall.
      apply Forall_app in Hall as [_ Hall]. inversion Hall; subst. contradiction. }
    split; [discriminate|]. split.
    { intros j c' Heq. inversion Heq; subst j c'. clear Heq.
      exists p. rewrite Hsplit. split; [apply nth_error_middle|].
      split; [exact Hp|]. split.
      { intros k q Hk Hq. rewrite nth_error_app1 in Hq by exact Hk.
        rewrite Forall_forall in Hpre. apply Hpre. eapply nth_error_In, Hq. }
      cbn [Config.Providers Config.Access Config.with_providers]. split.
      - rewrite nth_error_middle. f_equal.
        destruct (String.eqb (Config.Name p) ""); [reflexivity|].
        now rewrite with_name_same.
      - intros k Hk. now apply nth_error_replace_middle. }
    cbn [Config.Providers Config.Access Config.with_providers].
    pose proof (scan_providers_again (Config.Providers (Config.Access c)) 0)
      as Hagain.
    rewrite Escan in Hagain. cbn [fst] in Hagain. rewrite Hagain.
    reflexivity.
  - destruct Hscan as [-> Hall].
    split; [reflexivity|]. split.
    { eexists. split; [reflexivity|]. split; [|reflexivity].
      destruct c as [? ? ? [?] ?]. reflexivity. }
    split; [tauto|]. split; [now rewrite with_providers_same|].
    split; [discriminate|].
    rewrite with_providers_same, Escan. now rewrite with_providers_same.
Qed.




(** ** The verbose log entry *)

Lemma length_append (s t : string) :
  String.length (s ++ t) = String.length s + String.length t.
Proof. induction s as [|c s IH]; simpl; auto. Qed.

Lemma length_substring_le (k : nat) (s : string) :
  String.length (substring 0 k s) <= k.
Proof.
  revert s. induction k as [|k IH]; intros [|c s]; simpl; auto with arith.
Qed.

Lemma length_substring_exact (k : nat) (s : string) :
  k <= String.length s -> String.length (substring 0 k s) = k.
Proof.
  revert s. induction k as [|k IH]; intros [|c s]; simpl; intros H;
    try reflexivity; [lia|].
  f_equal. apply IH. lia.
Qed.

Lemma length_zero (s : string) : Nat.eqb (String.length s) 0 = true <-> s = "".
Proof. destruct s; simpl; split; intros H; congruence. Qed.

Lemma append_nil (s : string) : (s ++ "")%string = s.
Proof. induction s; simpl; congruence. Qed.

Lemma append_assoc (s t u : string) :
  ((s ++ t) ++ u = s ++ t ++ u)%string.
Proof. induction s; simpl; congruence. Qed.

Lemma concat_lines (t : string) (texts : list string) :
  String.concat LF (t :: texts) = (t ++ lines_after texts)%string.
Proof.
  revert t. induction texts as [|u texts IH]; intros t.
  - simpl. now rewrite append_nil.
  - change (String.concat LF (t :: u :: texts))
      with (t ++ LF ++ String.concat LF (u :: texts))%string.
    rewrite IH. reflexivity.
Qed.

Lemma join_errors_after (errs : list (option ErrorMessage)) (buf : string) :
  buf <> "" ->
  Logging.join_errors errs buf = (buf ++ lines_after (error_texts errs))%string.
Proof.
  revert buf. induction errs as [|e errs IH]; intros buf Hbuf.
  - simpl. now rewrite append_nil.
  - destruct e as [[code [err|]]|]; cbn [Logging.join_errors]; auto.
    destruct buf as [|c buf]; [contradiction|].
    cbn [String.length Nat.ltb Nat.leb]. rewrite IH by discriminate.
    cbn [error_texts flat_map app lines_after]. fold (error_texts errs).
    now rewrite !append_assoc.
Qed.

Lemma join_errors_spec (errs : list (option ErrorMessage)) :
  Logging.join_errors errs "" =
  String.concat LF (drop_empty (error_texts errs)).
Proof.
  induction errs as [|e errs IH]; [reflexivity|].
  destruct e as [[code [err|]]|]; cbn [Logging.join_errors]; auto.
  cbn [String.length Nat.ltb Nat.leb error_texts flat_map app].
  fold (error_texts errs).
  destruct err as [|c err]; [exact IH|].
  cbn [drop_empty]. rewrite concat_lines.
  apply join_errors_after. discriminate.
Qed.

Lemma safeExcerpt_unbounded (b : string) (n : Z) :
  (n <= 0)%Z -> Logging.safeExcerpt b n = TrimSpace b.
Proof.
  intros Hn. unfold Logging.safeExcerpt.
  destruct (Nat.eqb (String.length b) 0) eqn:Hlen.
  - apply length_zero in Hlen. now subst.
  - apply Z.leb_le in Hn. now rewrite Hn.
Qed.

(** The [api_response] field of the entry that [emitVerbose5xxLog] logs. A
    non-empty body under [API_RESPONSE] is logged in full, trimmed of the
    white space around it, whatever errors were collected. Without one (no
    value, a value of another type, or no bytes), the messages under
    [API_RESPONSE_ERROR] are logged: the texts of their errors, nil messages
    and nil errors skipped and empty texts at the front dropped, one per
    line; the field is empty when there are no such messages either. *)
Theorem verbose_entry_response {L : OpenAI.Library}
  (DurationString : Z -> string) (c : list (string * Logging.any))
  (status : Z) (method path : string) (latency : Z) :
  let entry :=
    Logging.emitVerbose5xxLog DurationString c status method path latency in
  (Logging.bytes_at c "API_RESPONSE" <> "" ->
   Logging.api_response entry = TrimSpace (Logging.bytes_at c "API_RESPONSE"))
  /\ (Logging.bytes_at c "API_RESPONSE" = "" ->
      forall errs,
        Logging.Get c "API_RESPONSE_ERROR" = Some (Logging.ErrorMessages errs) ->
        Logging.api_response entry =
        TrimSpace (String.concat LF (drop_empty (error_texts errs))))
  /\ (Logging.bytes_at c "API_RESPONSE" = "" ->
      (forall errs,
         Logging.Get c "API_RESPONSE_ERROR" <> Some (Logging.ErrorMessages errs)) ->
      Logging.api_response entry = "")
  /\ (forall errs,
        Forall (fun t => t <> "") (error_texts errs) ->
        Logging.join_errors errs "" = String.concat LF (error_texts errs)).
Proof.
  cbv zeta. unfold Logging.emitVerbose5xxLog. cbn [Logging.api_response].
  rewrite safeExcerpt_unbounded by lia.
  split; [|split; [|split]].
  - intros Hbody.
    destruct (Nat.eqb (String.length (Logging.bytes_at c "API_RESPONSE")) 0)
      eqn:Hlen; [|reflexivity].
    apply length_zero in Hlen. contradiction.
  - intros Hbody errs Herrs. rewrite Hbody, Herrs. cbn [String.length Nat.eqb].
    now rewrite join_errors_spec.
  - intros Hbody Hnone. rewrite Hbody. cbn [String.length Nat.eqb].
    destruct (Logging.Get c "API_RESPONSE_ERROR") as [[b|errs|]|];
      try reflexivity.
    now destruct (Hnone errs).
  - intros errs Hall. rewrite join_errors_spec. f_equal.
    destruct Hall as [|t texts Ht _]; [reflexivity|].
    destruct t; [contradiction|reflexivity].
Qed.

(** [safeExcerpt] of the verbose logger. With [n <= 0] nothing is cut: the
    result is the whole input without the white space around it. With
    [n > 0] the result has at most [n] bytes and the 14 bytes of the mark:
    it is the trimmed input when that has at most [n] bytes, and its first
    [n] bytes followed by the mark otherwise. An input of white space only
    gives the empty string. *)
Theorem safeExcerpt_bound (b : string) (n : Z) :
  ((n <= 0)%Z -> Logging.safeExcerpt b n = TrimSpace b)
  /\ ((0 < n)%Z ->
      String.length (Logging.safeExcerpt b n) <= Z.to_nat n + 14
      /\ (String.length (TrimSpace b) <= Z.to_nat n ->
          Logging.safeExcerpt b n = TrimSpace b)
      /\ (Z.to_nat n < String.length (TrimSpace b) ->
          Logging.safeExcerpt b n =
          (substring 0 (Z.to_nat n) (TrimSpace b) ++ Logging.truncated)%string
          /\ String.length (Logging.safeExcerpt b n) = Z.to_nat n + 14))
  /\ (whitespace_only (list_ascii_of_string b) -> Logging.safeExcerpt b n = "").
Proof.
  split; [apply safeExcerpt_unbounded|]. split.
  - intros Hn. unfold Logging.safeExcerpt.
    destruct (Nat.eqb (String.length b) 0) eqn:Hlen.
    + apply length_zero in Hlen. subst b.
      split; [simpl; lia|]. split; [reflexivity|]. simpl. lia.
    + cbv zeta. replace (n <=? 0)%Z with false by (symmetry; apply Z.leb_gt; lia).
      cbn [orb].
      destruct (Z.of_nat (String.length (TrimSpace b)) <=? n)%Z eqn:Hfit.
      * apply Z.leb_le in Hfit. split; [lia|]. split; [reflexivity|]. lia.
      * apply Z.leb_gt in Hfit.
        assert (Hcut : String.length (substring 0 (Z.to_nat n) (TrimSpace b))
                       = Z.to_nat n).
        { apply length_substring_exact. lia. }
        rewrite length_append, Hcut. change (String.length Logging.truncated) with 14.
        split; [lia|]. split; [lia|]. auto.
  - intros Hws. unfold Logging.safeExcerpt.
    destruct (Nat.eqb (String.length b) 0); [reflexivity|].
    cbv zeta. rewrite (TrimSpace_whitespace b Hws).
    cbn [String.length]. destruct n; reflexivity.
Qed.

Lemma GinLogger_safeExcerpt_some (b : string) (n : Z) :
  (0 <= n)%Z ->
  exists s, GinLogger.safeExcerpt b n = Some s
            /\ String.length s <= Z.to_nat n + 18.
Proof.
  intros Hn. unfold GinLogger.safeExcerpt.
  destruct (Nat.eqb (String.length b) 0); [exists ""; split; simpl; auto; lia|].
  cbv zeta.
  destruct (Z.of_nat (String.length (TrimSpace b)) <=? n)%Z eqn:Hfit.
  - apply Z.leb_le in Hfit. eexists. split; [reflexivity|]. lia.
  - apply Z.leb_gt in Hfit.
    replace (n <? 0)%Z with false by (symmetry; apply Z.ltb_ge; lia).
    eexists. split; [reflexivity|]. rewrite length_append.
    pose proof (length_substring_le (Z.to_nat n) (TrimSpace b)).
    change (String.length GinLogger.truncated) with 18. lia.
Qed.

(** [safeExcerpt] of [gin_logger.go] has no guard for [n <= 0]: it panics
    on the slice [s[:n]] exactly when [n] is negative and the input is not
    empty (an input of white space only included). For [n >= 0] it returns
    at most [n] bytes of the trimmed input and the 18 bytes of its mark, and
    nothing but the mark for [n = 0] and an input that is not blank.
    [emitVerbose5xxLog] asks for 2048 bytes, so it never panics, and neither
    excerpt of its entry is longer than 2066 bytes. *)
Theorem gin_logger_excerpts {L : OpenAI.Library}
  (DurationString : Z -> string) (b : string) (n : Z)
  (c : list (string * Logging.any)) (status : Z) (method path : string)
  (latency : Z) :
  (GinLogger.safeExcerpt b n = None <-> (n < 0)%Z /\ b <> "")
  /\ ((0 <= n)%Z ->
      exists s, GinLogger.safeExcerpt b n = Some s
                /\ String.length s <= Z.to_nat n + 18)
  /\ (TrimSpace b <> "" ->
      GinLogger.safeExcerpt b 0 = Some GinLogger.truncated)
  /\ (exists entry,
        GinLogger.emitVerbose5xxLog DurationString c status method path latency
        = Some entry
        /\ String.length (GinLogger.api_request_excerpt entry) <= 2066
        /\ String.length (GinLogger.api_response_excerpt entry) <= 2066).
Proof.
  split; [|split; [apply GinLogger_safeExcerpt_some|split]].
  - unfold GinLogger.safeExcerpt.
    destruct (Nat.eqb (String.length b) 0) eqn:Hlen.
    + apply length_zero in Hlen. split; [discriminate|]. tauto.
    + assert (Hb : b <> "").
      { intros ->. discriminate. }
      cbv zeta.
      destruct (Z.of_nat (String.length (TrimSpace b)) <=? n)%Z eqn:Hfit.
      * apply Z.leb_le in Hfit. split; [discriminate|]. lia.
      * destruct (n <? 0)%Z eqn:Hneg.
        -- apply Z.ltb_lt in Hneg. tauto.
        -- apply Z.ltb_ge in Hneg. split; [discriminate|]. lia.
  - intros Htrim. unfold GinLogger.safeExcerpt.
    destruct (Nat.eqb (String.length b) 0) eqn:Hlen.
    + apply length_zero in Hlen. now subst.
    + cbv zeta. destruct (TrimSpace b) as [|ch s]; [contradiction|].
      reflexivity.
  - unfold GinLogger.emitVerbose5xxLog.
    destruct (GinLogger_safeExcerpt_some (Logging.bytes_at c "API_REQUEST")
                GinLogger.max) as (req & -> & Hreq); [discriminate|].
    destruct (GinLogger_safeExcerpt_some (Logging.bytes_at c "API_RESPONSE")
                GinLogger.max) as (resp & -> & Hresp); [discriminate|].
    eexists. split; [reflexivity|].
    cbn [GinLogger.api_request_excerpt GinLogger.api_response_excerpt].
    change (Z.to_nat GinLogger.max + 18) with 2066 in *. auto.
Qed.

(** ** The model list *)

Ltac named_key key :=
  repeat match goal with
         | |- context [String.eqb ?k key] =>
             destruct (String.eqb_spec k key) as [<-|?]
         end.

(** What [OpenAIModels] lets through. Each model of the answer has the keys
    [id] and [object], with the values the registry has for them, or null
    for a key the registry does not have; it has [created] and [owned_by]
    exactly when the registry has them, with the same values; it has no
    other key and no key twice. Filtering a filtered model changes nothing,
    and the answer has status 200 and one entry in [data] for each model of
    the registry, in the same order. *)
Theorem OpenAIModels_fields (model : list (string * json))
  (allModels : list (list (string * json))) :
  let filtered := OpenAIHandlers.filteredModel model in
  map_get "id" filtered = Some (OpenAIHandlers.index model "id")
  /\ map_get "object" filtered = Some (OpenAIHandlers.index model "object")
  /\ map_get "created" filtered = map_get "created" model
  /\ map_get "owned_by" filtered = map_get "owned_by" model
  /\ (forall key, map_get key filtered <> None ->
        In key ["id"; "object"; "created"; "owned_by"])
  /\ NoDup (keys filtered)
  /\ OpenAIHandlers.filteredModel filtered = filtered
  /\ OpenAIHandlers.OpenAIModels allModels =
     Handlers.JSON 200
       (JObject [("object", JString "list");
                 ("data",
                  JArray (map (fun m => JObject (OpenAIHandlers.filteredModel m))
                            allModels))]).
Proof.
  cbv zeta. unfold OpenAIHandlers.filteredModel, OpenAIHandlers.index.
  destruct (map_get "id" model) as [id|];
    destruct (map_get "object" model) as [object|];
    destruct (map_get "created" model) as [created|];
    destruct (map_get "owned_by" model) as [ownedBy|];
    cbn [map_set String.eqb Ascii.eqb Bool.eqb];
    (repeat split; try reflexivity;
     [ intros key; cbn [map_get]; named_key key; intros H; cbn [In];
       auto 6; congruence
     | cbn [keys map fst]; repeat constructor; cbn [In]; intuition discriminate
     | unfold OpenAIHandlers.OpenAIModels; now rewrite map_map ]).
Qed.

(** ** The Completions response *)
Section ResponseProperties.

Context {L : OpenAI.Library}.

Import OpenAI.








End ResponseProperties.

(** ** The preprocessing of a Responses request *)
Section PreprocessProperties.

Context {L : OpenAI.Library}.

Import OpenAI.

Lemma get_nested_map_set (k1 k2 q1 : string) (update : json -> json)
  (fields : list (string * json)) :
  (k1 = q1 ->
   forall d, gjson_Get (Some (update d)) k2 = gjson_Get (Some d) k2) ->
  Logging.get_nested k1 k2
    (map_set q1 (update (match map_get q1 fields with
                         | Some d => d
                         | None => JNull
                         end)) fields) =
  Logging.get_nested k1 k2 fields.
Proof.
  intros Hsame. induction fields as [|[k x] rest IH].
  - cbn [map_get map_set Logging.get_nested].
    destruct (String.eqb_spec q1 k1) as [Heq|]; [|reflexivity].
    now rewrite (Hsame (eq_sym Heq) JNull).
  - cbn [map_get map_set].
    destruct (String.eqb_spec k q1) as [->|Hk]; cbn [Logging.get_nested].
    + destruct (String.eqb_spec q1 k1) as [Heq|]; [|reflexivity].
      now rewrite (Hsame (eq_sym Heq) x).
    + now rewrite IH.
Qed.

Lemma set_key_other (k2 q2 : string) (v d : json) :
  k2 <> q2 -> index_of q2 = None ->
  gjson_Get (Some (set_at [q2] v d)) k2 = gjson_Get (Some d) k2.
Proof.
  intros Hk Hidx. destruct d; cbn [set_at gjson_Get map_get]; try reflexivity;
    try (destruct (String.eqb_spec q2 k2); congruence).
  - now rewrite Hidx.
  - rewrite map_get_set. destruct (String.eqb_spec q2 k2); congruence.
Qed.

Lemma get_nested_set_new (k1 k2 : string) (v : json)
  (fields : list (string * json)) :
  plain_value (map_get k1 fields) = true ->
  Logging.get_nested k1 k2
    (map_set k1 (set_at [k2] v (match map_get k1 fields with
                                | Some d => d
                                | None => JNull
                                end)) fields) = Some v.
Proof.
  induction fields as [|[k x] rest IH]; intros Hplain.
  - cbn [map_get map_set Logging.get_nested set_at gjson_Get].
    now rewrite !String.eqb_refl.
  - cbn [map_get map_set] in *.
    destruct (String.eqb_spec k k1) as [->|Hk]; cbn [Logging.get_nested].
    + rewrite String.eqb_refl.
      destruct x; try discriminate;
        cbn [set_at gjson_Get map_get]; rewrite ?map_get_set;
        now rewrite String.eqb_refl.
    + apply String.eqb_neq in Hk. rewrite Hk. now apply IH.
Qed.

(** The assignment of [k1.k2] in an object whose section [k1] is plain. *)
Lemma set_path_spec (k1 k2 path : string) (v : json)
  (fields : list (string * json)) :
  split_dots path "" = [k1; k2] -> index_of k2 = None ->
  plain_value (map_get k1 fields) = true ->
  exists fields',
    sjson_Set (JObject fields) path v = JObject fields'
    /\ Logging.get_nested k1 k2 fields' = Some v
    /\ (forall q1 q2, q1 <> k1 \/ q2 <> k2 ->
          Logging.get_nested q1 q2 fields' = Logging.get_nested q1 q2 fields)
    /\ (forall k, k <> k1 -> map_get k fields' = map_get k fields)
    /\ plain_value (map_get k1 fields') = true.
Proof.
  intros Hpath Hidx Hplain. unfold sjson_Set. rewrite Hpath.
  cbn [set_at]. eexists. split; [reflexivity|]. split; [|split; [|split]].
  - change (set_at [] v ?d) with v. now apply get_nested_set_new.
  - intros q1 q2 Hq.
    apply (get_nested_map_set q1 q2 k1 (set_at [k2] v)).
    intros ->. destruct Hq as [Hq|Hq]; [congruence|].
    intros d. now apply set_key_other.
  - intros k Hk. rewrite map_get_set.
    destruct (String.eqb_spec k1 k); congruence.
  - rewrite map_get_set, String.eqb_refl.
    destruct (map_get k1 fields) as [[]|]; try discriminate; reflexivity.
Qed.

Lemma inject_default_spec (body : ResponsesHandlers.Body) (k1 k2 : string)
  (value : string) (accepted : list string) (fields : list (string * json)) :
  ResponsesHandlers.doc_of body = JObject fields ->
  split_dots (k1 ++ "." ++ k2) "" = [k1; k2] -> index_of k2 = None ->
  one_of "" accepted = false ->
  plain_value (map_get k1 fields) = true ->
  exists fields',
    ResponsesHandlers.doc_of
      (ResponsesHandlers.inject_default body k1 k2 value accepted)
    = JObject fields'
    /\ Logging.get_nested k1 k2 fields' =
       default_for (Logging.get_nested k1 k2 fields) value accepted
    /\ (forall q1 q2, q1 <> k1 \/ q2 <> k2 ->
          Logging.get_nested q1 q2 fields' = Logging.get_nested q1 q2 fields)
    /\ (forall k, k <> k1 -> map_get k fields' = map_get k fields)
    /\ plain_value (map_get k1 fields') = true.
Proof.
  intros Hdoc Hpath Hidx Hempty Hplain.
  assert (Hsame : forall b : ResponsesHandlers.Body,
             b = body ->
             Logging.get_nested k1 k2 fields =
               default_for (Logging.get_nested k1 k2 fields) value accepted ->
             exists fields',
               ResponsesHandlers.doc_of b = JObject fields'
               /\ Logging.get_nested k1 k2 fields' =
                  default_for (Logging.get_nested k1 k2 fields) value accepted
               /\ (forall q1 q2, q1 <> k1 \/ q2 <> k2 ->
                     Logging.get_nested q1 q2 fields' =
                     Logging.get_nested q1 q2 fields)
               /\ (forall k, k <> k1 -> map_get k fields' = map_get k fields)
               /\ plain_value (map_get k1 fields') = true).
  { intros b -> Hget. exists fields. auto. }
  unfold ResponsesHandlers.inject_default. rewrite Hdoc.
  cbn [Logging.gjson_Get2].
  destruct (Logging.get_nested k1 k2 fields) as [x|] eqn:Hget;
    cbn [gjson_Exists negb andb]; [now apply Hsame|].
  destruct (String.eqb_spec value "") as [->|Hvalue]; cbn [negb].
  { apply Hsame; [reflexivity|]. cbn [default_for]. now rewrite Hempty. }
  destruct (one_of value accepted) eqn:Hone.
  - unfold ResponsesHandlers.SetBytes. cbn [ResponsesHandlers.doc_of].
    rewrite Hdoc.
    destruct (set_path_spec k1 k2 _ (JString value) fields Hpath Hidx Hplain)
      as (fields' & Hset & Hnew & Hothers & Htop & Hplain').
    exists fields'. cbn [default_for]. rewrite Hone. auto.
  - apply Hsame; [reflexivity|]. cbn [default_for]. now rewrite Hone.
Qed.

Lemma model_is_object (doc : json) :
  gjson_String (gjson_Get (Some doc) "model") <> "" ->
  exists fields, doc = JObject fields.
Proof.
  destruct doc; cbn [gjson_Get gjson_String]; try congruence. eauto.
Qed.

(** The injection of the two defaults, when there is a configuration. *)
Lemma defaults_injected (Cfg : option Config.SDKConfig)
  (body : ResponsesHandlers.Body) (fields : list (string * json)) :
  ResponsesHandlers.doc_of body = JObject fields ->
  plain_value (map_get "text" fields) = true ->
  plain_value (map_get "reasoning" fields) = true ->
  exists fields',
    ResponsesHandlers.doc_of
      match Cfg with
      | Some cfg =>
          ResponsesHandlers.inject_default
            (ResponsesHandlers.inject_default body "text" "verbosity"
               (Config.Verbosity (Config.Defaults (Config.Responses cfg)))
               ["low"; "medium"; "high"])
            "reasoning" "summary"
            (Config.ReasoningSummary (Config.Defaults (Config.Responses cfg)))
            ["auto"; "detailed"]
      | None => body
      end = JObject fields'
    /\ Logging.get_nested "text" "verbosity" fields' =
       match Cfg with
       | Some cfg =>
           default_for (Logging.get_nested "text" "verbosity" fields)
             (Config.Verbosity (Config.Defaults (Config.Responses cfg)))
             ["low"; "medium"; "high"]
       | None => Logging.get_nested "text" "verbosity" fields
       end
    /\ Logging.get_nested "reasoning" "summary" fields' =
       match Cfg with
       | Some cfg =>
           default_for (Logging.get_nested "reasoning" "summary" fields)
             (Config.ReasoningSummary (Config.Defaults (Config.Responses cfg)))
             ["auto"; "detailed"]
       | None => Logging.get_nested "reasoning" "summary" fields
       end
    /\ Logging.get_nested "reasoning" "effort" fields' =
       Logging.get_nested "reasoning" "effort" fields
    /\ (forall k, ~ In k ["text"; "reasoning"] ->
          map_get k fields' = map_get k fields)
    /\ plain_value (map_get "reasoning" fields') = true.
Proof.
  intros Hdoc Htext Hreasoning. destruct Cfg as [cfg|].
  - destruct (inject_default_spec body "text" "verbosity"
                (Config.Verbosity (Config.Defaults (Config.Responses cfg)))
                ["low"; "medium"; "high"] fields Hdoc eq_refl eq_refl eq_refl
                Htext)
      as (fields1 & Hdoc1 & Hv1 & Hothers1 & Htop1 & _).
    assert (Hreasoning1 : plain_value (map_get "reasoning" fields1) = true).
    { rewrite Htop1 by discriminate. exact Hreasoning. }
    destruct (inject_default_spec _ "reasoning" "summary"
                (Config.ReasoningSummary (Config.Defaults (Config.Responses cfg)))
                ["auto"; "detailed"] fields1 Hdoc1 eq_refl eq_refl eq_refl
                Hreasoning1)
      as (fields2 & Hdoc2 & Hs2 & Hothers2 & Htop2 & Hplain2).
    exists fields2. split; [exact Hdoc2|].
    split; [rewrite Hothers2 by (left; discriminate); exact Hv1|].
    split; [rewrite Hs2, Hothers1 by (left; discriminate); reflexivity|].
    split; [rewrite Hothers2, Hothers1 by (right; discriminate); reflexivity|].
    split; [|exact Hplain2].
    intros k Hk. cbn [In] in Hk.
    rewrite Htop2, Htop1 by (intros ->; tauto). reflexivity.
  - exists fields. auto 10.
Qed.

Lemma preprocess_shape (Cfg : option Config.SDKConfig)
  (body : ResponsesHandlers.Body) :
  let doc := ResponsesHandlers.doc_of body in
  let result := ResponsesHandlers.preprocessResponsesRequest Cfg body in
  let out := ResponsesHandlers.doc_of (fst result) in
  gjson_String (gjson_Get (Some doc) "model") <> "" ->
  plain_sections doc ->
  Logging.gjson_Get2 out "text" "verbosity" =
    match Cfg with
    | Some cfg =>
        default_for (Logging.gjson_Get2 doc "text" "verbosity")
          (Config.Verbosity (Config.Defaults (Config.Responses cfg)))
          ["low"; "medium"; "high"]
    | None => Logging.gjson_Get2 doc "text" "verbosity"
    end
  /\ Logging.gjson_Get2 out "reasoning" "summary" =
    match Cfg with
    | Some cfg =>
        default_for (Logging.gjson_Get2 doc "reasoning" "summary")
          (Config.ReasoningSummary (Config.Defaults (Config.Responses cfg)))
          ["auto"; "detailed"]
    | None => Logging.gjson_Get2 doc "reasoning" "summary"
    end
  /\ Logging.gjson_Get2 out "reasoning" "effort" =
    (if infers Cfg doc
     then Some (JString
                  (snd (fst (Responses.inferEffortFromModel
                               (gjson_String (gjson_Get (Some doc) "model"))))))
     else Logging.gjson_Get2 doc "reasoning" "effort")
  /\ gjson_Get (Some out) "model" =
    (if infers Cfg doc then Some (JString "gpt-5")
     else gjson_Get (Some doc) "model")
  /\ snd result = gjson_String (gjson_Get (Some out) "model")
  /\ (forall key, ~ In key ["text"; "reasoning"; "model"] ->
        gjson_Get (Some out) key = gjson_Get (Some doc) key).
Proof.
  cbv zeta. intros Hmodel [Htext Hreasoning].
  destruct (model_is_object _ Hmodel) as [fields Hdoc].
  unfold ResponsesHandlers.preprocessResponsesRequest, infers.
  rewrite Hdoc in *. cbn [gjson_Get] in Htext, Hreasoning.
  apply String.eqb_neq in Hmodel. rewrite Hmodel.
  destruct (defaults_injected Cfg body fields Hdoc Htext Hreasoning)
    as (fields2 & Hdoc2 & Hverbosity & Hsummary & Heffort & Htop & Hplain).
  set (body2 := match Cfg with Some cfg => _ | None => body end) in *.
  set (enabled := match Cfg with
                  | Some cfg => Config.InferEffortFromModelSuffix _
                  | None => true
                  end).
  assert (Hkeep :
    ResponsesHandlers.doc_of body2 = JObject fields2 ->
    Logging.gjson_Get2 (JObject fields2) "text" "verbosity" =
      match Cfg with
      | Some cfg =>
          default_for (Logging.gjson_Get2 (JObject fields) "text" "verbosity")
            (Config.Verbosity (Config.Defaults (Config.Responses cfg)))
            ["low"; "medium"; "high"]
      | None => Logging.gjson_Get2 (JObject fields) "text" "verbosity"
      end
    /\ Logging.gjson_Get2 (JObject fields2) "reasoning" "summary" =
      match Cfg with
      | Some cfg =>
          default_for (Logging.gjson_Get2 (JObject fields) "reasoning" "summary")
            (Config.ReasoningSummary (Config.Defaults (Config.Responses cfg)))
            ["auto"; "detailed"]
      | None => Logging.gjson_Get2 (JObject fields) "reasoning" "summary"
      end
    /\ Logging.gjson_Get2 (JObject fields2) "reasoning" "effort" =
       Logging.gjson_Get2 (JObject fields) "reasoning" "effort"
    /\ gjson_Get (Some (JObject fields2)) "model" =
       gjson_Get (Some (JObject fields)) "model"
    /\ gjson_String (gjson_Get (Some (JObject fields)) "model") =
       gjson_String (gjson_Get (Some (JObject fields2)) "model")
    /\ (forall key, ~ In key ["text"; "reasoning"; "model"] ->
          gjson_Get (Some (JObject fields2)) key =
          gjson_Get (Some (JObject fields)) key)).
  { intros _. cbn [Logging.gjson_Get2 gjson_Get].
    rewrite (Htop "model") by (cbn [In]; intuition discriminate).
    repeat split; auto.
    intros key Hkey. apply Htop. cbn [In] in *. tauto. }
  destruct enabled; cbn [andb];
    [|cbn [fst snd]; rewrite Hdoc2; now apply Hkeep].
  rewrite Hdoc2. cbn [Logging.gjson_Get2]. rewrite Heffort.
  destruct (Logging.get_nested "reasoning" "effort" fields) as [effort0|]
    eqn:Hclient; cbn [gjson_Exists negb andb];
    [cbn [fst snd]; rewrite Hdoc2; cbn [Logging.gjson_Get2];
     rewrite <- Hclient; now apply Hkeep|].
  destruct (Responses.inferEffortFromModel _) as [[base effort] [|]] eqn:Hinfer;
    cbn [fst snd];
    [|rewrite Hdoc2; cbn [Logging.gjson_Get2];
      rewrite <- Hclient; now apply Hkeep].
  apply inferEffortFromModel_success in Hinfer as (-> & _ & _).
  unfold ResponsesHandlers.SetBytes. cbn [ResponsesHandlers.doc_of].
  rewrite Hdoc2.
  destruct (set_path_spec "reasoning" "effort" "reasoning.effort"
              (JString effort) fields2 eq_refl eq_refl Hplain)
    as (fields3 & -> & Hnew & Hothers & Htop3 & _).
  rewrite sjson_Set_key by reflexivity.
  assert (Hnested : forall q1 q2, q1 <> "model" ->
             Logging.get_nested q1 q2
               (map_set "model" (JString "gpt-5") fields3) =
             Logging.get_nested q1 q2 fields3).
  { intros q1 q2 Hq.
    apply (get_nested_map_set q1 q2 "model" (fun _ => JString "gpt-5")).
    congruence. }
  destruct (Hkeep Hdoc2) as (Hv & Hs & _ & _ & _ & Hrest).
  cbn [Logging.gjson_Get2 gjson_Get] in *.
  rewrite !Hnested by discriminate.
  rewrite !Hothers by ((left; discriminate) || (right; discriminate)).
  rewrite Hnew, map_get_set. cbn [String.eqb Ascii.eqb Bool.eqb gjson_String].
  repeat split; auto.
  intros key Hkey. rewrite map_get_set.
  destruct (String.eqb_spec "model" key) as [<-|_];
    [cbn [In] in Hkey; tauto|].
  rewrite Htop3 by (intros ->; cbn [In] in Hkey; tauto).
  now apply Hrest.
Qed.

(** What the preprocessing makes of a request that names a model, when the
    sections [text] and [reasoning] are plain. A value of the client at
    [text.verbosity], [reasoning.summary] or [reasoning.effort] is never
    replaced. Where the client has none, the first two get the configured
    default if there is a configuration and the default is an accepted
    value, and nothing otherwise. When the handler infers the effort (no
    configuration or the feature on, no effort from the client, a model
    [gpt-5-<effort>]), the effort is the suffix and the model becomes
    [gpt-5]; otherwise both are as the client sent them. The name returned
    is the model of the body returned, and no other top-level key, [stream]
    included, is touched. *)
Theorem preprocess_result (Cfg : option Config.SDKConfig)
  (body : ResponsesHandlers.Body) :
  let doc := ResponsesHandlers.doc_of body in
  let result := ResponsesHandlers.preprocessResponsesRequest Cfg body in
  let out := ResponsesHandlers.doc_of (fst result) in
  gjson_String (gjson_Get (Some doc) "model") <> "" ->
  plain_sections doc ->
  Logging.gjson_Get2 out "text" "verbosity" =
    match Cfg with
    | Some cfg =>
        default_for (Logging.gjson_Get2 doc "text" "verbosity")
          (Config.Verbosity (Config.Defaults (Config.Responses cfg)))
          ["low"; "medium"; "high"]
    | None => Logging.gjson_Get2 doc "text" "verbosity"
    end
  /\ Logging.gjson_Get2 out "reasoning" "summary" =
    match Cfg with
    | Some cfg =>
        default_for (Logging.gjson_Get2 doc "reasoning" "summary")
          (Config.ReasoningSummary (Config.Defaults (Config.Responses cfg)))
          ["auto"; "detailed"]
    | None => Logging.gjson_Get2 doc "reasoning" "summary"
    end
  /\ Logging.gjson_Get2 out "reasoning" "effort" =
    (if infers Cfg doc
     then Some (JString
                  (snd (fst (Responses.inferEffortFromModel
                               (gjson_String (gjson_Get (Some doc) "model"))))))
     else Logging.gjson_Get2 doc "reasoning" "effort")
  /\ gjson_Get (Some out) "model" =
    (if infers Cfg doc then Some (JString "gpt-5")
     else gjson_Get (Some doc) "model")
  /\ snd result = gjson_String (gjson_Get (Some out) "model")
  /\ (forall key, ~ In key ["text"; "reasoning"; "model"] ->
        gjson_Get (Some out) key = gjson_Get (Some doc) key).
Proof. exact (preprocess_shape Cfg body). Qed.

End PreprocessProperties.

(** Without a configuration, a request for [gpt-5-high] leaves as a request
    for [gpt-5] with a high effort, still a stream. *)
Lemma preprocess_result_example :
  let result :=
    @ResponsesHandlers.preprocessResponsesRequest (reading JNull) None
      (ResponsesHandlers.Built high_effort_request) in
  let out := @ResponsesHandlers.doc_of (reading JNull) (fst result) in
  snd result = "gpt-5"
  /\ OpenAI.gjson_Get (Some out) "model" = Some (JString "gpt-5")
  /\ Logging.gjson_Get2 out "reasoning" "effort" = Some (JString "high")
  /\ OpenAI.gjson_Get (Some out) "stream" = Some (JBool true).
Proof.
  destruct (@preprocess_result (reading JNull) None
              (ResponsesHandlers.Built high_effort_request))
    as (_ & _ & Heffort & Hmodel & Hname & Hrest).
  - discriminate.
  - split; reflexivity.
  - cbv zeta. split; [|split; [exact Hmodel|split; [exact Heffort|]]].
    + rewrite Hname. now rewrite Hmodel.
    + rewrite Hrest; [reflexivity|].
      cbn [In]. intuition discriminate.
Defined.

(** ** The handlers *)
Section RelayShape.

Variable body : Event -> list Effect * Control.

Hypothesis continue_quiet :
  forall ev done, body ev = (done, Continue) -> filter is_cancel done = [].
Hypothesis return_cancels :
  forall ev done, body ev = (done, Return) ->
    exists quiet params,
      done = quiet ++ [Cancel params] /\ filter is_cancel quiet = [].

(** What a relay has done is free of cancels while it runs, and ends with
    its only cancel once it has returned. *)
Lemma for_select_shape (events : list Event) :
  exists quiet,
    filter is_cancel quiet = []
    /\ ((snd (for_select body events) = false
         /\ fst (for_select body events) = quiet)
        \/ (snd (for_select body events) = true
            /\ exists params,
                fst (for_select body events) = quiet ++ [Cancel params])).
Proof.
  induction events as [|ev rest IH]; cbn [for_select].
  - exists []. auto.
  - destruct (body ev) as [done [|]] eqn:Hbody.
    + destruct IH as (quiet & Hquiet & Hshape).
      destruct (for_select body rest) as [later returned]; cbn [fst snd] in *.
      exists (done ++ quiet). split.
      * now rewrite filter_app, (continue_quiet _ _ Hbody), Hquiet.
      * destruct Hshape as [[-> ->]|[-> (params & ->)]]; [now left|right].
        split; [reflexivity|]. exists params. now rewrite app_assoc.
    + destruct (return_cancels _ _ Hbody) as (quiet & params & -> & Hquiet).
      exists quiet. split; [exact Hquiet|]. right.
      split; [reflexivity|]. now exists params.
Qed.

End RelayShape.

Lemma filter_Do (f : Handlers.Action -> bool) (effects : list Effect) :
  filter f (map Handlers.Do effects) =
  map Handlers.Do (filter (fun e => f (Handlers.Do e)) effects).
Proof.
  induction effects as [|e effects IH]; cbn [map filter]; [reflexivity|].
  destruct (f (Handlers.Do e)); cbn [map]; now rewrite IH.
Qed.

Lemma cancels_Do (effects : list Effect) :
  filter cancels (map Handlers.Do effects) =
  map Handlers.Do (filter is_cancel effects).
Proof.
  rewrite filter_Do. reflexivity.
Qed.

Lemma nothing_after_cancel_app (quiet rest : list Handlers.Action) :
  filter cancels quiet = [] ->
  nothing_after_cancel (quiet ++ rest) = nothing_after_cancel rest.
Proof.
  induction quiet as [|a quiet IH]; cbn [app filter nothing_after_cancel];
    [reflexivity|].
  destruct (cancels a); [discriminate|exact IH].
Qed.

(** A streaming handler that makes its context, calls the executor and
    hands over to a relay keeps the contexts in order. *)
Lemma relayed_disciplined (done : list Handlers.Action)
  (body : Event -> list Effect * Control) (events : list Event) :
  (forall ev done, body ev = (done, Continue) -> filter is_cancel done = []) ->
  (forall ev done, body ev = (done, Return) ->
     exists quiet params,
       done = quiet ++ [Cancel params] /\ filter is_cancel quiet = []) ->
  count calls_executor done = 1 -> count opens_context done = 1 ->
  filter cancels done = [] ->
  disciplined (Handlers.relayed done (for_select body events))
  /\ count calls_executor (fst (Handlers.relayed done (for_select body events)))
     = 1.
Proof.
  intros Hcontinue Hreturn Hcalls Hopens Hquiet.
  destruct (for_select_shape body Hcontinue Hreturn events)
    as (quiet & Hnone & Hshape).
  unfold disciplined, Handlers.relayed, count in *. cbn [fst snd].
  rewrite !filter_app, !length_app, cancels_Do, Hquiet.
  rewrite !filter_Do. cbn [calls_executor opens_context].
  assert (Hnever : forall effects : list Effect,
             filter (fun _ => false) effects = []).
  { induction effects; auto. }
  rewrite !Hnever. cbn [map length app]. rewrite !Nat.add_0_r, Hcalls, Hopens.
  rewrite length_map.
  destruct Hshape as [[-> ->]|[-> (params & ->)]].
  - rewrite Hnone, nothing_after_cancel_app by exact Hquiet.
    rewrite <- (app_nil_r (map Handlers.Do quiet)).
    rewrite nothing_after_cancel_app by (now rewrite cancels_Do, Hnone).
    repeat split; auto.
  - rewrite filter_app, Hnone, nothing_after_cancel_app by exact Hquiet.
    rewrite map_app, nothing_after_cancel_app
      by (now rewrite cancels_Do, Hnone).
    repeat split; auto.
Qed.

Lemma handleStreamResult_shape :
  (forall ev done,
     OpenAI.handleStreamResult_select ev = (done, Continue) ->
     filter is_cancel done = [])
  /\ (forall ev done,
        OpenAI.handleStreamResult_select ev = (done, Return) ->
        exists quiet params,
          done = quiet ++ [Cancel params] /\ filter is_cancel quiet = []).
Proof.
  split; intros ev done; each_event ev; intros H; inversion H; subst;
    try reflexivity.
  - now exists [], [Some err].
  - now exists [Write ("data: [DONE]" ++ LF ++ LF); Flush], [None].
  - now exists [WriteErrorResponse msg; Flush], [Error msg].
  - now exists [], [None].
Qed.

Lemma forwardResponsesStream_shape :
  (forall ev done,
     Responses.forwardResponsesStream_select ev = (done, Continue) ->
     filter is_cancel done = [])
  /\ (forall ev done,
        Responses.forwardResponsesStream_select ev = (done, Return) ->
        exists quiet params,
          done = quiet ++ [Cancel params] /\ filter is_cancel quiet = []).
Proof.
  split; intros ev done; each_event ev; intros H; inversion H; subst;
    try reflexivity.
  - now destruct (HasPrefix chunk "event:").
  - now exists [], [Some err].
  - now exists [Write LF; Flush], [None].
  - now exists [WriteErrorResponse msg; Flush], [Error msg].
  - now exists [], [None].
Qed.

Lemma handleCompletionsStreamingResponse_shape (L : OpenAI.Library) :
  (forall ev done,
     OpenAI.handleCompletionsStreamingResponse_select ev = (done, Continue) ->
     filter is_cancel done = [])
  /\ (forall ev done,
        OpenAI.handleCompletionsStreamingResponse_select ev = (done, Return) ->
        exists quiet params,
          done = quiet ++ [Cancel params] /\ filter is_cancel quiet = []).
Proof.
  split; intros ev done; each_event ev;
    try destruct (OpenAI.convertChatCompletionsStreamChunkToCompletions _);
    intros H; inversion H; subst; try reflexivity.
  - now exists [], [Some err].
  - now exists [Write ("data: [DONE]" ++ LF ++ LF); Flush], [].
  - now exists [WriteErrorResponse msg; Flush], [Error msg].
  - now exists [], [None].
Qed.

Section HandlerProperties.

Context {L : OpenAI.Library}.

Variable HandlerType : string.
Variable GetAlt : string.
Variable Cfg : option Config.SDKConfig.

Lemma unsupported_disciplined :
  disciplined (Handlers.streaming_headers ++ [Handlers.not_supported], true)
  /\ count calls_executor
       (fst (Handlers.streaming_headers ++ [Handlers.not_supported], true)) = 0.
Proof. repeat split. cbn. lia. Qed.

Lemma OpenAI_handleStreamingResponse_disciplined (flusher : bool)
  (rawJSON : string) (events : list Event) :
  let run :=
    OpenAIHandlers.handleStreamingResponse HandlerType GetAlt flusher rawJSON
      events in
  disciplined run /\ count calls_executor (fst run) = served true flusher.
Proof.
  cbv zeta. unfold OpenAIHandlers.handleStreamingResponse.
  destruct flusher; cbn [negb]; [|exact unsupported_disciplined].
  apply relayed_disciplined; try reflexivity; apply handleStreamResult_shape.
Qed.

Lemma handleCompletionsStreaming_disciplined (flusher : bool)
  (rawJSON : string) (events : list Event) :
  let run :=
    OpenAIHandlers.handleCompletionsStreaming HandlerType flusher rawJSON
      events in
  disciplined run /\ count calls_executor (fst run) = served true flusher.
Proof.
  cbv zeta. unfold OpenAIHandlers.handleCompletionsStreaming.
  destruct flusher; cbn [negb]; [|exact unsupported_disciplined].
  apply relayed_disciplined; try reflexivity;
    apply handleCompletionsStreamingResponse_shape.
Qed.

Lemma Responses_handleStreamingResponse_disciplined (flusher : bool)
  (rawJSON : ResponsesHandlers.Body) (events : list Event) :
  let run :=
    ResponsesHandlers.handleStreamingResponse HandlerType flusher rawJSON
      events in
  disciplined run /\ count calls_executor (fst run) = served true flusher.
Proof.
  cbv zeta. unfold ResponsesHandlers.handleStreamingResponse.
  destruct flusher; cbn [negb]; [|exact unsupported_disciplined].
  apply relayed_disciplined; try reflexivity;
    apply forwardResponsesStream_shape.
Qed.

(** Whatever the request, the answer of the executor and the events of the
    stream, each endpoint keeps its contexts in order: it calls the executor
    once for the context it makes, and makes at most one; it cancels that
    context exactly once by the time it returns, and never before the relay
    has returned; and it does nothing after the cancel. The executor is not
    called at all for a body that cannot be read, nor for a stream on a
    writer that cannot flush; it is called once for every other request. *)
Theorem handlers_keep_contexts_in_order (body : string + Relay.error)
  (flusher : bool) (resp : string) (errMsg : option ErrorMessage)
  (events : list Event) :
  let chat :=
    OpenAIHandlers.ChatCompletions HandlerType GetAlt body flusher resp errMsg
      events in
  let completions :=
    OpenAIHandlers.Completions HandlerType body flusher resp errMsg events in
  let responses :=
    ResponsesHandlers.Responses HandlerType Cfg body flusher resp errMsg
      events in
  let stream (doc : json) := Handlers.is_True (OpenAI.gjson_Get (Some doc) "stream") in
  disciplined chat /\ disciplined completions /\ disciplined responses
  /\ count calls_executor (fst chat) =
     match body with
     | inl rawJSON => served (stream (OpenAI.Parse rawJSON)) flusher
     | inr _ => 0
     end
  /\ count calls_executor (fst completions) =
     match body with
     | inl rawJSON => served (stream (OpenAI.Parse rawJSON)) flusher
     | inr _ => 0
     end
  /\ count calls_executor (fst responses) =
     match body with
     | inl rawJSON =>
         served
           (stream
              (ResponsesHandlers.doc_of
                 (fst (ResponsesHandlers.preprocessResponsesRequest Cfg
                         (ResponsesHandlers.Raw rawJSON)))))
           flusher
     | inr _ => 0
     end.
Proof.
  cbv zeta.
  unfold OpenAIHandlers.ChatCompletions, OpenAIHandlers.Completions,
    ResponsesHandlers.Responses.
  destruct body as [rawJSON|err]; [|repeat split; cbn; lia].
  set (out := fst (ResponsesHandlers.preprocessResponsesRequest Cfg _)).
  pose proof (OpenAI_handleStreamingResponse_disciplined flusher rawJSON events)
    as [Hchat Hchat'].
  pose proof (handleCompletionsStreaming_disciplined flusher rawJSON events)
    as [Hcompletions Hcompletions'].
  pose proof (Responses_handleStreamingResponse_disciplined flusher out events)
    as [Hresponses Hresponses'].
  assert (Hplain : forall b, served false b = 1) by (now intros []).
  destruct (Handlers.is_True (OpenAI.gjson_Get (Some (OpenAI.Parse rawJSON)) "stream"));
    destruct (Handlers.is_True
                (OpenAI.gjson_Get (Some (ResponsesHandlers.doc_of out)) "stream"));
    rewrite ?Hplain;
    (split; [|split; [|split; [|split; [|split]]]]); auto;
    destruct errMsg; repeat split; cbn; lia.
Qed.

Import OpenAI.

(** The model and the stream flag of the converted request. *)
Lemma chat_request_lookups (rawJSON : json) :
  let root := Some rawJSON in
  let chat := Some (convertCompletionsRequestToChatCompletions rawJSON) in
  gjson_String (gjson_Get chat "model") = gjson_String (gjson_Get root "model")
  /\ gjson_Get chat "stream" =
     match gjson_Get root "stream" with
     | Some s => Some (JBool (gjson_Bool (Some s)))
     | None => None
     end.
Proof.
  cbv zeta. unfold convertCompletionsRequestToChatCompletions. cbv zeta.
  unfold chat_template.
  rewrite (copy_field_key _ "model") by reflexivity.
  set (prompt := if String.eqb _ "" then _ else _).
  replace (sjson_Set _ "messages.0.content" (JString prompt)) with
    (JObject [("model", if gjson_Exists (gjson_Get (Some rawJSON) "model")
                        then JString (gjson_String (gjson_Get (Some rawJSON) "model"))
                        else JString "");
              ("messages",
               JArray [JObject [("role", JString "user");
                                ("content", JString prompt)]])])
    by now destruct (gjson_Exists _).
  rewrite !copy_field_key by reflexivity.
  rewrite !gjson_Get_object. split.
  - rewrite !map_get_skip by reflexivity. cbn [map_get String.eqb Ascii.eqb Bool.eqb].
    destruct (gjson_Get (Some rawJSON) "model"); reflexivity.
  - rewrite !map_get_skip by reflexivity.
    destruct (gjson_Get (Some rawJSON) "stream") as [s|]; cbn [gjson_Exists].
    + now rewrite map_get_set.
    + rewrite !map_get_skip by reflexivity. reflexivity.
Qed.

(** What the Completions endpoint sends upstream. Every call of the executor
    carries the converted request and the model name of the client's
    request; it is a call for a stream exactly when [stream] is the literal
    [true]. The converted request has [stream] exactly when the client's
    has, with the boolean that gjson reads from the client's value. So a
    value that is not the literal [true] but reads as true (the string
    [true], for one) asks the upstream for a stream through the call that
    waits for a single response. *)
Theorem completions_upstream_request (rawJSON : string) (flusher : bool)
  (resp : string) (errMsg : option ErrorMessage) (events : list Event) :
  let root := Some (Parse rawJSON) in
  let chat := convertCompletionsRequestToChatCompletions (Parse rawJSON) in
  let modelName := gjson_String (gjson_Get root "model") in
  let run :=
    OpenAIHandlers.Completions HandlerType (inl rawJSON) flusher resp errMsg
      events in
  (forall a, In a (fst run) -> calls_executor a = true ->
     a = if Handlers.is_True (gjson_Get root "stream")
         then Handlers.ExecuteStreamWithAuthManager HandlerType modelName
                (Render chat) ""
         else Handlers.ExecuteWithAuthManager HandlerType modelName
                (Render chat) "")
  /\ gjson_Get (Some chat) "stream" =
     match gjson_Get root "stream" with
     | Some s => Some (JBool (gjson_Bool (Some s)))
     | None => None
     end
  /\ (forall s,
        gjson_Get root "stream" = Some s ->
        Handlers.is_True (Some s) = false -> gjson_Bool (Some s) = true ->
        In (Handlers.ExecuteWithAuthManager HandlerType modelName
              (Render chat) "") (fst run)
        /\ gjson_Get (Some chat) "stream" = Some (JBool true))
  /\ Handlers.is_True (Some (JString "true")) = false
  /\ gjson_Bool (Some (JString "true")) = true.
Proof.
  cbv zeta.
  destruct (chat_request_lookups (Parse rawJSON)) as [Hmodel Hstream].
  cbv zeta in Hmodel, Hstream.
  split; [|split; [exact Hstream|split; [|split; reflexivity]]].
  - intros a Hin Hcall. unfold OpenAIHandlers.Completions in Hin.
    destruct (Handlers.is_True _).
    + unfold OpenAIHandlers.handleCompletionsStreaming in Hin.
      destruct flusher; cbn [negb] in Hin.
      * unfold Handlers.relayed in Hin. cbn [fst] in Hin.
        rewrite Hmodel in Hin. apply in_app_or in Hin as [Hin|Hin].
        -- cbn [In app Handlers.streaming_headers] in Hin.
           repeat (destruct Hin as [<-|Hin]; try discriminate; try reflexivity).
           contradiction.
        -- apply in_map_iff in Hin as (e & <- & _). discriminate.
      * cbn [fst In app Handlers.streaming_headers] in Hin.
        repeat (destruct Hin as [<-|Hin]; try discriminate). contradiction.
    + unfold OpenAIHandlers.handleCompletionsNonStreamingResponse in Hin.
      cbv zeta in Hin. rewrite Hmodel in Hin. cbn [fst In app] in Hin.
      destruct errMsg; cbn [In] in Hin;
        repeat (destruct Hin as [<-|Hin]; try discriminate; try reflexivity);
        contradiction.
  - intros s Hs Hliteral Hbool. rewrite Hs in *.
    unfold OpenAIHandlers.Completions. rewrite Hs, Hliteral.
    unfold OpenAIHandlers.handleCompletionsNonStreamingResponse. cbv zeta.
    rewrite Hmodel, Hstream, Hbool. split; [|reflexivity].
    cbn [fst app In]. auto.
Qed.

Lemma preprocess_name (body : ResponsesHandlers.Body) :
  let result := ResponsesHandlers.preprocessResponsesRequest Cfg body in
  plain_sections (ResponsesHandlers.doc_of body) ->
  snd result =
    gjson_String (gjson_Get (Some (ResponsesHandlers.doc_of (fst result))) "model")
  /\ gjson_Get (Some (ResponsesHandlers.doc_of (fst result))) "stream" =
     gjson_Get (Some (ResponsesHandlers.doc_of body)) "stream"
  /\ (gjson_String (gjson_Get (Some (ResponsesHandlers.doc_of body)) "model") = ""
      -> fst result = body).
Proof.
  cbv zeta. intros Hplain.
  destruct (String.eqb_spec
              (gjson_String (gjson_Get (Some (ResponsesHandlers.doc_of body)) "model"))
              "") as [Hempty|Hmodel].
  - unfold ResponsesHandlers.preprocessResponsesRequest.
    rewrite Hempty. cbn [String.eqb fst snd]. now rewrite Hempty.
  - destruct (preprocess_shape Cfg body Hmodel Hplain)
      as (_ & _ & _ & _ & Hname & Hrest).
    split; [exact Hname|]. split; [|contradiction].
    apply Hrest. cbn [In]. intuition discriminate.
Qed.

(** What the Responses endpoint sends upstream, when the sections [text]
    and [reasoning] of the request are plain. Whether the request is served
    as a stream is decided by the client's [stream] alone: the preprocessing
    does not change it. Every call of the executor carries the preprocessed
    body and the model name that the preprocessing returns, which is the
    model of that body. A request that names no model is passed on byte for
    byte. *)
Theorem responses_forwarding (rawJSON : string) (flusher : bool)
  (resp : string) (errMsg : option ErrorMessage) (events : list Event) :
  let doc := Parse rawJSON in
  let result :=
    ResponsesHandlers.preprocessResponsesRequest Cfg
      (ResponsesHandlers.Raw rawJSON) in
  let run :=
    ResponsesHandlers.Responses HandlerType Cfg (inl rawJSON) flusher resp
      errMsg events in
  plain_sections doc ->
  (forall a, In a (fst run) -> calls_executor a = true ->
     a = if Handlers.is_True (gjson_Get (Some doc) "stream")
         then Handlers.ExecuteStreamWithAuthManager HandlerType (snd result)
                (ResponsesHandlers.bytes_of (fst result)) ""
         else Handlers.ExecuteWithAuthManager HandlerType (snd result)
                (ResponsesHandlers.bytes_of (fst result)) "")
  /\ snd result =
     gjson_String
       (gjson_Get (Some (ResponsesHandlers.doc_of (fst result))) "model")
  /\ (gjson_String (gjson_Get (Some doc) "model") = "" ->
      ResponsesHandlers.bytes_of (fst result) = rawJSON).
Proof.
  cbv zeta. intros Hplain.
  destruct (preprocess_name (ResponsesHandlers.Raw rawJSON) Hplain)
    as (Hname & Hstream & Hsame).
  cbn [ResponsesHandlers.doc_of] in Hstream, Hsame.
  split; [|split; [exact Hname|intros Hempty; now rewrite Hsame]].
  intros a Hin Hcall. unfold ResponsesHandlers.Responses in Hin.
  rewrite Hstream in Hin.
  destruct (Handlers.is_True _).
  - unfold ResponsesHandlers.handleStreamingResponse in Hin.
    destruct flusher; cbn [negb] in Hin.
    + unfold Handlers.relayed in Hin. cbn [fst] in Hin.
      rewrite <- Hname in Hin. apply in_app_or in Hin as [Hin|Hin].
      * cbn [In app Handlers.streaming_headers] in Hin.
        repeat (destruct Hin as [<-|Hin]; try discriminate; try reflexivity).
        contradiction.
      * apply in_map_iff in Hin as (e & <- & _). discriminate.
    + cbn [fst In app Handlers.streaming_headers] in Hin.
      repeat (destruct Hin as [<-|Hin]; try discriminate). contradiction.
  - unfold ResponsesHandlers.handleNonStreamingResponse in Hin.
    cbv zeta in Hin. rewrite <- Hname in Hin. cbn [fst In app] in Hin.
    destruct errMsg; cbn [In app] in Hin;
      repeat (destruct Hin as [<-|Hin]; try discriminate; try reflexivity);
      contradiction.
Qed.

End HandlerProperties.

(** A request for [gpt-5-high] as a stream reaches the executor as a
    request for [gpt-5]. *)
Lemma responses_forwarding_example :
  In (Handlers.ExecuteStreamWithAuthManager "openai-response" "gpt-5" "" "")
     (fst (@ResponsesHandlers.Responses (reading high_effort_request)
             "openai-response" None (inl "") true "" None [DataClosed])).
Proof.
  pose proof (@responses_forwarding (reading high_effort_request)
                "openai-response" None "" true "" None [DataClosed]
                (conj eq_refl eq_refl)) as (Hcall & _ & _).
  cbn [In]. do 5 right. left. symmetry. apply Hcall; [|reflexivity].
  cbn [In]. do 5 right. left. reflexivity.
Defined.

(** ** How a relay ends, and what it leaves unflushed *)
Section RelayEnds.

Variable body : Event -> list Effect * Control.

Hypothesis returns_on_terminal :
  forall ev, snd (body ev) = if is_terminal ev then Return else Continue.
Hypothesis context_done :
  forall err, body (CtxDone err) = ([Cancel [Some err]], Return).

Lemma for_select_returned_iff (events : list Event) :
  snd (for_select body events) = existsb is_terminal events.
Proof.
  induction events as [|ev rest IH]; [reflexivity|].
  cbn [for_select existsb]. specialize (returns_on_terminal ev).
  destruct (body ev) as [done ctl]. cbn [snd] in returns_on_terminal.
  destruct (is_terminal ev); subst ctl; [reflexivity|].
  destruct (for_select body rest). exact IH.
Qed.

Lemma for_select_stops_at_terminal : stops_at_terminal (for_select body).
Proof.
  split; [exact for_select_returned_iff|]. split.
  - intros pre err post Hpre. apply for_select_ends_with.
    + now rewrite for_select_returned_iff.
    + apply context_done.
  - intros pre ev post Hpre Hev.
    assert (Hrun : snd (for_select body pre) = false)
      by now rewrite for_select_returned_iff.
    rewrite !(for_select_running _ _ _ Hrun). cbn [for_select].
    specialize (returns_on_terminal ev). rewrite Hev in returns_on_terminal.
    destruct (body ev) as [done ctl]. cbn [snd] in returns_on_terminal.
    now subst ctl.
Qed.

Hypothesis flushes :
  forall ev, pending_after false (fst (body ev)) = false.

Lemma for_select_flushes (events : list Event) :
  pending_after false (fst (for_select body events)) = false.
Proof.
  induction events as [|ev rest IH]; [reflexivity|].
  cbn [for_select]. specialize (flushes ev).
  destruct (body ev) as [done [|]]; cbn [fst] in *.
  - destruct (for_select body rest) as [later returned]. cbn [fst] in *.
    unfold pending_after in *. now rewrite fold_left_app, flushes.
  - exact flushes.
Qed.

End RelayEnds.

(** Each relay returns at the first event that ends it (the client gone,
    the data channel closed, a message on the error channel) and not
    before, whatever chunks, ticks and closed error channel it meets. When
    the client is gone it writes nothing more and cancels with the error of
    the request context. What comes after the event it returns on is never
    looked at. *)
Theorem relays_stop_at_terminal :
  stops_at_terminal OpenAI.handleStreamResult
  /\ stops_at_terminal Responses.forwardResponsesStream
  /\ forall L : OpenAI.Library,
      stops_at_terminal OpenAI.handleCompletionsStreamingResponse.
Proof.
  split; [|split; [|intros L]]; apply for_select_stops_at_terminal;
    try reflexivity; intros ev; each_event ev; try reflexivity.
  now destruct (OpenAI.convertChatCompletionsStreamChunkToCompletions _).
Qed.

(** No relay leaves a write unflushed: whenever it waits for the next event
    or has returned, everything that it has written to the client, error
    bodies included, has been followed by a flush. *)
Theorem relays_flush_what_they_write (events : list Event) :
  pending_after false (fst (OpenAI.handleStreamResult events)) = false
  /\ pending_after false (fst (Responses.forwardResponsesStream events)) = false
  /\ forall L : OpenAI.Library,
      pending_after false
        (fst (OpenAI.handleCompletionsStreamingResponse events)) = false.
Proof.
  split; [|split; [|intros L]]; apply for_select_flushes;
    intros ev; each_event ev; try reflexivity.
  - now destruct (HasPrefix chunk "event:").
  - now destruct (OpenAI.convertChatCompletionsStreamChunkToCompletions _).
Qed.

(** ** What the sanitizer leaves in a schema *)

Import Gemini.











(** What an entry writes does not depend on what was written before. *)
Lemma sanitize_entry_acc (rec : json -> json) (acc : list (string * json))
  (entry : string * json) :
  (sanitize_entry rec acc entry = acc /\ sanitize_entry rec [] entry = [])
  \/ exists k x,
       sanitize_entry rec acc entry = map_set k x acc
       /\ sanitize_entry rec [] entry = [(k, x)]
       /\ (k = fst entry \/ k = "enum").
Proof.
  destruct entry as [key val]. unfold sanitize_entry, set_unless_nil.
  cbv zeta. cbn [fst snd]. split_switch; auto.
  - destruct (is_null val); [now left|right]. eexists _, _. eauto.
  - destruct val as [| | |typed|typed|]; auto.
    + destruct (String.eqb _ ""); [now left|right]. eexists _, _. eauto.
    + destruct (first_normalized typed); [right|now left].
      eexists _, _. eauto.
  - destruct (sanitizeGeminiEnum val); [now left|right]. eexists _, _. eauto.
  - destruct (sanitizeGeminiRequired val); [now left|right].
    eexists _, _. eauto.
  - destruct val; auto. right. eexists _, _. eauto.
  - destruct (is_null (rec val)); [now left|right]. eexists _, _. eauto.
  - destruct val as [|[|]| | | |]; auto. right. eexists _, _. eauto.
  - destruct (is_null (rec val)); [now left|right]. eexists _, _. eauto.
Qed.

Lemma sanitize_entry_own_key (rec : json -> json)
  (acc : list (string * json)) (key : string) (val : json) :
  key <> "enum" ->
  map_get key (sanitize_entry rec acc (key, val)) =
  match map_get key (sanitize_entry rec [] (key, val)) with
  | Some x => Some x
  | None => map_get key acc
  end.
Proof.
  intros Henum.
  destruct (sanitize_entry_acc rec acc (key, val))
    as [[-> ->]|(k & x & -> & -> & Hk)]; [reflexivity|].
  cbn [fst] in Hk. rewrite map_get_set. cbn [map_get].
  destruct (String.eqb_spec k key) as [->|Hne]; [reflexivity|].
  destruct Hk; congruence.
Qed.

Lemma sanitize_fold_other_keys (rec : json -> json)
  (v acc : list (string * json)) (key : string) :
  ~ In key (keys v) -> key <> "enum" ->
  map_get key (fold_left (sanitize_entry rec) v acc) = map_get key acc.
Proof.
  intros Hfresh Henum. revert acc.
  induction v as [|entry v IH]; intros acc; [reflexivity|].
  cbn [fold_left]. cbn [keys map In] in Hfresh.
  rewrite IH by (intros Hin; apply Hfresh; now right).
  apply sanitize_entry_other_key; [|exact Henum].
  intros ->. apply Hfresh. now left.
Qed.

Lemma sanitize_fold_lookup (rec : json -> json) (v acc : list (string * json))
  (key : string) (val : json) :
  NoDup (keys v) -> In (key, val) v -> key <> "enum" ->
  map_get key (fold_left (sanitize_entry rec) v acc) =
  match map_get key (sanitize_entry rec [] (key, val)) with
  | Some x => Some x
  | None => map_get key acc
  end.
Proof.
  intros Hnd Hin Henum. revert acc.
  induction v as [|[k0 v0] v IH]; intros acc; [contradiction|].
  cbn [keys map fst] in Hnd. inversion Hnd as [|? ? Hfresh Hnd']; subst.
  cbn [fold_left]. destruct Hin as [Heq|Hin].
  - inversion Heq; subst k0 v0.
    rewrite sanitize_fold_other_keys by assumption.
    now apply sanitize_entry_own_key.
  - rewrite (IH Hnd' Hin).
    rewrite (sanitize_entry_other_key rec acc (k0, v0) key);
      [reflexivity| |exact Henum].
    cbn [fst]. intros <-. apply Hfresh.
    change key with (fst (key, val)). now apply in_map.
Qed.

Lemma properties_lookup (rec : json -> json) (props acc : list (string * json))
  (name : string) :
  NoDup (keys props) ->
  map_get name (fold_left (sanitize_property rec) props acc) =
  match map_get name props with
  | Some schema =>
      if is_null (rec schema) then map_get name acc else Some (rec schema)
  | None => map_get name acc
  end.
Proof.
  intros Hnd. revert acc.
  induction props as [|[k0 v0] props IH]; intros acc; [reflexivity|].
  cbn [keys map fst] in Hnd. inversion Hnd as [|? ? Hfresh Hnd']; subst.
  cbn [fold_left map_get]. rewrite (IH Hnd').
  unfold sanitize_property, set_unless_nil. cbn [fst snd].
  destruct (String.eqb_spec k0 name) as [->|Hne].
  - assert (Hnone : map_get name props = None).
    { destruct (map_get name props) eqn:Hget; [|reflexivity].
      exfalso. apply Hfresh. clear - Hget.
      induction props as [|[k x] props IH]; [discriminate|].
      cbn [map_get] in Hget. cbn [map fst In].
      destruct (String.eqb_spec k name); auto. }
    rewrite Hnone. destruct (is_null (rec v0)); [reflexivity|].
    now rewrite map_get_set, String.eqb_refl.
  - assert (Hother : map_get name
                       (if is_null (rec v0) then acc
                        else map_set k0 (rec v0) acc) = map_get name acc).
    { destruct (is_null (rec v0)); [reflexivity|].
      rewrite map_get_set. now destruct (String.eqb_spec k0 name). }
    now rewrite Hother.
Qed.

(** In a node that is a map (no key twice), the fate of a key other than
    [enum] is decided by its own entry alone, whatever the other keys and
    the order of the iteration: it is in the sanitized node what the
    sanitizer makes of the node that has this entry only. A key that the
    node does not have is not in the sanitized node. Under a [properties]
    key, the names of the properties are never read as keywords: each
    property is there under its own name with its sanitized schema, unless
    that is null. *)
Theorem sanitized_key_fate (v : list (string * json)) :
  NoDup (keys v) ->
  exists cleaned,
    sanitizeGeminiSchema (JObject v) = JObject cleaned
    /\ (forall key val, In (key, val) v -> key <> "enum" ->
          map_get key cleaned =
          OpenAI.gjson_Get
            (Some (sanitizeGeminiSchema (JObject [(key, val)]))) key)
    /\ (forall key, ~ In key (keys v) -> key <> "enum" ->
          map_get key cleaned = None)
    /\ (forall key props name,
          In (key, JObject props) v -> ToLower key = "properties" ->
          NoDup (keys props) ->
          OpenAI.gjson_Get (map_get key cleaned) name =
          match map_get name props with
          | Some schema =>
              if is_null (sanitizeGeminiSchema schema) then None
              else Some (sanitizeGeminiSchema schema)
          | None => None
          end).
Proof.
  intros Hnd. exists (fold_left (sanitize_entry sanitizeGeminiSchema) v []).
  split; [reflexivity|].
  assert (Hown : forall key val, In (key, val) v -> key <> "enum" ->
    map_get key (fold_left (sanitize_entry sanitizeGeminiSchema) v []) =
    map_get key (sanitize_entry sanitizeGeminiSchema [] (key, val))).
  { intros key val Hin Henum.
    rewrite (sanitize_fold_lookup _ _ _ _ _ Hnd Hin Henum).
    now destruct (map_get key _). }
  split; [|split].
  - intros key val Hin Henum. now rewrite (Hown key val Hin Henum).
  - intros key Hfresh Henum. now rewrite sanitize_fold_other_keys.
  - intros key props name Hin Hlower Hprops.
    assert (Henum : key <> "enum").
    { intros ->. discriminate. }
    rewrite (Hown key _ Hin Henum).
    unfold sanitize_entry. cbv zeta. cbn [fst snd]. rewrite Hlower.
    cbn [one_of existsb String.eqb Ascii.eqb Bool.eqb orb removed_keywords].
    cbn [map_set map_get]. rewrite String.eqb_refl.
    cbn [OpenAI.gjson_Get].
    now rewrite properties_lookup.
Qed.

(** A node with a property that is named like a keyword. *)
Lemma sanitized_key_fate_example :
  exists cleaned,
    sanitizeGeminiSchema
      (JObject [("properties",
                 JObject [("const", JObject [("type", JString "string")])]);
                ("anyOf", JArray [])]) = JObject cleaned
    /\ OpenAI.gjson_Get (map_get "properties" cleaned) "const" =
       Some (JObject [("type", JString "STRING")])
    /\ map_get "anyOf" cleaned = None.
Proof.
  destruct (sanitized_key_fate
              [("properties",
                JObject [("const", JObject [("type", JString "string")])]);
               ("anyOf", JArray [])])
    as (cleaned & Heq & Hown & _ & Hprops).
  - repeat constructor; cbn [In]; intuition discriminate.
  - exists cleaned. split; [exact Heq|]. split.
    + rewrite (Hprops "properties"
                 [("const", JObject [("type", JString "string")])] "const");
        [reflexivity|now left|reflexivity|].
      repeat constructor. intros [].
    + rewrite (Hown "anyOf" (JArray [])); [reflexivity|cbn; auto|discriminate].
Defined.

(** ** The sanitizer from text to text *)
Section SanitizeOutcomes.

Variable Unmarshal : string -> json + Gemini.error.
Variable Marshal : json -> string + Gemini.error.

(** [SanitizeSchemaForGemini] does not see the white space around a schema:
    the trimmed schema gives the same result. It returns no error exactly
    when the schema is blank or both the decoder and the encoder succeed;
    the text returned is then [{}], or the encoding of the sanitized
    schema. *)
Theorem SanitizeSchemaForGemini_outcomes (raw : string) :
  let result := SanitizeSchemaForGemini Unmarshal Marshal raw in
  SanitizeSchemaForGemini Unmarshal Marshal (TrimSpace raw) = result
  /\ (snd result = None <->
      TrimSpace raw = ""
      \/ exists schema out,
           Unmarshal (TrimSpace raw) = inl schema
           /\ Marshal (sanitizeGeminiSchema schema) = inl out)
  /\ (TrimSpace raw <> "" ->
      forall schema out,
        Unmarshal (TrimSpace raw) = inl schema ->
        Marshal (sanitizeGeminiSchema schema) = inl out ->
        result = (out, None)).
Proof.
  cbv zeta. unfold SanitizeSchemaForGemini. cbv zeta.
  rewrite TrimSpace_idempotent. split; [reflexivity|].
  destruct (String.eqb_spec (TrimSpace raw) "") as [Hblank|Hfull].
  - split; [split; auto|contradiction].
  - destruct (Unmarshal (TrimSpace raw)) as [schema|err] eqn:Hdecode.
    + destruct (Marshal (sanitizeGeminiSchema schema)) as [out|err] eqn:Hencode.
      * split.
        -- split; [intros _; right; now exists schema, out|reflexivity].
        -- intros _ schema' out' Hs Ho. inversion Hs; subst. congruence.
      * split; [|intros _ schema' out' Hs Ho; inversion Hs; subst; congruence].
        split; [discriminate|].
        intros [H|(schema' & out' & Hs & Ho)]; [contradiction|].
        inversion Hs; subst. congruence.
    + split; [|discriminate].
      split; [discriminate|].
      intros [H|(schema' & out' & Hs & _)]; [contradiction|discriminate].
Qed.

End SanitizeOutcomes.

(** ** Preprocessing twice *)
Section PreprocessTwice.

Context {L : OpenAI.Library}.

Import OpenAI.

Variable Cfg : option Config.SDKConfig.

Lemma inject_default_noop (body : ResponsesHandlers.Body) (k1 k2 : string)
  (value : string) (accepted : list string) :
  gjson_Exists (Logging.gjson_Get2 (ResponsesHandlers.doc_of body) k1 k2) = true
  \/ one_of value accepted = false ->
  ResponsesHandlers.inject_default body k1 k2 value accepted = body.
Proof.
  unfold ResponsesHandlers.inject_default. intros [-> | ->]; [reflexivity|].
  now destruct (_ && _).
Qed.

(** A body that has what the preprocessing would add is returned as it
    is. *)
Lemma preprocess_noop (body : ResponsesHandlers.Body) :
  let doc := ResponsesHandlers.doc_of body in
  (forall cfg, Cfg = Some cfg ->
     (gjson_Exists (Logging.gjson_Get2 doc "text" "verbosity") = true
      \/ one_of (Config.Verbosity (Config.Defaults (Config.Responses cfg)))
           ["low"; "medium"; "high"] = false)
     /\ (gjson_Exists (Logging.gjson_Get2 doc "reasoning" "summary") = true
         \/ one_of (Config.ReasoningSummary
                      (Config.Defaults (Config.Responses cfg)))
              ["auto"; "detailed"] = false)) ->
  infers Cfg doc = false ->
  ResponsesHandlers.preprocessResponsesRequest Cfg body =
  (body, gjson_String (gjson_Get (Some doc) "model")).
Proof.
  cbv zeta. intros Hdefaults Hinfers.
  unfold ResponsesHandlers.preprocessResponsesRequest.
  destruct (String.eqb_spec
              (gjson_String (gjson_Get (Some (ResponsesHandlers.doc_of body)) "model"))
              "") as [Hempty|_]; [now rewrite Hempty|].
  assert (Hsame :
    match Cfg with
    | Some cfg =>
        ResponsesHandlers.inject_default
          (ResponsesHandlers.inject_default body "text" "verbosity"
             (Config.Verbosity (Config.Defaults (Config.Responses cfg)))
             ["low"; "medium"; "high"])
          "reasoning" "summary"
          (Config.ReasoningSummary (Config.Defaults (Config.Responses cfg)))
          ["auto"; "detailed"]
    | None => body
    end = body).
  { destruct Cfg as [cfg|]; [|reflexivity].
    destruct (Hdefaults cfg eq_refl) as [Hverbosity Hsummary].
    rewrite (inject_default_noop body "text" "verbosity") by exact Hverbosity.
    now apply inject_default_noop. }
  rewrite Hsame. unfold infers in Hinfers.
  destruct (match Cfg with
            | Some cfg => Config.InferEffortFromModelSuffix _
            | None => true
            end); [|reflexivity].
  cbn [andb] in Hinfers.
  destruct (gjson_Exists (Logging.gjson_Get2 _ "reasoning" "effort"));
    [reflexivity|].
  cbn [negb andb] in *.
  destruct (Responses.inferEffortFromModel _) as [[base effort] ok].
  cbn [snd] in Hinfers. now subst ok.
Qed.

Lemma default_for_settled (client : Result) (configured : string)
  (accepted : list string) :
  gjson_Exists (default_for client configured accepted) = true
  \/ one_of configured accepted = false.
Proof.
  unfold default_for. destruct client; [now left|].
  destruct (one_of configured accepted); [now left|now right].
Qed.

(** Preprocessing is idempotent on the requests whose sections [text] and
    [reasoning] are plain: preprocessing the body that it returns gives
    that body again, with the same model name. *)
Theorem preprocess_idempotent (body : ResponsesHandlers.Body) :
  plain_sections (ResponsesHandlers.doc_of body) ->
  ResponsesHandlers.preprocessResponsesRequest Cfg
    (fst (ResponsesHandlers.preprocessResponsesRequest Cfg body))
  = ResponsesHandlers.preprocessResponsesRequest Cfg body.
Proof.
  intros Hplain.
  destruct (String.eqb_spec
              (gjson_String (gjson_Get (Some (ResponsesHandlers.doc_of body)) "model"))
              "") as [Hempty|Hmodel].
  { unfold ResponsesHandlers.preprocessResponsesRequest at 2 3.
    rewrite Hempty. cbn [String.eqb fst].
    unfold ResponsesHandlers.preprocessResponsesRequest. now rewrite Hempty. }
  destruct (preprocess_shape Cfg body Hmodel Hplain)
    as (Hverbosity & Hsummary & Heffort & Hnewmodel & Hname & _).
  set (result := ResponsesHandlers.preprocessResponsesRequest Cfg body) in *.
  rewrite preprocess_noop.
  - rewrite <- Hname. now destruct result.
  - intros cfg ->. rewrite Hverbosity, Hsummary.
    split; apply default_for_settled.
  - unfold infers at 1. rewrite Heffort, Hnewmodel.
    destruct (infers Cfg (ResponsesHandlers.doc_of body)) eqn:Hinfers.
    + cbn [gjson_Exists negb andb]. now rewrite andb_false_r.
    + unfold infers in Hinfers.
      destruct (match Cfg with
                | Some cfg => Config.InferEffortFromModelSuffix _
                | None => true
                end); [|reflexivity].
      cbn [andb] in *.
      destruct (gjson_Exists
                  (Logging.gjson_Get2 (ResponsesHandlers.doc_of body)
                     "reasoning" "effort")); [reflexivity|exact Hinfers].
Qed.

End PreprocessTwice.

(** The request for [gpt-5-high], preprocessed twice. *)
Lemma preprocess_idempotent_example :
  @ResponsesHandlers.preprocessResponsesRequest (reading JNull) None
    (fst (@ResponsesHandlers.preprocessResponsesRequest (reading JNull) None
            (ResponsesHandlers.Built high_effort_request)))
  = @ResponsesHandlers.preprocessResponsesRequest (reading JNull) None
      (ResponsesHandlers.Built high_effort_request).
Proof.
  apply (@preprocess_idempotent (reading JNull) None). split; reflexivity.
Defined.

(** ** What the verbose entry knows of a request *)
Section LoggedRequest.

Context {L : OpenAI.Library}.

Import OpenAI.

Variable HandlerType : string.
Variable GetAlt : string.
Variable Cfg : option Config.SDKConfig.
Variable DurationString : Z -> string.

Lemma Get_context_set (c : list (string * Logging.any)) (key : string)
  (value : Logging.any) :
  Logging.Get (context_set key value c) key = Some value.
Proof.
  induction c as [|[k v] c IH]; cbn [context_set Logging.Get].
  - now rewrite String.eqb_refl.
  - destruct (String.eqb_spec k key) as [->|Hne]; cbn [Logging.Get].
    + now rewrite String.eqb_refl.
    + apply String.eqb_neq in Hne. now rewrite Hne.
Qed.

Lemma context_after_relayed (done : list Handlers.Action)
  (relay : list Effect * bool) (c : list (string * Logging.any)) :
  context_after (fst (Handlers.relayed done relay)) c = context_after done c.
Proof.
  unfold Handlers.relayed, context_after. cbn [fst]. rewrite fold_left_app.
  generalize (fold_left
                (fun c a =>
                   match a with
                   | Handlers.SetKey key value =>
                       context_set key (Logging.Bytes value) c
                   | _ => c
                   end) done c).
  induction (fst relay) as [|e effects IH]; intros c'; [reflexivity|].
  cbn [map fold_left]. apply IH.
Qed.

(** The Chat-Completions handlers, on a writer that can flush, leave the
    request body in the context under [API_REQUEST], so that the verbose
    entry of a failed request names the model that the executor was called
    with, if the request has a body and its model is not empty. The
    Completions and the Responses handlers leave nothing in the context. *)
Theorem verbose_entry_names_the_model (rawJSON : string) (flusher : bool)
  (resp : string) (errMsg : option ErrorMessage) (events : list Event)
  (c : list (string * Logging.any)) (status : Z) (method path : string)
  (latency : Z) :
  let modelName := gjson_String (gjson_Get (Some (Parse rawJSON)) "model") in
  let chat :=
    OpenAIHandlers.ChatCompletions HandlerType GetAlt (inl rawJSON) true resp
      errMsg events in
  let entry :=
    Logging.emitVerbose5xxLog DurationString (context_after (fst chat) c)
      status method path latency in
  Logging.bytes_at (context_after (fst chat) c) "API_REQUEST" = rawJSON
  /\ (rawJSON <> "" -> modelName <> "" -> Logging.model entry = modelName)
  /\ (forall a, In a (fst chat) -> calls_executor a = true ->
        a = Handlers.ExecuteWithAuthManager HandlerType modelName rawJSON GetAlt
        \/ a = Handlers.ExecuteStreamWithAuthManager HandlerType modelName
                 rawJSON GetAlt)
  /\ context_after
       (fst (OpenAIHandlers.Completions HandlerType (inl rawJSON) flusher resp
               errMsg events)) c = c
  /\ context_after
       (fst (ResponsesHandlers.Responses HandlerType Cfg (inl rawJSON) flusher
               resp errMsg events)) c = c.
Proof.
  cbv zeta.
  assert (Hstash :
    Logging.bytes_at
      (context_after
         (fst (OpenAIHandlers.ChatCompletions HandlerType GetAlt (inl rawJSON)
                 true resp errMsg events)) c) "API_REQUEST" = rawJSON).
  { unfold OpenAIHandlers.ChatCompletions, Logging.bytes_at.
    destruct (Handlers.is_True _).
    - unfold OpenAIHandlers.handleStreamingResponse. cbn [negb].
      rewrite context_after_relayed. cbn [context_after fold_left app
        Handlers.streaming_headers].
      now rewrite Get_context_set.
    - unfold OpenAIHandlers.handleNonStreamingResponse. cbv zeta.
      destruct errMsg; cbn [fst context_after fold_left app];
        now rewrite Get_context_set. }
  split; [exact Hstash|]. split; [|split; [|split]].
  - intros Hbody Hmodel. unfold Logging.emitVerbose5xxLog.
    cbn [Logging.model]. rewrite Hstash. unfold Logging.request_model.
    destruct rawJSON as [|ch rest]; [contradiction|].
    cbn [String.length Nat.ltb Nat.leb].
    apply String.eqb_neq in Hmodel. now rewrite Hmodel.
  - intros a Hin Hcall. unfold OpenAIHandlers.ChatCompletions in Hin.
    destruct (Handlers.is_True _).
    + unfold OpenAIHandlers.handleStreamingResponse in Hin.
      cbn [negb] in Hin. unfold Handlers.relayed in Hin. cbn [fst] in Hin.
      apply in_app_or in Hin as [Hin|Hin].
      * cbn [In app Handlers.streaming_headers] in Hin.
        repeat (destruct Hin as [<-|Hin]; try discriminate).
        -- now right.
        -- contradiction.
      * apply in_map_iff in Hin as (e & <- & _). discriminate.
    + unfold OpenAIHandlers.handleNonStreamingResponse in Hin.
      cbv zeta in Hin. cbn [fst In app] in Hin.
      destruct errMsg; cbn [In] in Hin;
        repeat (destruct Hin as [<-|Hin]; try discriminate);
        try contradiction; now left.
  - unfold OpenAIHandlers.Completions.
    destruct (Handlers.is_True _).
    + unfold OpenAIHandlers.handleCompletionsStreaming.
      destruct flusher; cbn [negb]; [|reflexivity].
      now rewrite context_after_relayed.
    + unfold OpenAIHandlers.handleCompletionsNonStreamingResponse.
      now destruct errMsg.
  - unfold ResponsesHandlers.Responses.
    destruct (Handlers.is_True _).
    + unfold ResponsesHandlers.handleStreamingResponse.
      destruct flusher; cbn [negb]; [|reflexivity].
      now rewrite context_after_relayed.
    + unfold ResponsesHandlers.handleNonStreamingResponse.
      now destruct errMsg.
Qed.

End LoggedRequest.
